(** * Spaced-repetition scheduling engine of FlashCard-Maker

    A shallow embedding of [src/core/spaced_repetition.py] and the
    properties its specification states about it, followed by further
    properties of the engine and of the two functions of
    [src/gui/components/study_stats.py] that read its review histories.

    Conventions of the embedding:
    - a Python [float] is an IEEE-754 binary64 value, [spec_float] of the
      Standard Library with precision 53 and [emax] 1024; the arithmetic
      is the correctly rounded one of [SpecFloat];
    - a Python [int] is a [Z];
    - a raised exception is a value [Raise e] of the type [result]; an
      operation of the engine returns the engine it leaves behind together
      with its result, so that what a call has mutated before it raised
      stays visible;
    - every call of [datetime.now(timezone.utc)] is an argument of the
      operation that makes it;
    - the engine's dictionary is a finite map from card ids to records, a
      snapshot (the dictionary [export_data] builds and [import_data]
      iterates over) is the list of its items in iteration order;
    - lists are values: that [export_data] and [import_data] hand over the
      [response_times] list object itself, so that a snapshot and a record
      can share it, is not modelled. *)

From Stdlib Require Import ZArith Lia Bool List String Ascii.
From Stdlib Require Import SpecFloat.
From stdpp Require Import base option list gmap strings.

Local Open Scope Z_scope.

(* ================================================================== *)
(** * Exceptions *)

Inductive exn : Type :=
  | OverflowError | ValueError | TypeError | ZeroDivisionError | IndexError.

Inductive result (A : Type) : Type :=
  | Ok (a : A)
  | Raise (e : exn).
Arguments Ok {A} a.
Arguments Raise {A} e.

#[global] Instance result_ret : MRet result := fun A a => Ok a.
#[global] Instance result_bind : MBind result := fun A B f r =>
  match r with
  | Ok a => f a
  | Raise e => Raise e
  end.

Definition is_ok {A} (r : result A) : bool :=
  match r with Ok _ => true | Raise _ => false end.

(* ================================================================== *)
(** * Python floats: IEEE-754 binary64 *)

Definition prec : Z := 53.
Definition emax : Z := 1024.

Abbreviation float := spec_float.

Definition fadd : float -> float -> float := SFadd prec emax.
Definition fsub : float -> float -> float := SFsub prec emax.
Definition fmul : float -> float -> float := SFmul prec emax.
Definition fdiv : float -> float -> float := SFdiv prec emax.

(** The binary64 value nearest to the integer [n] (ties to even); an
    infinity when [n] is out of range. *)
Definition float_of_Z (n : Z) : float := binary_normalize prec emax n 0 false.

(** A decimal literal [num/den] of the source text: the binary64 value
    nearest to the fraction. *)
Definition float_lit (num den : Z) : float :=
  fdiv (float_of_Z num) (float_of_Z den).

(** [float(n)], as the mixed [int]/[float] arithmetic converts its [int]
    operand: [OverflowError] when [n] is too large. *)
Definition float_of_int (n : Z) : result float :=
  match float_of_Z n with
  | S754_infinity _ => Raise OverflowError
  | f => Ok f
  end.

(** [int(f)]: truncation toward zero; [int(inf)] raises [OverflowError],
    [int(nan)] raises [ValueError]. *)
Definition int_of_float (f : float) : result Z :=
  match f with
  | S754_nan => Raise ValueError
  | S754_infinity _ => Raise OverflowError
  | S754_zero _ => Ok 0
  | S754_finite s m e =>
      Ok (cond_Zopp s (if 0 <=? e then Zpos m * 2 ^ e else Zpos m / 2 ^ (- e)))
  end.

(** [n * f] for an [int] [n] and a [float] [f]. *)
Definition int_mul_float (n : Z) (f : float) : result float :=
  x ← float_of_int n; mret (fmul x f).

(** [f + n] for a [float] [f] and an [int] [n]. *)
Definition float_add_int (f : float) (n : Z) : result float :=
  x ← float_of_int n; mret (fadd f x).

Definition float_is_zero (f : float) : bool :=
  match f with S754_zero _ => true | _ => false end.

(** [f / n] for a [float] [f] and an [int] [n]. *)
Definition float_div_int (f : float) (n : Z) : result float :=
  x ← float_of_int n;
  if float_is_zero x then Raise ZeroDivisionError else mret (fdiv f x).

(** [a / b] for two [int]s: the correctly rounded quotient. *)
Definition int_truediv (a b : Z) : result float :=
  if b =? 0 then Raise ZeroDivisionError
  else if a =? 0 then Ok (S754_zero (b <? 0))
  else
    match fdiv (S754_finite (a <? 0) (Z.to_pos (Z.abs a)) 0)
               (S754_finite (b <? 0) (Z.to_pos (Z.abs b)) 0) with
    | S754_infinity _ => Raise OverflowError
    | f => Ok f
    end.

(** [max(a, b)] and [min(a, b)] of two floats: the first argument is kept
    unless the second is strictly greater (smaller). *)
Definition float_max (a b : float) : float := if SFltb a b then b else a.
Definition float_min (a b : float) : float := if SFltb b a then b else a.

Definition float_valid (f : float) : bool := valid_binary prec emax f.

(** Literals of the source. *)
Definition f_0_0  : float := S754_zero false.                      (* 0.0  *)
Definition f_2_5  : float := Eval vm_compute in float_lit 25 10.   (* 2.5  *)
Definition f_0_2  : float := Eval vm_compute in float_lit 2 10.    (* 0.2  *)
Definition f_0_15 : float := Eval vm_compute in float_lit 15 100.  (* 0.15 *)
Definition f_0_1  : float := Eval vm_compute in float_lit 1 10.    (* 0.1  *)
Definition f_0_02 : float := Eval vm_compute in float_lit 2 100.   (* 0.02 *)

(** Mathematical rounding to the nearest integer (halves go up), the
    [round] of the specification's interval formulas; it is not what the
    source calls. *)
Definition round_nearest (f : float) : result Z :=
  match f with
  | S754_nan => Raise ValueError
  | S754_infinity _ => Raise OverflowError
  | S754_zero _ => Ok 0
  | S754_finite s m e =>
      Ok (cond_Zopp s
            (if 0 <=? e then Zpos m * 2 ^ e
             else (2 * Zpos m + 2 ^ (- e)) / (2 * 2 ^ (- e))))
  end.

(* ================================================================== *)
(** * [datetime]

    A [datetime] object holds its calendar fields and an optional UTC
    offset ([tzinfo]); it is naive when the offset is absent. The offset
    is in seconds. The functions below model the part of the [datetime]
    module the engine calls. *)

Record datetime : Type := mk_datetime {
  year : Z; month : Z; day : Z;
  hour : Z; minute : Z; second : Z; microsecond : Z;
  tzinfo : option Z
}.

#[global] Instance datetime_eq_dec : EqDecision datetime.
Proof. solve_decision. Defined.

Definition is_leap (y : Z) : bool :=
  (y mod 4 =? 0) && (negb (y mod 100 =? 0) || (y mod 400 =? 0)).

Definition days_in_month (y m : Z) : Z :=
  if m =? 2 then (if is_leap y then 29 else 28)
  else if (m =? 4) || (m =? 6) || (m =? 9) || (m =? 11) then 30
  else 31.

Definition days_before_year (y : Z) : Z :=
  let y' := y - 1 in y' * 365 + y' / 4 - y' / 100 + y' / 400.

Definition days_before_month_common (m : Z) : Z :=
  match m with
  | 1 => 0 | 2 => 31 | 3 => 59 | 4 => 90 | 5 => 120 | 6 => 151
  | 7 => 181 | 8 => 212 | 9 => 243 | 10 => 273 | 11 => 304 | _ => 334
  end.

Definition days_before_month (y m : Z) : Z :=
  days_before_month_common m + (if (2 <? m) && is_leap y then 1 else 0).

(** Proleptic Gregorian ordinal of a date, 0001-01-01 being day 1. *)
Definition ymd2ord (y m d : Z) : Z :=
  days_before_year y + days_before_month y m + d.

Definition DI400Y : Z := 146097.
Definition DI100Y : Z := 36524.
Definition DI4Y : Z := 1461.

(** Month and day of the [n]-th day (from 0) of a year. *)
Definition month_day (n : Z) (leapyear : bool) : Z * Z :=
  let m := Z.shiftr (n + 50) 5 in
  let preceding :=
    days_before_month_common m + (if (2 <? m) && leapyear then 1 else 0) in
  if n <? preceding then
    let m := m - 1 in
    let preceding :=
      preceding - (if m =? 2 then (if leapyear then 29 else 28)
                   else days_in_month 1 m) in
    (m, n - preceding + 1)
  else (m, n - preceding + 1).

(** The date of an ordinal. *)
Definition ord2ymd (n : Z) : Z * Z * Z :=
  let n := n - 1 in
  let n400 := n / DI400Y in let n := n mod DI400Y in
  let y := n400 * 400 + 1 in
  let n100 := n / DI100Y in let n := n mod DI100Y in
  let n4 := n / DI4Y in let n := n mod DI4Y in
  let n1 := n / 365 in let n := n mod 365 in
  let y := y + n100 * 100 + n4 * 4 + n1 in
  if (n1 =? 4) || (n100 =? 4) then (y - 1, 12, 31)
  else
    let leapyear := (n1 =? 3) && (negb (n4 =? 24) || (n100 =? 3)) in
    let '(m, d) := month_day n leapyear in
    (y, m, d).

Definition between (lo x hi : Z) : bool := (lo <=? x) && (x <=? hi).

(** The ranges every [datetime] object satisfies by construction. *)
Definition datetime_valid (d : datetime) : bool :=
  between 1 (year d) 9999 && between 1 (month d) 12 &&
  between 1 (day d) (days_in_month (year d) (month d)) &&
  between 0 (hour d) 23 && between 0 (minute d) 59 &&
  between 0 (second d) 59 && between 0 (microsecond d) 999999 &&
  match tzinfo d with
  | None => true
  | Some off => between (-86399) off 86399
  end.

Definition US_PER_SECOND : Z := 1000000.
Definition US_PER_DAY : Z := 86400 * US_PER_SECOND.

(** Microseconds on the wall clock since 0001-01-01T00:00:00. *)
Definition to_micros (d : datetime) : Z :=
  ((((ymd2ord (year d) (month d) (day d) - 1) * 24 + hour d) * 60
      + minute d) * 60 + second d) * US_PER_SECOND + microsecond d.

Definition of_micros (us : Z) (tz : option Z) : datetime :=
  let '(y, m, d) := ord2ymd (us / US_PER_DAY + 1) in
  let r := us mod US_PER_DAY in
  let secs := r / US_PER_SECOND in
  {| year := y; month := m; day := d;
     hour := secs / 3600; minute := (secs mod 3600) / 60; second := secs mod 60;
     microsecond := r mod US_PER_SECOND; tzinfo := tz |}.

(** [datetime.max] on the same scale: 9999-12-31T23:59:59.999999. *)
Definition MAX_MICROS : Z := 3652059 * US_PER_DAY - 1.

(** A [timedelta], in microseconds; its constructor raises
    [OverflowError] when the number of days exceeds 999999999 in
    magnitude. *)
Definition timedelta (us : Z) : result Z :=
  if between (-999999999) (us / US_PER_DAY) 999999999 then Ok us
  else Raise OverflowError.
Definition timedelta_minutes (m : Z) : result Z := timedelta (m * 60 * US_PER_SECOND).
Definition timedelta_days (n : Z) : result Z := timedelta (n * US_PER_DAY).

(** [d + delta]: the offset is kept, and a date outside the years
    1..9999 raises [OverflowError]. *)
Definition datetime_add (d : datetime) (delta : Z) : result datetime :=
  let t := to_micros d + delta in
  if between 0 t MAX_MICROS then Ok (of_micros t (tzinfo d))
  else Raise OverflowError.

(** [a <= b]: aware values are compared as instants, naive ones on the
    wall clock, and comparing a naive with an aware value raises
    [TypeError]. *)
Definition datetime_le (a b : datetime) : result bool :=
  match tzinfo a, tzinfo b with
  | Some oa, Some ob =>
      Ok (to_micros a - oa * US_PER_SECOND <=? to_micros b - ob * US_PER_SECOND)
  | None, None => Ok (to_micros a <=? to_micros b)
  | _, _ => Raise TypeError
  end.

(** What [datetime.now(timezone.utc)] returns: a valid aware value with
    offset zero. *)
Definition utc_now (d : datetime) : bool :=
  datetime_valid d && bool_decide (tzinfo d = Some 0).

(* ================================================================== *)
(** * ISO 8601 text of a [datetime]

    [isoformat] prints [YYYY-MM-DDTHH:MM:SS], then [.ffffff] when the
    microseconds are not zero, then the offset [+HH:MM] (with [:SS] when
    it has seconds) of an aware value.

    [fromisoformat] models [datetime.fromisoformat] on the strings of
    that format, with any single character between date and time: it
    returns the value the library returns, and raises [ValueError] when
    a field is out of range. The library reads other forms as well (a
    bare date, a time without seconds, fractions of fewer digits, and
    from Python 3.11 on [Z], week dates and more), which the engine
    never writes; on a string of another form the model answers
    [ValueError] whether the library reads it or not. The properties
    below therefore use the model's answer in two cases only: where it
    is [Ok], and on the strings of [invalid_timestamp], which every
    version of the library rejects. *)

Definition ascii_of_digit (n : Z) : ascii := ascii_of_N (Z.to_N (48 + n)).

Definition digit_of_ascii (c : ascii) : option Z :=
  let n := Z.of_N (N_of_ascii c) in
  if between 48 n 57 then Some (n - 48) else None.

(** [k] decimal digits of [n], most significant first, in front of [rest]. *)
Fixpoint pad (k : nat) (n : Z) (rest : string) : string :=
  match k with
  | O => rest
  | S k' => pad k' (n / 10) (String (ascii_of_digit (n mod 10)) rest)
  end.

Fixpoint parse_digits (k : nat) (acc : Z) (s : string) : option (Z * string) :=
  match k with
  | O => Some (acc, s)
  | S k' =>
      match s with
      | String c s' =>
          match digit_of_ascii c with
          | Some v => parse_digits k' (10 * acc + v) s'
          | None => None
          end
      | EmptyString => None
      end
  end.

Definition expect (c : ascii) (s : string) : option string :=
  match s with
  | String c' s' => if Ascii.eqb c c' then Some s' else None
  | EmptyString => None
  end.

Definition skip_one (s : string) : option string :=
  match s with
  | String _ s' => Some s'
  | EmptyString => None
  end.

Definition format_offset (tz : option Z) : string :=
  match tz with
  | None => EmptyString
  | Some off =>
      let a := Z.abs off in
      String (if off <? 0 then "-"%char else "+"%char)
        (pad 2 (a / 3600)
           (String ":" (pad 2 ((a mod 3600) / 60)
              (if a mod 60 =? 0 then EmptyString
               else String ":" (pad 2 (a mod 60) EmptyString)))))
  end.

Definition isoformat (d : datetime) : string :=
  pad 4 (year d) (String "-" (pad 2 (month d) (String "-" (pad 2 (day d)
    (String "T" (pad 2 (hour d) (String ":" (pad 2 (minute d)
      (String ":" (pad 2 (second d)
        (if microsecond d =? 0 then format_offset (tzinfo d)
         else String "." (pad 6 (microsecond d) (format_offset (tzinfo d)))))))))))))).

Definition parse_fraction (s : string) : option (Z * string) :=
  match s with
  | String "." s' => parse_digits 6 0 s'
  | _ => Some (0, s)
  end.

Definition parse_offset (s : string) : option (option Z) :=
  match s with
  | EmptyString => Some None
  | String c s' =>
      sign ← (if Ascii.eqb c "+" then Some 1
              else if Ascii.eqb c "-" then Some (-1) else None);
      '(hh, s1) ← parse_digits 2 0 s';
      s2 ← expect ":" s1;
      '(mm, s3) ← parse_digits 2 0 s2;
      match s3 with
      | EmptyString => Some (Some (sign * (hh * 3600 + mm * 60)))
      | _ =>
          s4 ← expect ":" s3;
          '(ss, s5) ← parse_digits 2 0 s4;
          match s5 with
          | EmptyString =>
              if between 0 mm 59 && between 0 ss 59
              then Some (Some (sign * (hh * 3600 + mm * 60 + ss))) else None
          | _ => None
          end
      end
  end.

Definition parse_iso (s : string) : option datetime :=
  '(y, s) ← parse_digits 4 0 s;
  s ← expect "-" s;
  '(m, s) ← parse_digits 2 0 s;
  s ← expect "-" s;
  '(d, s) ← parse_digits 2 0 s;
  s ← skip_one s;
  '(hh, s) ← parse_digits 2 0 s;
  s ← expect ":" s;
  '(mi, s) ← parse_digits 2 0 s;
  s ← expect ":" s;
  '(ss, s) ← parse_digits 2 0 s;
  '(us, s) ← parse_fraction s;
  tz ← parse_offset s;
  Some {| year := y; month := m; day := d; hour := hh; minute := mi;
          second := ss; microsecond := us; tzinfo := tz |}.

Definition fromisoformat (s : string) : result datetime :=
  match parse_iso s with
  | Some d => if datetime_valid d then Ok d else Raise ValueError
  | None => Raise ValueError
  end.

(* ================================================================== *)
(** * [ReviewResult] and [ReviewData] *)

Inductive ReviewResult : Type := AGAIN | HARD | GOOD | EASY.

#[global] Instance ReviewResult_eq_dec : EqDecision ReviewResult.
Proof. solve_decision. Defined.

(** [result.value] *)
Definition ReviewResult_value (r : ReviewResult) : Z :=
  match r with AGAIN => 0 | HARD => 1 | GOOD => 2 | EASY => 3 end.

(** [ReviewResult(v)], which raises [ValueError] on any other value. *)
Definition ReviewResult_of_value (v : Z) : result ReviewResult :=
  match v with
  | 0 => Ok AGAIN | 1 => Ok HARD | 2 => Ok GOOD | 3 => Ok EASY
  | _ => Raise ValueError
  end.

(** [result in [ReviewResult.GOOD, ReviewResult.EASY]] *)
Definition is_success (r : ReviewResult) : bool :=
  match r with GOOD | EASY => true | _ => false end.

Record ReviewData : Type := mk_ReviewData {
  ease_factor : float;
  interval : Z;
  repetition : Z;
  last_review : option datetime;
  next_review : option datetime;
  total_reviews : Z;
  total_time_spent : float;
  learning_step : Z;
  graduated : bool;
  response_times : list float;
  review_history : list (datetime * ReviewResult * float)
}.

(** [ReviewData()] *)
Definition ReviewData0 : ReviewData :=
  {| ease_factor := f_2_5; interval := 1; repetition := 0;
     last_review := None; next_review := None;
     total_reviews := 0; total_time_spent := f_0_0;
     learning_step := 0; graduated := false;
     response_times := []; review_history := [] |}.

(** Assignments to one attribute. *)
Definition set_ease_factor (x : float) (d : ReviewData) : ReviewData :=
  mk_ReviewData x (interval d) (repetition d) (last_review d) (next_review d)
    (total_reviews d) (total_time_spent d) (learning_step d) (graduated d)
    (response_times d) (review_history d).
Definition set_interval (x : Z) (d : ReviewData) : ReviewData :=
  mk_ReviewData (ease_factor d) x (repetition d) (last_review d) (next_review d)
    (total_reviews d) (total_time_spent d) (learning_step d) (graduated d)
    (response_times d) (review_history d).
Definition set_repetition (x : Z) (d : ReviewData) : ReviewData :=
  mk_ReviewData (ease_factor d) (interval d) x (last_review d) (next_review d)
    (total_reviews d) (total_time_spent d) (learning_step d) (graduated d)
    (response_times d) (review_history d).
Definition set_last_review (x : option datetime) (d : ReviewData) : ReviewData :=
  mk_ReviewData (ease_factor d) (interval d) (repetition d) x (next_review d)
    (total_reviews d) (total_time_spent d) (learning_step d) (graduated d)
    (response_times d) (review_history d).
Definition set_next_review (x : option datetime) (d : ReviewData) : ReviewData :=
  mk_ReviewData (ease_factor d) (interval d) (repetition d) (last_review d) x
    (total_reviews d) (total_time_spent d) (learning_step d) (graduated d)
    (response_times d) (review_history d).
Definition set_learning_step (x : Z) (d : ReviewData) : ReviewData :=
  mk_ReviewData (ease_factor d) (interval d) (repetition d) (last_review d)
    (next_review d) (total_reviews d) (total_time_spent d) x (graduated d)
    (response_times d) (review_history d).
Definition set_graduated (x : bool) (d : ReviewData) : ReviewData :=
  mk_ReviewData (ease_factor d) (interval d) (repetition d) (last_review d)
    (next_review d) (total_reviews d) (total_time_spent d) (learning_step d) x
    (response_times d) (review_history d).

(** [l[-50:]] *)
Definition last_50 {A} (l : list A) : list A := drop (length l - 50) l.

(** [ReviewData.add_review]; [now] is its clock reading. *)
Definition add_review (now : datetime) (r : ReviewResult) (response_time : float)
    (d : ReviewData) : ReviewData :=
  let times := response_times d ++ [response_time] in
  {| ease_factor := ease_factor d; interval := interval d;
     repetition := repetition d;
     last_review := last_review d; next_review := next_review d;
     total_reviews := total_reviews d + 1;
     total_time_spent := fadd (total_time_spent d) response_time;
     learning_step := learning_step d; graduated := graduated d;
     response_times :=
       if (50 <? Z.of_nat (length times)) then last_50 times else times;
     review_history := review_history d ++ [(now, r, response_time)] |}.

(** [sum(1 for _, result, _ in history if result in [GOOD, EASY])] *)
Definition count_successful (h : list (datetime * ReviewResult * float)) : Z :=
  Z.of_nat (length (filter (fun x => is_success (snd (fst x)) = true) h)).

(* ================================================================== *)
(** * [SpacedRepetitionEngine] *)

Definition LEARNING_STEPS : list Z := [1; 10; 1440].
Definition GRADUATING_INTERVAL : Z := 1.
Definition EASY_INTERVAL : Z := 4.
Definition HARD_INTERVAL_FACTOR : float := Eval vm_compute in float_lit 12 10. (* 1.2 *)
Definition EASY_INTERVAL_FACTOR : float := Eval vm_compute in float_lit 13 10. (* 1.3 *)
Definition MIN_EASE_FACTOR : float := Eval vm_compute in float_lit 13 10.      (* 1.3 *)
Definition MAX_EASE_FACTOR : float := Eval vm_compute in float_of_Z 5.         (* 5.0 *)

(** [self.review_data] *)
Abbreviation engine := (gmap string ReviewData).

(** [SpacedRepetitionEngine()] *)
Definition new_engine : engine := ∅.

(** [l[i]] of a Python list, negative indices counting from the end. *)
Definition py_index {A} (l : list A) (i : Z) : result A :=
  let n := Z.of_nat (length l) in
  let j := if i <? 0 then i + n else i in
  if between 0 j (n - 1) then
    match l !! Z.to_nat j with
    | Some x => Ok x
    | None => Raise IndexError
    end
  else Raise IndexError.

Definition get_review_data (card_id : string) (E : engine) : engine * ReviewData :=
  match E !! card_id with
  | Some d => (E, d)
  | None => (<[card_id := ReviewData0]> E, ReviewData0)
  end.

Definition _process_learning_review (r : ReviewResult) (d : ReviewData) : ReviewData :=
  match r with
  | AGAIN => set_learning_step 0 d
  | GOOD | EASY =>
      let d := set_learning_step (learning_step d + 1) d in
      if Z.of_nat (length LEARNING_STEPS) <=? learning_step d then
        let d := set_repetition 1 (set_graduated true d) in
        match r with
        | EASY => set_interval EASY_INTERVAL d
        | _ => set_interval GRADUATING_INTERVAL d
        end
      else d
  | HARD => d
  end.

Definition _update_ease_factor (r : ReviewResult) (d : ReviewData) : ReviewData :=
  match r with
  | HARD => set_ease_factor (float_max MIN_EASE_FACTOR (fsub (ease_factor d) f_0_15)) d
  | EASY => set_ease_factor (float_min MAX_EASE_FACTOR (fadd (ease_factor d) f_0_1)) d
  | GOOD => set_ease_factor (float_max MIN_EASE_FACTOR (fsub (ease_factor d) f_0_02)) d
  | AGAIN => d
  end.

(** The interval a graduated review with outcome [r] computes (the
    right-hand sides of the assignments to [data.interval]). *)
Definition graduated_interval (r : ReviewResult) (d : ReviewData) : result Z :=
  if repetition d =? 0 then Ok 1
  else if repetition d =? 1 then Ok 6
  else
    match r with
    | HARD =>
        x ← int_mul_float (interval d) HARD_INTERVAL_FACTOR;
        n ← int_of_float x;
        mret (Z.max 1 n)
    | EASY =>
        x ← int_mul_float (interval d) (ease_factor d);
        int_of_float (fmul x EASY_INTERVAL_FACTOR)
    | _ =>
        x ← int_mul_float (interval d) (ease_factor d);
        int_of_float x
    end.

Definition _process_graduated_review (r : ReviewResult) (d : ReviewData)
    : ReviewData * result unit :=
  match r with
  | AGAIN =>
      (set_ease_factor (float_max MIN_EASE_FACTOR (fsub (ease_factor d) f_0_2))
         (set_interval 1 (set_repetition 0 (set_learning_step 0
            (set_graduated false d)))), Ok tt)
  | _ =>
      let d := _update_ease_factor r d in
      match graduated_interval r d with
      | Ok n => (set_repetition (repetition d + 1) (set_interval n d), Ok tt)
      | Raise e => (d, Raise e)
      end
  end.

Definition _calculate_next_review (now : datetime) (d : ReviewData)
    : ReviewData * result unit :=
  let next :=
    if negb (graduated d) then
      if learning_step d <? Z.of_nat (length LEARNING_STEPS) then
        minutes ← py_index LEARNING_STEPS (learning_step d);
        delta ← timedelta_minutes minutes;
        datetime_add now delta
      else
        delta ← timedelta_days 1;
        datetime_add now delta
    else
      delta ← timedelta_days (interval d);
      datetime_add now delta in
  match next with
  | Ok t => (set_next_review (Some t) d, Ok tt)
  | Raise e => (d, Raise e)
  end.

(** The three clock readings of one [review_card] call: in [add_review],
    for [last_review], and in [_calculate_next_review]. *)
Record clock : Type := mk_clock { t_history : datetime; t_last : datetime; t_next : datetime }.

Definition review_record (c : clock) (r : ReviewResult) (response_time : float)
    (d : ReviewData) : ReviewData * result unit :=
  let d := add_review (t_history c) r response_time d in
  let d := set_last_review (Some (t_last c)) d in
  let '(d, res) :=
    if negb (graduated d) then (_process_learning_review r d, Ok tt)
    else _process_graduated_review r d in
  match res with
  | Ok _ => _calculate_next_review (t_next c) d
  | Raise e => (d, Raise e)
  end.

Definition review_card (c : clock) (card_id : string) (r : ReviewResult)
    (response_time : float) (E : engine) : engine * result unit :=
  let '(E, d) := get_review_data card_id E in
  let '(d, res) := review_record c r response_time d in
  (<[card_id := d]> E, res).

(** [get_due_cards]: the loop over [card_ids], [due] being [due_cards]. *)
Fixpoint get_due_loop (now : datetime) (card_ids : list string) (due : list string)
    (E : engine) : engine * result (list string) :=
  match card_ids with
  | [] => (E, Ok due)
  | card_id :: rest =>
      let '(E, d) := get_review_data card_id E in
      match next_review d with
      | None => get_due_loop now rest (due ++ [card_id]) E
      | Some t =>
          match datetime_le t now with
          | Ok true => get_due_loop now rest (due ++ [card_id]) E
          | Ok false => get_due_loop now rest due E
          | Raise e => (E, Raise e)
          end
      end
  end.

Definition get_due_cards (now : datetime) (card_ids : list string) (E : engine)
    : engine * result (list string) :=
  get_due_loop now card_ids [] E.

(** The dictionary [get_study_stats] returns. *)
Record stats : Type := mk_stats {
  st_total_cards : Z;
  st_new_cards : Z;
  st_learning_cards : Z;
  st_due_cards : Z;
  st_total_reviews : Z;
  st_average_ease : float;
  st_average_interval : float;
  st_success_rate : float;
  st_total_study_time : float
}.

(** The local variables of the loop of [get_study_stats]. *)
Record counters : Type := mk_counters {
  new_cards : Z; learning_cards : Z; due_cards : Z;
  sum_reviews : Z; total_ease : float; total_interval : float;
  graduated_count : Z; total_study_time : float; successful_reviews : Z
}.

Definition counters0 : counters :=
  mk_counters 0 0 0 0 f_0_0 f_0_0 0 f_0_0 0.

(** One iteration of the loop on the record [d]. *)
Definition stats_step (now : datetime) (d : ReviewData) (a : counters) : result counters :=
  kind ← match next_review d with
         | None => Ok (1, 0, 0)
         | Some t =>
             if negb (graduated d) then Ok (0, 1, 0)
             else b ← datetime_le t now; mret (0, 0, if b : bool then 1 else 0)
         end;
  let '(dn, dl, dd) := kind in
  grad ← (if graduated d then
            ti ← float_add_int (total_interval a) (interval d);
            mret (fadd (total_ease a) (ease_factor d), ti, graduated_count a + 1)
          else mret (total_ease a, total_interval a, graduated_count a));
  let '(te, ti, gc) := grad in
  mret {| new_cards := new_cards a + dn;
          learning_cards := learning_cards a + dl;
          due_cards := due_cards a + dd;
          sum_reviews := sum_reviews a + total_reviews d;
          total_ease := te; total_interval := ti; graduated_count := gc;
          total_study_time := fadd (total_study_time a) (total_time_spent d);
          successful_reviews := successful_reviews a + count_successful (review_history d) |}.

Fixpoint get_stats_loop (now : datetime) (card_ids : list string) (a : counters)
    (E : engine) : engine * result counters :=
  match card_ids with
  | [] => (E, Ok a)
  | card_id :: rest =>
      let '(E, d) := get_review_data card_id E in
      match stats_step now d a with
      | Ok a => get_stats_loop now rest a E
      | Raise e => (E, Raise e)
      end
  end.

(** The dictionary built from the counters after the loop. *)
Definition stats_of_counters (n : Z) (a : counters) : result stats :=
  ae ← (if 0 <? graduated_count a then float_div_int (total_ease a) (graduated_count a)
        else Ok f_2_5);
  ai ← (if 0 <? graduated_count a then float_div_int (total_interval a) (graduated_count a)
        else Ok f_0_0);
  sr ← (if 0 <? sum_reviews a then int_truediv (successful_reviews a) (sum_reviews a)
        else Ok f_0_0);
  mret {| st_total_cards := n;
          st_new_cards := new_cards a;
          st_learning_cards := learning_cards a;
          st_due_cards := due_cards a;
          st_total_reviews := sum_reviews a;
          st_average_ease := ae;
          st_average_interval := ai;
          st_success_rate := sr;
          st_total_study_time := total_study_time a |}.

Definition get_study_stats (now : datetime) (card_ids : list string) (E : engine)
    : engine * result stats :=
  match card_ids with
  | [] => (E, Ok (mk_stats 0 0 0 0 0 f_0_0 f_0_0 f_0_0 f_0_0))
  | _ =>
      let '(E, r) := get_stats_loop now card_ids counters0 E in
      (E, a ← r; stats_of_counters (Z.of_nat (length card_ids)) a)
  end.

(** One value of the exported dictionary, each key with a value of its
    type. A key that is missing is [None] here; for [last_review] and
    [next_review], which [export_data] writes as [None] when they are
    not set and [import_data] tests before it parses them, [None] is
    also the key whose value is [None]. A [None] under another key
    (which [card_data.get] would hand on as it is) is not a value of
    this type. *)
Record card_data : Type := mk_card_data {
  cd_ease_factor : option float;
  cd_interval : option Z;
  cd_repetition : option Z;
  cd_last_review : option string;
  cd_next_review : option string;
  cd_total_reviews : option Z;
  cd_total_time_spent : option float;
  cd_learning_step : option Z;
  cd_graduated : option bool;
  cd_response_times : option (list float);
  cd_review_history : option (list (string * Z * float))
}.

Abbreviation snapshot := (list (string * card_data)).

Definition export_record (d : ReviewData) : card_data :=
  {| cd_ease_factor := Some (ease_factor d);
     cd_interval := Some (interval d);
     cd_repetition := Some (repetition d);
     cd_last_review := isoformat <$> last_review d;
     cd_next_review := isoformat <$> next_review d;
     cd_total_reviews := Some (total_reviews d);
     cd_total_time_spent := Some (total_time_spent d);
     cd_learning_step := Some (learning_step d);
     cd_graduated := Some (graduated d);
     cd_response_times := Some (response_times d);
     cd_review_history :=
       Some ((fun x => (isoformat (fst (fst x)), ReviewResult_value (snd (fst x)), snd x))
               <$> review_history d) |}.

Definition export_data (E : engine) : snapshot :=
  (fun kv => (fst kv, export_record (snd kv))) <$> map_to_list E.

(** [if card_data.get(key): ... datetime.fromisoformat(card_data[key])]:
    a missing, null or empty string leaves the attribute [None]. *)
Definition import_timestamp (o : option string) : result (option datetime) :=
  match o with
  | None => Ok None
  | Some s => if bool_decide (s = EmptyString) then Ok None
              else t ← fromisoformat s; mret (Some t)
  end.

Fixpoint import_history (h : list (string * Z * float))
    : result (list (datetime * ReviewResult * float)) :=
  match h with
  | [] => Ok []
  | (timestamp_str, result_val, time) :: rest =>
      timestamp ← fromisoformat timestamp_str;
      r ← ReviewResult_of_value result_val;
      tl ← import_history rest;
      mret ((timestamp, r, time) :: tl)
  end.

(** The record one iteration of [import_data] builds. *)
Definition import_record (c : card_data) : result ReviewData :=
  lr ← import_timestamp (cd_last_review c);
  nr ← import_timestamp (cd_next_review c);
  h ← import_history (default [] (cd_review_history c));
  mret {| ease_factor := default f_2_5 (cd_ease_factor c);
          interval := default 1 (cd_interval c);
          repetition := default 0 (cd_repetition c);
          last_review := lr; next_review := nr;
          total_reviews := default 0 (cd_total_reviews c);
          total_time_spent := default f_0_0 (cd_total_time_spent c);
          learning_step := default 0 (cd_learning_step c);
          graduated := default false (cd_graduated c);
          response_times := default [] (cd_response_times c);
          review_history := h |}.

Fixpoint import_data (data : snapshot) (E : engine) : engine * result unit :=
  match data with
  | [] => (E, Ok tt)
  | (card_id, c) :: rest =>
      match import_record c with
      | Ok d => import_data rest (<[card_id := d]> E)
      | Raise e => (E, Raise e)
      end
  end.

(* ================================================================== *)
(** * Predicates used by the properties *)

(** The bits a right shift has dropped are all zero. *)
Definition rec_exact (r : shr_record) : Prop := shr_r r = false /\ shr_s r = false.

(** A mantissa and exponent of a normal binary64 number. *)
Definition normal (m : positive) (e : Z) : Prop :=
  2 ^ 52 <= Zpos m < 2 ^ 53 /\ -1074 <= e <= 971.

(** The order of positive normal numbers: by exponent, then mantissa. *)
Definition lex_le (e1 : Z) (m1 : positive) (e2 : Z) (m2 : positive) : Prop :=
  e1 < e2 \/ (e1 = e2 /\ Zpos m1 <= Zpos m2).

(** A float that is at least 1.0: positive infinity or a normal number
    whose exponent is at least -52. *)
Definition ge_one (x : float) : Prop :=
  x = S754_infinity false \/
  exists m e, x = S754_finite false m e /\ normal m e /\ -52 <= e.

(** An ease factor in its range: a binary64 value [x] with
    [1.3 <= x <= 5.0]. *)
Definition ease_ok (x : float) : bool :=
  float_valid x && SFleb MIN_EASE_FACTOR x && SFleb x MAX_EASE_FACTOR.

(* ================================================================== *)
(** * Sequences of operations *)

(** The arguments of one call of [review_card], with its clock readings. *)
Record review_call : Type := mk_review_call {
  rc_clock : clock;
  rc_card_id : string;
  rc_result : ReviewResult;
  rc_response_time : float
}.

Definition do_review (E : engine) (c : review_call) : engine :=
  fst (review_card (rc_clock c) (rc_card_id c) (rc_result c) (rc_response_time c) E).

(** The engine after a sequence of [review_card] calls; a call that
    raises leaves what it has mutated and the caller goes on. *)
Definition run_reviews (calls : list review_call) (E : engine) : engine :=
  fold_left do_review calls E.

(** A call of a public operation. *)
Inductive op : Type :=
  | Review (c : review_call)
  | GetDue (now : datetime) (card_ids : list string)
  | GetStats (now : datetime) (card_ids : list string)
  | Export
  | Import (data : snapshot).

Definition do_op (E : engine) (o : op) : engine :=
  match o with
  | Review c => do_review E c
  | GetDue now ids => fst (get_due_cards now ids E)
  | GetStats now ids => fst (get_study_stats now ids E)
  | Export => E
  | Import data => fst (import_data data E)
  end.

Definition run_ops (ops : list op) (E : engine) : engine := fold_left do_op ops E.

Definition is_import (o : op) : bool :=
  match o with Import _ => true | _ => false end.

(** No [import_data] among the operations. *)
Definition import_free (ops : list op) : bool := forallb (fun o => negb (is_import o)) ops.

(** The card ids passed to [review_card] by the operations. *)
Fixpoint reviewed_ids (ops : list op) : list string :=
  match ops with
  | [] => []
  | Review c :: rest => rc_card_id c :: reviewed_ids rest
  | _ :: rest => reviewed_ids rest
  end.

(** Every clock reading of the operations is a [datetime.now(timezone.utc)]. *)
Definition clock_ok (c : clock) : bool :=
  utc_now (t_history c) && utc_now (t_last c) && utc_now (t_next c).

Definition op_clock_ok (o : op) : bool :=
  match o with
  | Review c => clock_ok (rc_clock c)
  | GetDue now _ | GetStats now _ => utc_now now
  | _ => true
  end.

(* ================================================================== *)
(** * Sample data *)

(** 2024-01-01T12:00:00+00:00 *)
Definition sample_now : datetime :=
  {| year := 2024; month := 1; day := 1; hour := 12; minute := 0; second := 0;
     microsecond := 0; tzinfo := Some 0 |}.

Definition sample_clock : clock := mk_clock sample_now sample_now sample_now.

Definition f_5_0 : float := Eval vm_compute in float_of_Z 5.   (* 5.0 *)

(** [review_card("c1", r, 5.0)] *)
Definition sample_call (r : ReviewResult) : review_call :=
  mk_review_call sample_clock "c1" r f_5_0.

(** A snapshot entry with the keys [graduated], [interval],
    [next_review], [response_times] and [review_history] (each one
    optional) and no other key. *)
Definition sample_entry (g : option bool) (i : option Z) (nr : option string)
    (rts : option (list float)) (h : option (list (string * Z * float))) : card_data :=
  {| cd_ease_factor := None; cd_interval := i; cd_repetition := None;
     cd_last_review := None; cd_next_review := nr;
     cd_total_reviews := None; cd_total_time_spent := None;
     cd_learning_step := None; cd_graduated := g;
     cd_response_times := rts; cd_review_history := h |}.

(** The record of card ["c1"] after [review_card("c1", r, 5.0)] for each
    [r] of [rs], on a fresh engine. *)
Definition card_after (rs : list ReviewResult) : ReviewData :=
  default ReviewData0 (run_reviews (sample_call <$> rs) new_engine !! "c1"%string).

(* ================================================================== *)
(** * The interval formulas *)

(** The specification's formulas for a graduated card with two or more
    repetitions, with [round] the rounding to the nearest integer; [d] is
    the record after the ease factor has been adjusted. *)
Definition spec_rounded_interval (r : ReviewResult) (d : ReviewData) : result Z :=
  match r with
  | HARD =>
      x ← int_mul_float (interval d) HARD_INTERVAL_FACTOR;
      n ← round_nearest x;
      mret (Z.max 1 n)
  | EASY =>
      x ← int_mul_float (interval d) (ease_factor d);
      round_nearest (fmul x EASY_INTERVAL_FACTOR)
  | _ =>
      x ← int_mul_float (interval d) (ease_factor d);
      round_nearest x
  end.

(** The same formulas with the truncation [int] in place of [round], on
    the interval [i] before the review and the adjusted ease factor [e]. *)
Definition truncated_interval (r : ReviewResult) (i : Z) (e : float) : result Z :=
  match r with
  | HARD =>
      x ← int_mul_float i HARD_INTERVAL_FACTOR;
      n ← int_of_float x;
      mret (Z.max 1 n)
  | EASY =>
      x ← int_mul_float i e;
      int_of_float (fmul x EASY_INTERVAL_FACTOR)
  | _ =>
      x ← int_mul_float i e;
      int_of_float x
  end.

(* ================================================================== *)
(** * Invariants of the records *)

(** [get_review_data] called on each id of [ids] in turn: the engine with
    a new record for every id it did not have. *)
Definition with_defaults (ids : list string) (E : engine) : engine :=
  fold_left (fun E id => fst (get_review_data id E)) ids E.

(** The ease factor is in its range, and a graduated record has an
    interval of one day or more. *)
Definition record_ok (d : ReviewData) : bool :=
  ease_ok (ease_factor d) && (negb (graduated d) || (1 <=? interval d)).

(** The same of an entry of a snapshot, on the values [import_data] reads. *)
Definition entry_in_range (c : card_data) : bool :=
  ease_ok (default f_2_5 (cd_ease_factor c)) &&
  (negb (default false (cd_graduated c)) || (1 <=? default 1 (cd_interval c))).

Definition snapshot_in_range (data : snapshot) : bool :=
  forallb (fun kv => entry_in_range (snd kv)) data.

(** Every snapshot the operations import is in range. *)
Definition imports_in_range (ops : list op) : bool :=
  forallb (fun o => match o with Import data => snapshot_in_range data | _ => true end) ops.

(* ================================================================== *)
(** * Due cards *)

(** The instant of an aware [datetime], in microseconds of UTC. *)
Definition instant (t : datetime) : Z :=
  to_micros t - default 0 (tzinfo t) * US_PER_SECOND.

(** The card has no record, or has never been scheduled, or its next
    review is not after [now]. *)
Definition is_due (now : datetime) (E : engine) (card_id : string) : bool :=
  match E !! card_id with
  | None => true
  | Some d =>
      match next_review d with
      | None => true
      | Some t => instant t <=? instant now
      end
  end.

(** Every [next_review] of the engine is timezone-aware. *)
Definition schedule_aware (E : engine) : Prop :=
  forall id d t, E !! id = Some d -> next_review d = Some t -> tzinfo t <> None.

(* ================================================================== *)
(** * Malformed snapshot entries *)





(** The date [YYYY-MM-DD] a string begins with, when it begins with one. *)
Definition parse_date (s : string) : option (Z * Z * Z) :=
  '(y, s) ← parse_digits 4 0 s;
  s ← expect "-" s;
  '(m, s) ← parse_digits 2 0 s;
  s ← expect "-" s;
  '(d, _) ← parse_digits 2 0 s;
  Some (y, m, d).

(** A string that is no timestamp for any version of
    [datetime.fromisoformat] (CPython 3.7 and later), which raises
    [ValueError] on it: it does not begin with the four decimal digits
    of a year, or it begins with [YYYY-MM-DD] and that is not a date of
    the calendar (year 0, month 13, 30 February). *)
Definition invalid_timestamp (s : string) : bool :=
  match parse_digits 4 0 s with
  | None => true
  | Some _ =>
      match parse_date s with
      | Some (y, m, d) =>
          negb (between 1 y 9999 && between 1 m 12 && between 1 d (days_in_month y m))
      | None => false
      end
  end.




(* ================================================================== *)
(** * Well-formed timestamps *)

(** Every timestamp of the record is a valid [datetime]. *)
Definition record_valid (d : ReviewData) : bool :=
  from_option datetime_valid true (last_review d) &&
  from_option datetime_valid true (next_review d) &&
  forallb (fun x => datetime_valid (fst (fst x))) (review_history d).

Definition engine_valid (E : engine) : Prop :=
  forall id d, E !! id = Some d -> record_valid d = true.

(** [month_day] gives a month and a day of that month. *)
Definition month_day_ok (leapyear : bool) (n : Z) : bool :=
  let '(m, d) := month_day n leapyear in
  between 1 m 12 &&
  between 1 d (if m =? 2 then (if leapyear then 29 else 28) else days_in_month 1 m).

(* ================================================================== *)
(** * The calendar arithmetic of the schedule *)

(** [month_day] is the inverse of the count of the days before a month. *)
Definition month_day_inv (leapyear : bool) (n : Z) : bool :=
  let '(m, d) := month_day n leapyear in
  days_before_month_common m + (if (2 <? m) && leapyear then 1 else 0) + d =? n + 1.

(** The time, in microseconds, [_calculate_next_review] adds to the clock
    for a record whose learning step is an index of [LEARNING_STEPS]:
    the learning step in minutes, or the interval in days. *)
Definition scheduled_delay (d : ReviewData) : Z :=
  if graduated d then interval d * US_PER_DAY
  else default 0 (LEARNING_STEPS !! Z.to_nat (learning_step d)) * 60 * US_PER_SECOND.

(* ================================================================== *)
(** * The counts of [get_study_stats] *)

(** The record [get_review_data] returns for an id. *)
Definition record_of (E : engine) (card_id : string) : ReviewData :=
  default ReviewData0 (E !! card_id).

(** The three classes of cards the statistics count: never scheduled;
    scheduled and not graduated; graduated and due. *)
Definition is_new (d : ReviewData) : bool :=
  match next_review d with None => true | Some _ => false end.

Definition is_learning (d : ReviewData) : bool :=
  match next_review d with None => false | Some _ => negb (graduated d) end.

Definition is_review_due (now : datetime) (d : ReviewData) : bool :=
  match next_review d with
  | None => false
  | Some t => graduated d && match datetime_le t now with Ok true => true | _ => false end
  end.

(** The number of entries of [card_ids] whose record satisfies [P], and
    the sum of [f] over the records of its entries. *)
Definition count_cards (P : ReviewData -> bool) (E : engine) (card_ids : list string) : Z :=
  Z.of_nat (length (filter (fun id => P (record_of E id) = true) card_ids)).

Definition sum_cards (f : ReviewData -> Z) (E : engine) (card_ids : list string) : Z :=
  foldr (fun id acc => f (record_of E id) + acc) 0 card_ids.

(* ================================================================== *)
(** * [ReviewData.success_rate] *)

(** The property [success_rate] of a record: 0.0 for an empty history,
    else the number of GOOD and EASY entries divided by the length of
    the history. *)
Definition success_rate (d : ReviewData) : result float :=
  match review_history d with
  | [] => Ok f_0_0
  | _ => int_truediv (count_successful (review_history d))
                     (Z.of_nat (length (review_history d)))
  end.

Definition f_1_0 : float := Eval vm_compute in float_of_Z 1.   (* 1.0 *)

(* ================================================================== *)
(** * The recent activity of the statistics window

    [StudyStatsDashboard._get_recent_reviews] and [_format_time_ago] of
    [gui/components/study_stats.py], the callers of [get_review_data]
    that read the review histories. *)

(** [a - b] of two [datetime] values, a [timedelta] in microseconds:
    aware values are subtracted as instants, naive ones on the wall
    clock, and a naive with an aware value raises [TypeError]. *)
Definition datetime_sub (a b : datetime) : result Z :=
  match tzinfo a, tzinfo b with
  | Some oa, Some ob =>
      Ok ((to_micros a - oa * US_PER_SECOND) - (to_micros b - ob * US_PER_SECOND))
  | None, None => Ok (to_micros a - to_micros b)
  | _, _ => Raise TypeError
  end.

(** The attributes [days] and [seconds] of a [timedelta], which is kept
    normalized: [0 <= seconds < 86400], the days rounded down. *)
Definition td_days (us : Z) : Z := us / US_PER_DAY.
Definition td_seconds (us : Z) : Z := (us mod US_PER_DAY) / US_PER_SECOND.

(** An entry [(card_id, timestamp, result, response_time)]. *)
Definition recent_entry : Type := string * datetime * ReviewResult * float.

Definition entry_time (x : recent_entry) : datetime := snd (fst (fst x)).

(** The inner loop of [_get_recent_reviews] over one history. *)
Fixpoint recent_of_history (cutoff_date : datetime) (card_id : string)
    (h : list (datetime * ReviewResult * float)) (recent_reviews : list recent_entry)
    : result (list recent_entry) :=
  match h with
  | [] => Ok recent_reviews
  | (timestamp, r, response_time) :: rest =>
      b ← datetime_le cutoff_date timestamp;
      recent_of_history cutoff_date card_id rest
        (if b : bool then recent_reviews ++ [(card_id, timestamp, r, response_time)]
         else recent_reviews)
  end.

(** The loop over [card_ids]. *)
Fixpoint recent_loop (cutoff_date : datetime) (card_ids : list string)
    (recent_reviews : list recent_entry) (E : engine)
    : engine * result (list recent_entry) :=
  match card_ids with
  | [] => (E, Ok recent_reviews)
  | card_id :: rest =>
      let '(E, d) := get_review_data card_id E in
      match recent_of_history cutoff_date card_id (review_history d) recent_reviews with
      | Ok l => recent_loop cutoff_date rest l E
      | Raise e => (E, Raise e)
      end
  end.

(** [recent_reviews.sort(key=lambda x: x[1], reverse=True)]: the stable
    sort by decreasing timestamp, entries with equal timestamps keeping
    their order. The timestamps that reach the sort have all been
    compared with [cutoff_date], so they are all aware or all naive and
    their comparison is the one of [instant]. *)
Fixpoint insert_newest (x : recent_entry) (l : list recent_entry) : list recent_entry :=
  match l with
  | [] => [x]
  | y :: l' =>
      if instant (entry_time y) <=? instant (entry_time x) then x :: y :: l'
      else y :: insert_newest x l'
  end.

Definition sort_newest_first (l : list recent_entry) : list recent_entry :=
  foldr insert_newest [] l.

(** [_get_recent_reviews(card_ids, days)]; [now] is its clock reading. *)
Definition _get_recent_reviews (now : datetime) (card_ids : list string) (days : Z)
    (E : engine) : engine * result (list recent_entry) :=
  match (delta ← timedelta_days days; datetime_add now (- delta)) with
  | Raise e => (E, Raise e)
  | Ok cutoff_date =>
      let '(E, r) := recent_loop cutoff_date card_ids [] E in
      (E, l ← r; mret (sort_newest_first l))
  end.

(** The text [_format_time_ago] returns. *)
Inductive time_ago : Type :=
  | DaysAgo (n : Z)       (* f"{n}d ago" *)
  | HoursAgo (n : Z)      (* f"{n}h ago" *)
  | MinutesAgo (n : Z)    (* f"{n}m ago" *)
  | JustNow.              (* "Just now" *)

(** [_format_time_ago(timestamp)]; [now] is its clock reading. *)
Definition _format_time_ago (now timestamp : datetime) : result time_ago :=
  delta ← datetime_sub now timestamp;
  if 0 <? td_days delta then Ok (DaysAgo (td_days delta))
  else if 3600 <? td_seconds delta then Ok (HoursAgo (td_seconds delta / 3600))
  else if 60 <? td_seconds delta then Ok (MinutesAgo (td_seconds delta / 60))
  else Ok JustNow.

(** The entries of the histories of the listed cards, in the order of
    the loops, and the test an entry passes. *)
Definition recent_candidates (E : engine) (card_ids : list string) : list recent_entry :=
  card_id ← card_ids;
  (fun x => (card_id, fst (fst x), snd (fst x), snd x)) <$> review_history (record_of E card_id).

Definition is_recent (now : datetime) (days : Z) (x : recent_entry) : bool :=
  instant now - days * US_PER_DAY <=? instant (entry_time x).

(** No entry of the list is older than an entry after it. *)
Fixpoint newest_first (l : list recent_entry) : Prop :=
  match l with
  | [] => True
  | x :: l' =>
      Forall (fun y => instant (entry_time y) <= instant (entry_time x)) l' /\
      newest_first l'
  end.

(** Every timestamp of the histories is timezone-aware. *)
Definition history_aware (d : ReviewData) : Prop :=
  forall x, x ∈ review_history d -> tzinfo (fst (fst x)) <> None.

(* ================================================================== *)
(** * Properties *)

(** ** Rounding of binary64 arithmetic *)

Lemma digits2_bounds p :
  2 ^ (Zpos (digits2_pos p) - 1) <= Zpos p < 2 ^ Zpos (digits2_pos p).
Proof.
  induction p as [p IH|p IH|]; simpl digits2_pos.
  - rewrite Pos2Z.inj_succ.
    replace (Z.succ (Z.pos (digits2_pos p)) - 1) with (Z.succ (Z.pos (digits2_pos p) - 1)) by lia.
    rewrite !Z.pow_succ_r by lia. lia.
  - rewrite Pos2Z.inj_succ.
    replace (Z.succ (Z.pos (digits2_pos p)) - 1) with (Z.succ (Z.pos (digits2_pos p) - 1)) by lia.
    rewrite !Z.pow_succ_r by lia. lia.
  - simpl. lia.
Qed.

Lemma iter_pos_nat {A} (f : A -> A) p x :
  SpecFloat.iter_pos f p x = Nat.iter (Pos.to_nat p) f x.
Proof.
  revert x; induction p as [p IH|p IH|]; intros x; simpl SpecFloat.iter_pos.
  - rewrite !IH. rewrite Pos2Nat.inj_xI.
    replace (S (2 * Pos.to_nat p))%nat with (Pos.to_nat p + (Pos.to_nat p + 1))%nat by lia.
    rewrite !Nat.iter_add. simpl. reflexivity.
  - rewrite !IH. rewrite Pos2Nat.inj_xO.
    replace (2 * Pos.to_nat p)%nat with (Pos.to_nat p + Pos.to_nat p)%nat by lia.
    rewrite Nat.iter_add. reflexivity.
  - reflexivity.
Qed.

Lemma shr_1_spec r :
  0 <= shr_m r ->
  shr_m (shr_1 r) = shr_m r / 2 /\
  (rec_exact r -> shr_m r mod 2 = 0 -> rec_exact (shr_1 r)).
Proof.
  destruct r as [m r s]; simpl shr_m. intros Hm.
  destruct m as [|[p|p|]|p]; try lia; unfold rec_exact; simpl.
  - split; [reflexivity|]. intros [-> ->] _. auto.
  - split. { rewrite Pos2Z.inj_xI. apply Z.div_unique with 1; lia. }
    intros _ H. rewrite Pos2Z.inj_xI in H.
    rewrite Z.add_comm, Z.mul_comm, Z.mod_add in H by lia. discriminate.
  - split. { rewrite Pos2Z.inj_xO. apply Z.div_unique with 0; lia. }
    intros [-> ->] _. auto.
  - split; [reflexivity|]. intros _ H; discriminate.
Qed.

Lemma shr_iter_spec n m :
  0 <= m ->
  let r := Nat.iter n shr_1 (Build_shr_record m false false) in
  shr_m r = m / 2 ^ Z.of_nat n /\
  (m mod 2 ^ Z.of_nat n = 0 -> rec_exact r).
Proof.
  intros Hm. induction n as [|n IH].
  - simpl. rewrite Z.div_1_r. split; [reflexivity|]. intros _. split; reflexivity.
  - cbn zeta in *. rewrite Nat.iter_succ.
    set (r := Nat.iter n shr_1 _) in *.
    destruct IH as [IHm IHx].
    assert (H0 : 0 <= shr_m r) by (rewrite IHm; apply Z.div_pos; lia).
    destruct (shr_1_spec r H0) as [E1 E2].
    rewrite Nat2Z.inj_succ, Z.pow_succ_r by lia.
    split.
    + rewrite E1, IHm, Z.div_div by lia. f_equal. lia.
    + intros Hmod.
      assert (Hp : 0 < 2 ^ Z.of_nat n) by (apply Z.pow_pos_nonneg; lia).
      rewrite Z.mul_comm in Hmod.
      rewrite Z.rem_mul_r in Hmod by lia.
      assert (m mod 2 ^ Z.of_nat n = 0 /\ (m / 2 ^ Z.of_nat n) mod 2 = 0) as [Ha Hb].
      { pose proof (Z.mod_pos_bound m (2 ^ Z.of_nat n) Hp).
        pose proof (Z.mod_pos_bound (m / 2 ^ Z.of_nat n) 2 ltac:(lia)). nia. }
      apply E2; [auto | rewrite IHm; exact Hb].
Qed.

Lemma shr_exact_spec m e n :
  0 <= m -> 0 <= n ->
  exists r, shr (shr_record_of_loc m loc_Exact) e n = (r, e + n) /\
            shr_m r = m / 2 ^ n /\
            (m mod 2 ^ n = 0 -> loc_of_shr_record r = loc_Exact).
Proof.
  intros Hm Hn. destruct n as [|p|p]; try lia.
  - exists (Build_shr_record m false false). simpl.
    rewrite Z.add_0_r, Z.div_1_r. auto.
  - simpl shr. simpl shr_record_of_loc. rewrite iter_pos_nat.
    eexists; split; [reflexivity|].
    pose proof (shr_iter_spec (Pos.to_nat p) m Hm) as H. cbn zeta in H.
    rewrite positive_nat_Z in H. destruct H as [H1 H2]. split; [exact H1|].
    intros Hx. destruct (H2 Hx) as [Hr Hs].
    destruct (Nat.iter _ _ _) as [m' r' s']; simpl in *; subst; reflexivity.
Qed.

Lemma round_nearest_even_cases m l :
  round_nearest_even m l = m \/
  (round_nearest_even m l = m + 1 /\ l <> loc_Exact).
Proof.
  destruct l as [|[| |]]; simpl.
  - left; reflexivity.
  - destruct (Z.even m); [left; reflexivity|right; split; [reflexivity|discriminate]].
  - left; reflexivity.
  - right; split; [reflexivity|discriminate].
Qed.

Lemma fexp_normal x : -1074 <= x - 53 -> fexp prec emax x = x - 53.
Proof. unfold fexp, SpecFloat.emin, prec, emax. lia. Qed.

Lemma digits2_unique p k :
  2 ^ (k - 1) <= Zpos p < 2 ^ k -> Zpos (digits2_pos p) = k.
Proof.
  intros [Hl Hu]. pose proof (digits2_bounds p) as [Dl Du].
  set (d := Zpos (digits2_pos p)) in *.
  assert (0 < d) by (unfold d; lia).
  assert (0 < k).
  { destruct (Z.ltb_spec 0 k); [assumption|].
    rewrite Z.pow_neg_r in Hl by lia.
    destruct (Z.eq_dec k 0) as [->|]; [simpl in Hu; lia|].
    rewrite Z.pow_neg_r in Hu by lia. lia. }
  destruct (Z.lt_trichotomy d k) as [Hlt|[Heq|Hgt]]; [|assumption|].
  - assert (2 ^ d <= 2 ^ (k - 1)) by (apply Z.pow_le_mono_r; lia). lia.
  - assert (2 ^ k <= 2 ^ (d - 1)) by (apply Z.pow_le_mono_r; lia). lia.
Qed.

(** Rounding an integer [m] of 53 digits or more, in the normal range:
    the result is the quotient [q] of [m] by the power of two that leaves
    53 digits, or [q + 1] when bits were dropped (renormalised when
    [q + 1] is [2 ^ 53]), or an infinity when the exponent is too large. *)
Lemma bra_normal (m : positive) (e : Z) :
  let d := Zpos (digits2_pos m) in
  let s := d - 53 in
  let q := Zpos m / 2 ^ s in
  53 <= d -> -1074 <= e + s ->
  exists m3 e3,
    binary_round_aux prec emax false (Zpos m) e loc_Exact =
      (if e3 <=? 971 then S754_finite false m3 e3 else S754_infinity false) /\
    2 ^ 52 <= Zpos m3 < 2 ^ 53 /\
    ((e3 = e + s /\ Zpos m3 = q) \/
     (e3 = e + s /\ Zpos m3 = q + 1 /\ Zpos m mod 2 ^ s <> 0) \/
     (e3 = e + s + 1 /\ Zpos m3 = 2 ^ 52 /\ q + 1 = 2 ^ 53 /\ Zpos m mod 2 ^ s <> 0)).
Proof.
  intros d s q Hd He.
  pose proof (digits2_bounds m) as [Dl Du]. fold d in Dl, Du.
  assert (Hs : 0 <= s) by (unfold s; lia).
  assert (Hps : 0 < 2 ^ s) by (apply Z.pow_pos_nonneg; lia).
  assert (Hq : 2 ^ 52 <= q < 2 ^ 53).
  { unfold q. replace (d - 1) with (52 + s) in Dl by (unfold s; lia).
    replace d with (53 + s) in Du by (unfold s; lia).
    rewrite Z.pow_add_r in Dl, Du by lia. split.
    - apply Z.div_le_lower_bound; lia.
    - apply Z.div_lt_upper_bound; lia. }
  unfold binary_round_aux, shr_fexp. simpl Zdigits2. fold d.
  rewrite fexp_normal by (unfold s in He; lia).
  replace (d + e - 53 - e) with s by (unfold s; lia).
  destruct (shr_exact_spec (Zpos m) e s) as (r & Hr & Hrm & Hrx); [lia|lia|].
  rewrite Hr. fold q in Hrm. rewrite Hrm.
  assert (Hfin : forall m2 : positive, 2 ^ 52 <= Zpos m2 < 2 ^ 53 ->
     (let '(mrs'', e'') := shr (shr_record_of_loc (Zpos m2) loc_Exact) (e + s)
            (fexp prec emax (Zdigits2 (Zpos m2) + (e + s)) - (e + s)) in
      match shr_m mrs'' with
      | 0 => S754_zero false
      | Z.pos m0 => if e'' <=? emax - prec then S754_finite false m0 e'' else S754_infinity false
      | Z.neg _ => S754_nan
      end) = if e + s <=? 971 then S754_finite false m2 (e + s) else S754_infinity false).
  { intros m2 H2. simpl Zdigits2.
    rewrite (digits2_unique m2 53) by (simpl; lia).
    rewrite fexp_normal by lia.
    replace (53 + (e + s) - 53 - (e + s)) with 0 by lia. simpl. reflexivity. }
  destruct (round_nearest_even_cases q (loc_of_shr_record r)) as [E|[E Hne]]; rewrite E.
  - destruct q as [|pq|pq] eqn:Eq; try lia.
    exists pq, (e + s). rewrite Hfin by lia. auto.
  - assert (Hmod : Zpos m mod 2 ^ s <> 0) by (intro Hx; apply Hne, Hrx, Hx).
    destruct (Z.eq_dec (q + 1) (2 ^ 53)) as [Etop|Ntop].
    + rewrite Etop. exists (4503599627370496%positive), (e + s + 1).
      split; [|split; [simpl; lia|right; right; repeat split; auto]].
      change (2 ^ 53) with (Zpos 9007199254740992).
      change (Zdigits2 (Zpos 9007199254740992)) with 54.
      rewrite fexp_normal by lia.
      replace (54 + (e + s) - 53 - (e + s)) with 1 by lia.
      reflexivity.
    + destruct (q + 1) as [|pq|pq] eqn:Eq; try lia.
      exists pq, (e + s). rewrite Hfin by lia.
      split; [reflexivity|]. split; [lia|]. right; left. auto.
Qed.

Lemma pow2_split a b : 0 <= b <= a -> 2 ^ a = 2 ^ (a - b) * 2 ^ b.
Proof. intros. rewrite <- Z.pow_add_r by lia. f_equal; lia. Qed.

(** Rounding is monotone against a representable number: a value at most
    [mb * 2 ^ eb] rounds to a float at most [mb * 2 ^ eb]. *)
Lemma round_le m e mb eb :
  53 <= Zpos (digits2_pos m) ->
  -1074 <= e + (Zpos (digits2_pos m) - 53) ->
  normal mb eb -> e <= eb -> Zpos m <= Zpos mb * 2 ^ (eb - e) ->
  exists m3 e3,
    binary_round_aux prec emax false (Zpos m) e loc_Exact = S754_finite false m3 e3 /\
    normal m3 e3 /\ lex_le e3 m3 eb mb.
Proof.
  intros Hd He [Hmb Heb] Hle Hv.
  destruct (bra_normal m e Hd He) as (m3 & e3 & Hr & Hm3 & Hc).
  pose proof (digits2_bounds m) as [Dl Du].
  set (d := Zpos (digits2_pos m)) in *. set (s := d - 53) in *.
  set (t := eb - e) in *.
  assert (Hs : 0 <= s) by (unfold s; lia).
  assert (Hps : 0 < 2 ^ s) by (apply Z.pow_pos_nonneg; lia).
  assert (Hst : s <= t).
  { destruct (Z.le_gt_cases s t) as [|Hlt]; [assumption|exfalso].
    assert (2 ^ t <= 2 ^ (s - 1)) by (apply Z.pow_le_mono_r; lia).
    replace (d - 1) with (53 + (s - 1)) in Dl by (unfold s; lia).
    rewrite Z.pow_add_r in Dl by lia.
    assert (0 < 2 ^ t) by (apply Z.pow_pos_nonneg; lia). nia. }
  rewrite (pow2_split t s) in Hv by lia.
  set (K := Zpos mb * 2 ^ (t - s)) in *.
  assert (HK : Zpos m <= K * 2 ^ s) by (unfold K; lia).
  set (q := Zpos m / 2 ^ s) in *.
  pose proof (Z.div_mod (Zpos m) (2 ^ s) ltac:(lia)) as Hdm. fold q in Hdm.
  pose proof (Z.mod_pos_bound (Zpos m) (2 ^ s) Hps) as Hmb'.
  assert (HqK : q <= K) by nia.
  assert (HqK' : Zpos m mod 2 ^ s <> 0 -> q + 1 <= K) by (intros; nia).
  assert (Hts : s = t -> K = Zpos mb).
  { intros <-. unfold K. rewrite Z.sub_diag. simpl. lia. }
  assert (Hts2 : s < t -> 2 * Zpos mb <= K).
  { intros. unfold K. replace (t - s) with (Z.succ (t - s - 1)) by lia.
    rewrite Z.pow_succ_r by lia.
    assert (0 < 2 ^ (t - s - 1)) by (apply Z.pow_pos_nonneg; lia). nia. }
  assert (Hlex : lex_le e3 m3 eb mb /\ e3 <= eb).
  { unfold lex_le. destruct Hc as [[E1 E2]|[[E1 [E2 E3]]|[E1 [E2 [E3 E4]]]]].
    - destruct (Z.eq_dec s t) as [Est|Nst].
      + rewrite (Hts Est) in HqK. unfold t in Est. split; [right|]; lia.
      + unfold t in *. split; [left|]; lia.
    - specialize (HqK' E3). destruct (Z.eq_dec s t) as [Est|Nst].
      + rewrite (Hts Est) in HqK'. unfold t in Est. split; [right|]; lia.
      + unfold t in *. split; [left|]; lia.
    - specialize (HqK' E4).
      destruct (Z.eq_dec s t) as [Est|Nst].
      + rewrite (Hts Est) in HqK'. lia.
      + assert (s < t) by lia. unfold t in *.
        destruct (Z.eq_dec (e3) eb); [split; [right|]; lia | split; [left|]; lia]. }
  destruct Hlex as [Hlex He3].
  exists m3, e3. split; [|split; [split|]]; auto.
  - rewrite Hr. destruct (Z.leb_spec e3 971); [reflexivity|lia].
  - destruct Hc as [[E1 E2]|[[E1 [E2 E3]]|[E1 [E2 [E3 E4]]]]]; unfold s in *; lia.
Qed.

(** ... and a value at least [mb * 2 ^ eb], or of a higher binade, rounds
    to a float at least [mb * 2 ^ eb], or to infinity. *)
Lemma round_ge m e mb eb :
  53 <= Zpos (digits2_pos m) ->
  -1074 <= e + (Zpos (digits2_pos m) - 53) ->
  normal mb eb ->
  (e <= eb /\ Zpos mb * 2 ^ (eb - e) <= Zpos m) \/
    eb < e + (Zpos (digits2_pos m) - 53) ->
  binary_round_aux prec emax false (Zpos m) e loc_Exact = S754_infinity false \/
  exists m3 e3,
    binary_round_aux prec emax false (Zpos m) e loc_Exact = S754_finite false m3 e3 /\
    normal m3 e3 /\ lex_le eb mb e3 m3.
Proof.
  intros Hd He [Hmb Heb] Hv.
  destruct (bra_normal m e Hd He) as (m3 & e3 & Hr & Hm3 & Hc).
  rewrite Hr. destruct (Z.leb_spec e3 971) as [Hfin|]; [right|left; reflexivity].
  exists m3, e3. split; [reflexivity|].
  set (d := Zpos (digits2_pos m)) in *. set (s := d - 53) in *.
  assert (Hs : 0 <= s) by (unfold s; lia).
  assert (He3 : e + s <= e3) by (destruct Hc as [[? ?]|[[? ?]|[? ?]]]; lia).
  split; [split; [assumption|lia]|].
  unfold lex_le.
  destruct (Z.lt_ge_cases eb (e + s)) as [Hlt|Hge]; [left; lia|].
  destruct Hv as [[Hle Hv]|Hv]; [|lia].
  set (t := eb - e) in *.
  assert (Hst : s <= t) by (unfold t; lia).
  assert (Hps : 0 < 2 ^ s) by (apply Z.pow_pos_nonneg; lia).
  rewrite (pow2_split t s) in Hv by lia.
  set (K := Zpos mb * 2 ^ (t - s)) in *.
  set (q := Zpos m / 2 ^ s) in *.
  pose proof (Z.div_mod (Zpos m) (2 ^ s) ltac:(lia)) as Hdm. fold q in Hdm.
  pose proof (Z.mod_pos_bound (Zpos m) (2 ^ s) Hps) as Hmb'.
  assert (HKq : K <= q) by nia.
  assert (Hts : s = t -> K = Zpos mb).
  { intros <-. unfold K. rewrite Z.sub_diag. simpl. lia. }
  assert (Hts2 : s < t -> 2 * Zpos mb <= K).
  { intros. unfold K. replace (t - s) with (Z.succ (t - s - 1)) by lia.
    rewrite Z.pow_succ_r by lia.
    assert (0 < 2 ^ (t - s - 1)) by (apply Z.pow_pos_nonneg; lia). nia. }
  destruct (Z.eq_dec s t) as [Est|Nst].
  - specialize (Hts Est). unfold t in Est.
    destruct Hc as [[E1 E2]|[[E1 [E2 E3]]|[E1 [E2 [E3 E4]]]]]; [right|right|left]; lia.
  - assert (Hlt : s < t) by lia. specialize (Hts2 Hlt).
    destruct Hc as [[E1 E2]|[[E1 [E2 E3]]|[E1 [E2 [E3 E4]]]]]; lia.
Qed.

Lemma SFleb_finite m1 e1 m2 e2 :
  SFleb (S754_finite false m1 e1) (S754_finite false m2 e2) = true <->
  lex_le e1 m1 e2 m2.
Proof.
  unfold SFleb, SFcompare, lex_le.
  destruct (Z.compare_spec e1 e2) as [E|L|G].
  - rewrite Pos.compare_cont_spec. simpl.
    destruct (Pos.compare_spec m1 m2); split; intros; try lia; try reflexivity; try discriminate.
  - split; auto.
  - split; [discriminate|lia].
Qed.

Lemma Pos_iter_xO m d : Zpos (Pos.iter xO m d) = Zpos m * 2 ^ Zpos d.
Proof.
  induction d as [|d IH] using Pos.peano_ind.
  - simpl. lia.
  - rewrite Pos.iter_succ, Pos2Z.inj_succ, Z.pow_succ_r by lia.
    rewrite Pos2Z.inj_xO, IH. lia.
Qed.

Lemma shl_align_le mx ex ez :
  ez <= ex ->
  exists m', shl_align mx ex ez = (m', ez) /\ Zpos m' = Zpos mx * 2 ^ (ex - ez).
Proof.
  intros H. unfold shl_align.
  destruct (ez - ex) as [|d|d] eqn:E; try lia.
  - exists mx. replace ex with ez by lia. rewrite Z.sub_diag. split; [reflexivity|simpl; lia].
  - exists (Pos.iter xO mx d). split; [reflexivity|].
    rewrite Pos_iter_xO. f_equal. f_equal. lia.
Qed.

Lemma shl_align_ge mx ex ez : ex <= ez -> shl_align mx ex ez = (mx, ex).
Proof.
  intros H. unfold shl_align. destruct (ez - ex) as [|d|d] eqn:E; try reflexivity; lia.
Qed.

Lemma digits2_ge p k : 2 ^ (k - 1) <= Zpos p -> k <= Zpos (digits2_pos p).
Proof.
  intros H. pose proof (digits2_bounds p) as [_ Du].
  destruct (Z.le_gt_cases k (Zpos (digits2_pos p))) as [|Hlt]; [assumption|exfalso].
  assert (2 ^ Zpos (digits2_pos p) <= 2 ^ (k - 1)) by (apply Z.pow_le_mono_r; lia).
  lia.
Qed.

(** binary_round on an integer that already has 53 digits or more *)
Lemma binary_round_wide p e :
  53 <= Zpos (digits2_pos p) -> -1074 <= e ->
  binary_round prec emax false p e = binary_round_aux prec emax false (Zpos p) e loc_Exact.
Proof.
  intros Hd He. unfold binary_round.
  rewrite shl_align_ge; [reflexivity|].
  rewrite fexp_normal by lia. lia.
Qed.

(** [x - c <= x] and [x + c >= x] for positive normal floats, [c] being the
    smaller one. *)
Lemma fsub_le mx ex mc ec :
  normal mx ex -> 2 ^ 52 <= Zpos mc < 2 ^ 53 -> -1074 <= ec -> ec + 2 <= ex ->
  exists m3 e3,
    fsub (S754_finite false mx ex) (S754_finite false mc ec) = S754_finite false m3 e3 /\
    normal m3 e3 /\ lex_le e3 m3 ex mx.
Proof.
  intros Hx Hc Hec Hex. pose proof Hx as [Hmx Hexr].
  unfold fsub, SFsub. rewrite Z.min_r by lia.
  destruct (shl_align_le mx ex ec ltac:(lia)) as (m' & -> & Hm').
  rewrite (shl_align_ge mc ec ec) by lia. simpl fst. unfold cond_Zopp.
  assert (Hk : 4 <= 2 ^ (ex - ec)).
  { change 4 with (2 ^ 2). apply Z.pow_le_mono_r; lia. }
  destruct (Zpos m' - Zpos mc) as [|p|p] eqn:Ep; try nia.
  simpl binary_normalize.
  assert (Hd : 54 <= Zpos (digits2_pos p)) by (apply digits2_ge; simpl; nia).
  rewrite binary_round_wide by lia.
  apply round_le; try lia; auto.
Qed.

Lemma fadd_ge mx ex mc ec :
  normal mx ex -> -1074 <= ec -> ec <= ex ->
  fadd (S754_finite false mx ex) (S754_finite false mc ec) = S754_infinity false \/
  exists m3 e3,
    fadd (S754_finite false mx ex) (S754_finite false mc ec) = S754_finite false m3 e3 /\
    normal m3 e3 /\ lex_le ex mx e3 m3.
Proof.
  intros Hx Hec Hex. pose proof Hx as [Hmx Hexr].
  unfold fadd, SFadd. rewrite Z.min_r by lia.
  destruct (shl_align_le mx ex ec ltac:(lia)) as (m' & -> & Hm').
  rewrite (shl_align_ge mc ec ec) by lia. simpl fst. unfold cond_Zopp.
  assert (Hk : 1 <= 2 ^ (ex - ec)).
  { change 1 with (2 ^ 0). apply Z.pow_le_mono_r; lia. }
  change (Zpos m' + Zpos mc) with (Zpos (m' + mc)).
  simpl binary_normalize.
  assert (Hd : 53 <= Zpos (digits2_pos (m' + mc))) by (apply digits2_ge; simpl; nia).
  rewrite binary_round_wide by lia.
  apply round_ge; try lia; auto.
Qed.

Lemma valid_normal m e :
  float_valid (S754_finite false m e) = true -> -1073 <= e -> normal m e.
Proof.
  unfold float_valid, valid_binary, bounded, canonical_mantissa, fexp, SpecFloat.emin, prec, emax.
  intros H He. apply andb_true_iff in H as [H1 H2].
  apply Z.eqb_eq in H1. apply Z.leb_le in H2.
  pose proof (digits2_bounds m) as [Dl Du].
  assert (Zpos (digits2_pos m) = 53) as E by lia.
  rewrite E in Dl, Du. simpl in Dl. split; lia.
Qed.

Lemma normal_valid m e : normal m e -> float_valid (S754_finite false m e) = true.
Proof.
  intros [Hm He].
  unfold float_valid, valid_binary, bounded, canonical_mantissa.
  rewrite (digits2_unique m 53) by (simpl; lia).
  rewrite fexp_normal by lia.
  apply andb_true_iff. split; [apply Z.eqb_eq; lia | apply Z.leb_le; unfold emax, prec; lia].
Qed.

(** ** The ease factor stays in its range *)

Lemma ease_ok_shape x :
  ease_ok x = true ->
  exists m e, x = S754_finite false m e /\ normal m e /\ -52 <= e <= -50 /\
    SFleb MIN_EASE_FACTOR x = true /\ SFleb x MAX_EASE_FACTOR = true.
Proof.
  unfold ease_ok. intros H.
  apply andb_true_iff in H as [H H3]. apply andb_true_iff in H as [H1 H2].
  destruct x as [[|]|[|]| |[|] m e]; try discriminate.
  exists m, e. split; [reflexivity|].
  pose proof H2 as L. pose proof H3 as U.
  unfold MIN_EASE_FACTOR in L. apply SFleb_finite in L.
  unfold MAX_EASE_FACTOR in U. apply SFleb_finite in U.
  unfold lex_le in L, U.
  assert (He : -52 <= e <= -50) by lia.
  split; [apply valid_normal; [assumption|lia]|]. auto.
Qed.

Lemma SFltb_SFleb x y : SFltb x y = true -> SFleb x y = true.
Proof. unfold SFltb, SFleb. destruct (SFcompare x y) as [[| |]|]; congruence. Qed.

Lemma lex_le_trans e1 m1 e2 m2 e3 m3 :
  lex_le e1 m1 e2 m2 -> lex_le e2 m2 e3 m3 -> lex_le e1 m1 e3 m3.
Proof. unfold lex_le. lia. Qed.

(** [max(MIN_EASE_FACTOR, x - c)] for a constant [c] below 0.25 *)
Lemma ease_ok_sub x mc ec :
  ease_ok x = true ->
  2 ^ 52 <= Zpos mc < 2 ^ 53 -> -1074 <= ec <= -55 ->
  ease_ok (float_max MIN_EASE_FACTOR (fsub x (S754_finite false mc ec))) = true.
Proof.
  intros Hx Hmc Hec.
  destruct (ease_ok_shape x Hx) as (m & e & -> & Hn & He & _ & U).
  destruct (fsub_le m e mc ec) as (m3 & e3 & E & Hn3 & Hle); try assumption; try lia.
  rewrite E. unfold float_max.
  destruct (SFltb MIN_EASE_FACTOR (S754_finite false m3 e3)) eqn:Hlt; [|reflexivity].
  unfold ease_ok. rewrite normal_valid by assumption.
  rewrite (SFltb_SFleb _ _ Hlt). simpl andb.
  unfold MAX_EASE_FACTOR in *. apply SFleb_finite.
  apply SFleb_finite in U. eapply lex_le_trans; eassumption.
Qed.

(** [min(MAX_EASE_FACTOR, x + 0.1)] *)
Lemma ease_ok_add x :
  ease_ok x = true ->
  ease_ok (float_min MAX_EASE_FACTOR (fadd x f_0_1)) = true.
Proof.
  intros Hx.
  destruct (ease_ok_shape x Hx) as (m & e & -> & Hn & He & L & _).
  unfold float_min, f_0_1.
  destruct (fadd_ge m e 7205759403792794 (-56)) as [E|(m3 & e3 & E & Hn3 & Hle)];
    try assumption; try lia; rewrite E.
  - reflexivity.
  - destruct (SFltb (S754_finite false m3 e3) MAX_EASE_FACTOR) eqn:Hlt; [|reflexivity].
    unfold ease_ok. rewrite normal_valid by assumption.
    rewrite (SFltb_SFleb _ _ Hlt), andb_true_r. simpl andb.
    unfold MIN_EASE_FACTOR in *. apply SFleb_finite.
    apply SFleb_finite in L. eapply lex_le_trans; eassumption.
Qed.

Lemma ease_ok_update r d :
  ease_ok (ease_factor d) = true ->
  ease_ok (ease_factor (_update_ease_factor r d)) = true.
Proof.
  intros H. destruct r; simpl; auto.
  - apply ease_ok_sub; [assumption|simpl; lia|lia].
  - apply ease_ok_sub; [assumption|simpl; lia|lia].
  - apply ease_ok_add; assumption.
Qed.

(** ** Floats that are at least one *)

Lemma lex_ge_one m e :
  normal m e -> lex_le (-52) 4503599627370496 e m -> ge_one (S754_finite false m e).
Proof.
  intros Hn Hl. right. exists m, e. split; [reflexivity|]. split; [assumption|].
  unfold lex_le in Hl. lia.
Qed.

Lemma round_ge_one m e :
  53 <= Zpos (digits2_pos m) ->
  -1074 <= e + (Zpos (digits2_pos m) - 53) ->
  (e <= -52 /\ 2 ^ 52 * 2 ^ (-52 - e) <= Zpos m) \/ -52 < e + (Zpos (digits2_pos m) - 53) ->
  ge_one (binary_round_aux prec emax false (Zpos m) e loc_Exact).
Proof.
  intros Hd He Hv.
  destruct (round_ge m e 4503599627370496 (-52) Hd He) as [E|(m3 & e3 & E & Hn & Hl)].
  - split; simpl; lia.
  - exact Hv.
  - rewrite E. left; reflexivity.
  - rewrite E. apply lex_ge_one; assumption.
Qed.

Lemma float_of_Z_ge_one n : 1 <= n -> ge_one (float_of_Z n).
Proof.
  intros Hn. destruct n as [|p|p]; try lia.
  unfold float_of_Z. simpl binary_normalize. unfold binary_round.
  pose proof (digits2_bounds p) as [Dl Du].
  set (d := Zpos (digits2_pos p)) in *.
  assert (Hd0 : 1 <= d) by (unfold d; lia).
  rewrite Z.add_0_r, fexp_normal by lia.
  destruct (Z.lt_ge_cases d 53) as [Hlt|Hge].
  - destruct (shl_align_le p 0 (d - 53) ltac:(lia)) as (m' & -> & Hm').
    replace (0 - (d - 53)) with (53 - d) in Hm' by lia.
    assert (Hp : 0 < 2 ^ (53 - d)) by (apply Z.pow_pos_nonneg; lia).
    assert (E1 : 2 ^ (d - 1) * 2 ^ (53 - d) = 2 ^ 52).
    { rewrite <- Z.pow_add_r by lia. f_equal. lia. }
    assert (E2 : 2 ^ d * 2 ^ (53 - d) = 2 ^ 53).
    { rewrite <- Z.pow_add_r by lia. f_equal. lia. }
    assert (Hm52 : 2 ^ 52 <= Zpos m' < 2 ^ 53) by nia.
    pose proof (digits2_unique m' 53 ltac:(simpl; lia)) as Ed.
    apply round_ge_one; rewrite ?Ed; try lia.
    destruct (Z.eq_dec d 1) as [E|N]; [left|right; lia].
    split; [lia|]. replace (-52 - (d - 53)) with 0 by lia. simpl. lia.
  - rewrite shl_align_ge by lia.
    apply round_ge_one; fold d; lia.
Qed.

Lemma fmul_ge_one x y : ge_one x -> ge_one y -> ge_one (fmul x y).
Proof.
  intros [->|(mx & ex & -> & [Hmx Hex] & Hx)] [->|(my & ey & -> & [Hmy Hey] & Hy)];
    try (left; reflexivity).
  unfold fmul, SFmul. simpl xorb.
  assert (Hprod : 2 ^ 104 <= Zpos (mx * my)).
  { rewrite Pos2Z.inj_mul. change (2 ^ 104) with (2 ^ 52 * 2 ^ 52). nia. }
  assert (Hd : 105 <= Zpos (digits2_pos (mx * my))) by (apply digits2_ge; exact Hprod).
  apply round_ge_one; try lia.
  destruct (Z.eq_dec (ex + ey) (-104)) as [E|N]; [left|right; lia].
  split; [lia|]. rewrite E. exact Hprod.
Qed.

Lemma ease_ok_ge_one x : ease_ok x = true -> ge_one x.
Proof.
  intros H. destruct (ease_ok_shape x H) as (m & e & -> & Hn & He & _).
  right. exists m, e. split; [reflexivity|]. split; [assumption|lia].
Qed.

Lemma float_of_int_ge_one n x : 1 <= n -> float_of_int n = Ok x -> ge_one x.
Proof.
  intros Hn. unfold float_of_int. pose proof (float_of_Z_ge_one n Hn) as H.
  destruct (float_of_Z n); intros E; inversion E; subst; exact H.
Qed.

Lemma int_of_float_ge_one x n : ge_one x -> int_of_float x = Ok n -> 1 <= n.
Proof.
  intros [->|(m & e & -> & [Hm _] & He)]; simpl; [discriminate|].
  intros E. inversion E; subst. clear E.
  destruct (Z.leb_spec 0 e) as [H0|H0].
  - assert (1 <= 2 ^ e) by (change 1 with (2 ^ 0); apply Z.pow_le_mono_r; lia). nia.
  - assert (Hp : 0 < 2 ^ (- e)) by (apply Z.pow_pos_nonneg; lia).
    assert (2 ^ (- e) <= 2 ^ 52) by (apply Z.pow_le_mono_r; lia).
    apply Z.div_le_lower_bound; lia.
Qed.

(** ** The dictionary under the operations *)

Section Lookup.
Implicit Types (E : engine) (d : ReviewData) (id : string).

Lemma get_review_data_eq id E :
  get_review_data id E =
    (<[id := default ReviewData0 (E !! id)]> E, default ReviewData0 (E !! id)).
Proof.
  unfold get_review_data. destruct (E !! id) as [d|] eqn:H; simpl.
  - by rewrite insert_id.
  - done.
Qed.

Lemma review_card_eq c id r rt E :
  review_card c id r rt E =
    (<[id := fst (review_record c r rt (default ReviewData0 (E !! id)))]> E,
     snd (review_record c r rt (default ReviewData0 (E !! id)))).
Proof.
  unfold review_card. rewrite get_review_data_eq.
  destruct (review_record _ _ _ _) as [d' res]. simpl.
  by rewrite insert_insert_eq.
Qed.

Lemma do_review_lookup E c id :
  do_review E c !! id =
    if decide (rc_card_id c = id)
    then Some (fst (review_record (rc_clock c) (rc_result c) (rc_response_time c)
                      (default ReviewData0 (E !! id))))
    else E !! id.
Proof.
  unfold do_review. rewrite review_card_eq. simpl.
  destruct (decide (rc_card_id c = id)) as [<-|Hne].
  - by rewrite lookup_insert_eq.
  - by rewrite lookup_insert_ne.
Qed.
End Lookup.

(** An invariant of the records is an invariant of the engine under
    [review_card] when a new record has it and a review keeps it. *)
Lemma run_reviews_invariant (P : ReviewData -> Prop) :
  P ReviewData0 ->
  (forall c r rt d, P d -> P (fst (review_record c r rt d))) ->
  forall calls (E : engine),
    (forall id d, E !! id = Some d -> P d) ->
    forall id d, run_reviews calls E !! id = Some d -> P d.
Proof.
  intros H0 Hstep calls. induction calls as [|c calls IH]; intros E HE id d; simpl.
  - apply HE.
  - apply IH. clear id d. intros id d. rewrite do_review_lookup.
    destruct (decide (rc_card_id c = id)) as [<-|Hne]; [|apply HE].
    intros [= <-]. apply Hstep.
    destruct (E !! rc_card_id c) as [d0|] eqn:Hd; simpl; [eapply HE; eassumption|exact H0].
Qed.

(** ** Fields a review leaves alone *)

Lemma calculate_next_review_fields now d :
  let d' := fst (_calculate_next_review now d) in
  ease_factor d' = ease_factor d /\ interval d' = interval d /\
  repetition d' = repetition d /\ graduated d' = graduated d /\
  learning_step d' = learning_step d /\ response_times d' = response_times d /\
  review_history d' = review_history d /\ last_review d' = last_review d /\
  total_reviews d' = total_reviews d /\ total_time_spent d' = total_time_spent d.
Proof.
  unfold _calculate_next_review.
  match goal with |- context [match ?x with Ok _ => _ | Raise _ => _ end] => destruct x end;
    simpl; repeat split; reflexivity.
Qed.

Lemma review_record_ease_ok c r rt d :
  ease_ok (ease_factor d) = true ->
  ease_ok (ease_factor (fst (review_record c r rt d))) = true.
Proof.
  intros H. unfold review_record.
  set (d1 := set_last_review _ (add_review _ r rt d)).
  assert (H1 : ease_ok (ease_factor d1) = true) by exact H.
  assert (H2 : forall d2 res,
    (if negb (graduated d1) then (_process_learning_review r d1, Ok tt)
     else _process_graduated_review r d1) = (d2, res) ->
    ease_ok (ease_factor d2) = true).
  { intros d2 res. destruct (graduated d1); simpl negb; cbv iota.
    - unfold _process_graduated_review. destruct r.
      + intros [= <- <-]. simpl. apply ease_ok_sub; [assumption|simpl; lia|lia].
      + pose proof (ease_ok_update HARD d1 H1).
        destruct (graduated_interval _ _); intros [= <- <-]; assumption.
      + pose proof (ease_ok_update GOOD d1 H1).
        destruct (graduated_interval _ _); intros [= <- <-]; assumption.
      + pose proof (ease_ok_update EASY d1 H1).
        destruct (graduated_interval _ _); intros [= <- <-]; assumption.
    - intros [= <- <-]. destruct r; simpl; try assumption;
        destruct (_ <=? _); assumption. }
  destruct (if negb (graduated d1) then _ else _) as [d2 res] eqn:E.
  specialize (H2 d2 res eq_refl).
  destruct res; [|exact H2].
  destruct (calculate_next_review_fields (t_next c) d2) as [-> _]. exact H2.
Qed.

(** ** C1: the ease factor stays within its bounds *)

(** C1. For every sequence of [review_card] calls from a fresh engine,
    after every call (after the first [k] calls, for every [k]) the ease
    factor of every record is at least 1.3 and at most 5.0. *)
Theorem ease_factor_bounds (calls : list review_call) (k : nat) id d :
  run_reviews (take k calls) new_engine !! id = Some d ->
  SFleb MIN_EASE_FACTOR (ease_factor d) = true /\
  SFleb (ease_factor d) MAX_EASE_FACTOR = true.
Proof.
  intros H.
  assert (Hok : ease_ok (ease_factor d) = true).
  { revert H. apply (run_reviews_invariant (fun d => ease_ok (ease_factor d) = true)).
    - reflexivity.
    - intros. by apply review_record_ease_ok.
    - intros id' d'. unfold new_engine. by rewrite lookup_empty. }
  destruct (ease_ok_shape _ Hok) as (m & e & _ & _ & _ & L & U). auto.
Qed.

(** An instance: six reviews of card c1, with every outcome among them. *)
Lemma ease_factor_bounds_witness :
  let calls := sample_call <$> [GOOD; GOOD; GOOD; EASY; HARD; AGAIN; GOOD] in
  exists d, run_reviews (take 6 calls) new_engine !! "c1"%string = Some d /\
    SFleb MIN_EASE_FACTOR (ease_factor d) = true /\
    SFleb (ease_factor d) MAX_EASE_FACTOR = true.
Proof.
  eexists. split.
  - vm_compute. reflexivity.
  - apply (ease_factor_bounds (sample_call <$> [GOOD; GOOD; GOOD; EASY; HARD; AGAIN; GOOD])
             6 "c1"%string).
    vm_compute. reflexivity.
Defined.

(** ** C10: a lapse in the learning phase *)

Lemma review_record_learning c r rt d :
  graduated d = false ->
  fst (review_record c r rt d) =
    fst (_calculate_next_review (t_next c)
           (_process_learning_review r
              (set_last_review (Some (t_last c)) (add_review (t_history c) r rt d)))).
Proof.
  intros Hg. unfold review_record.
  replace (graduated (set_last_review _ (add_review _ r rt d))) with false by (symmetry; exact Hg).
  reflexivity.
Qed.

(** C10. A review with outcome AGAIN or HARD of a card that has not
    graduated (a record of the engine, or the new record of an unseen id)
    leaves its ease factor, interval and repetition count as they were,
    and the card stays in the learning phase. *)
Theorem learning_lapse_keeps_schedule c id r rt (E : engine) :
  let d := default ReviewData0 (E !! id) in
  graduated d = false ->
  r = AGAIN \/ r = HARD ->
  exists d', fst (review_card c id r rt E) !! id = Some d' /\
    ease_factor d' = ease_factor d /\ interval d' = interval d /\
    repetition d' = repetition d /\ graduated d' = false.
Proof.
  intros d Hg Hr. rewrite review_card_eq. simpl fst. rewrite lookup_insert_eq.
  eexists. split; [reflexivity|]. fold d.
  rewrite (review_record_learning c r rt d Hg).
  destruct (calculate_next_review_fields (t_next c)
    (_process_learning_review r
       (set_last_review (Some (t_last c)) (add_review (t_history c) r rt d))))
    as (-> & -> & -> & -> & _).
  destruct Hr as [-> | ->]; simpl; auto.
Qed.

(** An instance: AGAIN on card c1 after two GOOD reviews. *)
Lemma learning_lapse_keeps_schedule_witness :
  let E := run_reviews (sample_call <$> [GOOD; GOOD]) new_engine in
  graduated (default ReviewData0 (E !! "c1"%string)) = false /\
  exists d', fst (review_card sample_clock "c1"%string AGAIN f_5_0 E) !! "c1"%string = Some d' /\
    ease_factor d' = ease_factor (default ReviewData0 (E !! "c1"%string)) /\
    interval d' = interval (default ReviewData0 (E !! "c1"%string)) /\
    repetition d' = repetition (default ReviewData0 (E !! "c1"%string)) /\
    graduated d' = false.
Proof.
  split; [vm_compute; reflexivity|].
  apply (learning_lapse_keeps_schedule sample_clock "c1"%string AGAIN f_5_0
           (run_reviews (sample_call <$> [GOOD; GOOD]) new_engine)).
  - vm_compute; reflexivity.
  - left; reflexivity.
Defined.

(** The contrast: AGAIN on a graduated card lowers the ease factor by 0.2,
    down to the minimum at most, and sends the card back to learning. *)
Lemma graduated_lapse_penalty c rt d :
  graduated d = true ->
  let d' := fst (review_record c AGAIN rt d) in
  ease_factor d' = float_max MIN_EASE_FACTOR (fsub (ease_factor d) f_0_2) /\
  graduated d' = false /\ interval d' = 1 /\ repetition d' = 0 /\ learning_step d' = 0.
Proof.
  intros Hg. unfold review_record.
  replace (graduated (set_last_review _ (add_review _ AGAIN rt d))) with true by (symmetry; exact Hg).
  simpl negb. cbv iota. unfold _process_graduated_review.
  match goal with |- context [_calculate_next_review ?n ?x] =>
    destruct (calculate_next_review_fields n x) as (E1 & E2 & E3 & E4 & E5 & _) end.
  cbv zeta. simpl snd. cbv iota.
  rewrite E1, E2, E3, E4, E5. simpl. auto.
Qed.

(** ** C2: the interval of a graduated review *)

Lemma review_record_graduated c r rt d :
  graduated d = true -> r <> AGAIN ->
  let d1 := _update_ease_factor r
              (set_last_review (Some (t_last c)) (add_review (t_history c) r rt d)) in
  review_record c r rt d =
    match graduated_interval r d1 with
    | Ok n => _calculate_next_review (t_next c)
                (set_repetition (repetition d1 + 1) (set_interval n d1))
    | Raise e => (d1, Raise e)
    end.
Proof.
  intros Hg Hr d1. unfold review_record.
  replace (graduated (set_last_review _ (add_review _ r rt d))) with true by (symmetry; exact Hg).
  simpl negb. cbv iota. unfold _process_graduated_review.
  destruct r; try congruence; fold d1; destruct (graduated_interval _ d1); reflexivity.
Qed.

Lemma update_ease_factor_fields r d :
  let d' := _update_ease_factor r d in
  interval d' = interval d /\ repetition d' = repetition d /\
  graduated d' = graduated d /\ response_times d' = response_times d.
Proof. destruct r; simpl; auto. Qed.

Lemma graduated_interval_truncated r d :
  2 <= repetition d -> r <> AGAIN ->
  graduated_interval r d = truncated_interval r (interval d) (ease_factor d).
Proof.
  intros H Hr. unfold graduated_interval, truncated_interval.
  destruct (Z.eqb_spec (repetition d) 0); [lia|].
  destruct (Z.eqb_spec (repetition d) 1); [lia|].
  destruct r; congruence.
Qed.

(** [int] on a positive float: the integer part of its value. *)
Lemma int_of_float_truncates m e n :
  int_of_float (S754_finite false m e) = Ok n ->
  (0 <= e -> n = Zpos m * 2 ^ e) /\
  (e < 0 -> n * 2 ^ (- e) <= Zpos m < (n + 1) * 2 ^ (- e)).
Proof.
  simpl. intros [= <-]. destruct (Z.leb_spec 0 e) as [H|H]; split; intros H'; try lia.
  assert (Hp : 0 < 2 ^ (- e)) by (apply Z.pow_pos_nonneg; lia).
  pose proof (Z.div_mod (Zpos m) (2 ^ (- e)) ltac:(lia)).
  pose proof (Z.mod_pos_bound (Zpos m) (2 ^ (- e)) Hp). nia.
Qed.

(** C2, as the code has it. For a graduated card with two or more
    repetitions, a review with outcome HARD, GOOD or EASY first adjusts
    the ease factor and then sets the interval to the product truncated
    toward zero by [int]: HARD gives [max(1, int(interval * 1.2))], EASY
    gives [int(interval * ease_factor * 1.3)] and GOOD gives
    [int(interval * ease_factor)]; the repetition count goes up by one. *)
Theorem graduated_interval_truncates c r rt d n :
  graduated d = true -> 2 <= repetition d -> r <> AGAIN ->
  let d' := fst (review_record c r rt d) in
  truncated_interval r (interval d) (ease_factor d') = Ok n ->
  ease_factor d' = ease_factor (_update_ease_factor r d) /\
  interval d' = n /\ repetition d' = repetition d + 1.
Proof.
  intros Hg Hrep Hr d'. subst d'.
  rewrite (review_record_graduated c r rt d Hg Hr).
  set (d1 := _update_ease_factor r _).
  assert (He : ease_factor d1 = ease_factor (_update_ease_factor r d)) by (destruct r; reflexivity).
  destruct (update_ease_factor_fields r
    (set_last_review (Some (t_last c)) (add_review (t_history c) r rt d)))
    as (Hi & Hp & _). fold d1 in Hi, Hp. simpl in Hi, Hp.
  rewrite (graduated_interval_truncated r d1) by (rewrite ?Hp; assumption).
  rewrite Hi.
  destruct (truncated_interval r (interval d) (ease_factor d1)) as [n'|e] eqn:E.
  - match goal with |- context [_calculate_next_review ?t ?x] =>
      destruct (calculate_next_review_fields t x) as (E1 & E2 & E3 & _) end.
    rewrite E1, E2, E3. simpl. rewrite E. intros [= <-]. rewrite Hp. auto.
  - simpl. rewrite E. discriminate.
Qed.

(** An instance: the fifth GOOD review of card c1, which stores 14. *)
Lemma graduated_interval_truncates_witness :
  let d := card_after [GOOD; GOOD; GOOD; GOOD] in
  let d' := fst (review_record sample_clock GOOD f_5_0 d) in
  (graduated d = true /\ 2 <= repetition d /\ GOOD <> AGAIN /\
   truncated_interval GOOD (interval d) (ease_factor d') = Ok 14) /\
  ease_factor d' = ease_factor (_update_ease_factor GOOD d) /\
  interval d' = 14 /\ repetition d' = repetition d + 1.
Proof.
  assert (H : graduated (card_after [GOOD; GOOD; GOOD; GOOD]) = true /\
              2 <= repetition (card_after [GOOD; GOOD; GOOD; GOOD]) /\ GOOD <> AGAIN /\
              truncated_interval GOOD (interval (card_after [GOOD; GOOD; GOOD; GOOD]))
                (ease_factor (fst (review_record sample_clock GOOD f_5_0
                                     (card_after [GOOD; GOOD; GOOD; GOOD])))) = Ok 14).
  { vm_compute. repeat split; congruence. }
  split; [exact H|].
  destruct H as (H1 & H2 & H3 & H4).
  exact (graduated_interval_truncates sample_clock GOOD f_5_0
           (card_after [GOOD; GOOD; GOOD; GOOD]) 14 H1 H2 H3 H4).
Defined.

(** C2 as stated fails: after four GOOD reviews card c1 is graduated with
    two repetitions and an interval of 6 days; the fifth GOOD review
    lowers the ease factor to 2.46, the product 6 * 2.46 = 14.76 rounds
    to 15, and the code stores 14. *)
Lemma interval_not_rounded :
  let d := card_after [GOOD; GOOD; GOOD; GOOD] in
  graduated d = true /\ repetition d = 2 /\ interval d = 6 /\
  spec_rounded_interval GOOD (_update_ease_factor GOOD d) = Ok 15 /\
  interval (fst (review_record sample_clock GOOD f_5_0 d)) = 14.
Proof. vm_compute. repeat split; reflexivity. Qed.

(** ** The dictionary under the queries and under [import_data] *)

Lemma with_defaults_cons a ids (E : engine) :
  with_defaults (a :: ids) E = with_defaults ids (<[a := default ReviewData0 (E !! a)]> E).
Proof. unfold with_defaults. simpl. by rewrite get_review_data_eq. Qed.

Lemma with_defaults_lookup ids (E : engine) id :
  with_defaults ids E !! id =
    match E !! id with
    | Some d => Some d
    | None => if decide (id ∈ ids) then Some ReviewData0 else None
    end.
Proof.
  revert E. induction ids as [|a ids IH]; intros E.
  - unfold with_defaults. simpl fold_left. destruct (E !! id); [done|].
    destruct (decide (id ∈ [])) as [Hin|]; [|done]. by apply not_elem_of_nil in Hin.
  - rewrite with_defaults_cons, IH. destruct (decide (a = id)) as [->|Hne].
    + rewrite lookup_insert_eq. destruct (E !! id); simpl; [done|].
      destruct (decide (id ∈ id :: ids)) as [|Hnin]; [done|].
      exfalso. apply Hnin, list_elem_of_here.
    + rewrite lookup_insert_ne by done. destruct (E !! id); [done|].
      destruct (decide (id ∈ ids)) as [Hin|Hnin];
        destruct (decide (id ∈ a :: ids)) as [Hin'|Hnin']; try done.
      * exfalso. apply Hnin'. by apply list_elem_of_further.
      * exfalso. apply elem_of_cons in Hin' as [->|Hin']; done.
Qed.

Lemma get_due_loop_engine now ids due (E : engine) :
  exists k, fst (get_due_loop now ids due E) = with_defaults (take k ids) E /\
            (is_ok (snd (get_due_loop now ids due E)) = true -> take k ids = ids).
Proof.
  revert due E. induction ids as [|a ids IH]; intros due E.
  - exists 0%nat. done.
  - simpl get_due_loop. rewrite get_review_data_eq.
    set (E1 := <[a := _]> E). set (d := default _ _).
    assert (Hrec : forall due', exists k,
      fst (get_due_loop now ids due' E1) = with_defaults (take k (a :: ids)) E /\
      (is_ok (snd (get_due_loop now ids due' E1)) = true -> take k (a :: ids) = a :: ids)).
    { intros due'. destruct (IH due' E1) as (k & Hk & Hok).
      exists (S k). change (take (S k) (a :: ids)) with (a :: take k ids).
      rewrite with_defaults_cons. split; [exact Hk|].
      intros H. by rewrite (Hok H). }
    destruct (next_review d) as [t|]; [|apply Hrec].
    destruct (datetime_le t now) as [[|]|e]; [apply Hrec|apply Hrec|].
    exists 1%nat. change (take 1 (a :: ids)) with [a].
    split; [by rewrite with_defaults_cons|done].
Qed.

Lemma get_stats_loop_engine now ids a (E : engine) :
  exists k, fst (get_stats_loop now ids a E) = with_defaults (take k ids) E /\
            (is_ok (snd (get_stats_loop now ids a E)) = true -> take k ids = ids).
Proof.
  revert a E. induction ids as [|i ids IH]; intros a E.
  - exists 0%nat. done.
  - simpl get_stats_loop. rewrite get_review_data_eq.
    set (E1 := <[i := _]> E). set (d := default _ _).
    destruct (stats_step now d a) as [a'|e].
    + destruct (IH a' E1) as (k & Hk & Hok).
      exists (S k). change (take (S k) (i :: ids)) with (i :: take k ids).
      rewrite with_defaults_cons. split; [exact Hk|].
      intros H. by rewrite (Hok H).
    + exists 1%nat. change (take 1 (i :: ids)) with [i].
      split; [by rewrite with_defaults_cons|done].
Qed.

Lemma get_due_cards_engine now ids (E : engine) :
  exists k, fst (get_due_cards now ids E) = with_defaults (take k ids) E /\
            (is_ok (snd (get_due_cards now ids E)) = true -> take k ids = ids).
Proof. apply get_due_loop_engine. Qed.

Lemma get_study_stats_engine now ids (E : engine) :
  exists k, fst (get_study_stats now ids E) = with_defaults (take k ids) E /\
            (is_ok (snd (get_study_stats now ids E)) = true -> take k ids = ids).
Proof.
  unfold get_study_stats. destruct ids as [|i ids].
  - exists 0%nat. done.
  - destruct (get_stats_loop_engine now (i :: ids) counters0 E) as (k & Hk & Hok).
    destruct (get_stats_loop now (i :: ids) counters0 E) as [E' r]. simpl in *.
    exists k. split; [exact Hk|]. intros H. apply Hok. by destruct r.
Qed.

(** A record found after a query was there before, or is a new record. *)
Lemma with_defaults_record ids (E : engine) id d :
  with_defaults ids E !! id = Some d -> E !! id = Some d \/ d = ReviewData0.
Proof.
  rewrite with_defaults_lookup. destruct (E !! id); [auto|].
  destruct (decide _); [|done]. intros [= <-]. by right.
Qed.

(** A record found after [import_data] was there before, or was built
    from an entry of the snapshot. *)
Lemma import_data_record data (E : engine) id d :
  fst (import_data data E) !! id = Some d ->
  E !! id = Some d \/ exists c, (id, c) ∈ data /\ import_record c = Ok d.
Proof.
  revert E. induction data as [|[i c] data IH]; intros E; simpl.
  - auto.
  - destruct (import_record c) as [d0|e] eqn:Hc; simpl; [|auto].
    intros H. destruct (IH _ H) as [H1|(c' & Hin & Hc')].
    + destruct (decide (i = id)) as [->|Hne].
      * rewrite lookup_insert_eq in H1. injection H1 as <-.
        right. exists c. split; [apply list_elem_of_here|done].
      * rewrite lookup_insert_ne in H1 by done. by left.
    + right. exists c'. split; [by apply list_elem_of_further|done].
Qed.

(** ** C3: a graduated record has an interval of one day or more *)

Lemma int_mul_float_ge_one i e x :
  1 <= i -> ge_one e -> int_mul_float i e = Ok x -> ge_one x.
Proof.
  intros Hi He. unfold int_mul_float.
  destruct (float_of_int i) as [fi|err] eqn:Hf; simpl; [|discriminate].
  intros [= <-]. apply fmul_ge_one; [|exact He].
  eapply float_of_int_ge_one; eassumption.
Qed.

Lemma EASY_INTERVAL_FACTOR_ge_one : ge_one EASY_INTERVAL_FACTOR.
Proof.
  right. eexists _, _. split; [reflexivity|]. unfold normal. simpl. lia.
Qed.

Lemma graduated_interval_ge_one r d n :
  ease_ok (ease_factor d) = true -> 1 <= interval d ->
  graduated_interval r d = Ok n -> 1 <= n.
Proof.
  intros He Hi. unfold graduated_interval.
  destruct (repetition d =? 0); [intros [= <-]; lia|].
  destruct (repetition d =? 1); [intros [= <-]; lia|].
  pose proof (ease_ok_ge_one _ He) as Hge.
  assert (Hplain : forall m,
    (int_mul_float (interval d) (ease_factor d) ≫= int_of_float) = Ok m -> 1 <= m).
  { intros m. destruct (int_mul_float (interval d) (ease_factor d)) as [x|] eqn:Hx;
      simpl; [|discriminate].
    apply int_of_float_ge_one. eapply int_mul_float_ge_one; eassumption. }
  destruct r; try apply Hplain.
  - destruct (int_mul_float (interval d) HARD_INTERVAL_FACTOR) as [x|]; simpl; [|discriminate].
    destruct (int_of_float x) as [n0|]; simpl; [|discriminate].
    intros [= <-]. lia.
  - destruct (int_mul_float (interval d) (ease_factor d)) as [x|] eqn:Hx;
      simpl; [|discriminate].
    apply int_of_float_ge_one, fmul_ge_one; [|apply EASY_INTERVAL_FACTOR_ge_one].
    eapply int_mul_float_ge_one; eassumption.
Qed.

Lemma record_ok_iff d :
  record_ok d = true <->
  ease_ok (ease_factor d) = true /\ (graduated d = true -> 1 <= interval d).
Proof.
  unfold record_ok. rewrite andb_true_iff, orb_true_iff, negb_true_iff, Z.leb_le.
  split; intros [H1 H2]; (split; [exact H1|]).
  - intros Hg. destruct H2 as [H2|H2]; [congruence|exact H2].
  - destruct (graduated d); [right; auto|left; reflexivity].
Qed.

Lemma review_record_ok c r rt d :
  record_ok d = true -> record_ok (fst (review_record c r rt d)) = true.
Proof.
  intros H. apply record_ok_iff in H as [He Hi]. apply record_ok_iff.
  split; [by apply review_record_ease_ok|].
  destruct (graduated d) eqn:Hg.
  - specialize (Hi eq_refl). destruct (decide (r = AGAIN)) as [->|Hr].
    + destruct (graduated_lapse_penalty c rt d Hg) as (_ & -> & _). discriminate.
    + rewrite (review_record_graduated c r rt d Hg Hr).
      set (d0 := set_last_review _ _).
      destruct (update_ease_factor_fields r d0) as (Ei & Ep & Eg & _).
      set (d1 := _update_ease_factor r d0) in *.
      assert (He1 : ease_ok (ease_factor d1) = true) by (apply ease_ok_update; exact He).
      destruct (graduated_interval r d1) as [n|e] eqn:En.
      * match goal with |- context [_calculate_next_review ?t ?x] =>
          destruct (calculate_next_review_fields t x) as (_ & -> & _) end.
        intros _. simpl. eapply graduated_interval_ge_one; [exact He1| |exact En].
        rewrite Ei. exact Hi.
      * simpl. intros _. rewrite Ei. exact Hi.
  - rewrite (review_record_learning c r rt d Hg).
    match goal with |- context [_calculate_next_review ?t ?x] =>
      destruct (calculate_next_review_fields t x) as (_ & -> & _ & -> & _) end.
    set (d0 := set_last_review _ _).
    assert (Hg0 : graduated d0 = false) by exact Hg.
    destruct r; simpl;
      try (intros Hx; congruence);
      (destruct (_ <=? _); simpl;
       [intros _; unfold GRADUATING_INTERVAL, EASY_INTERVAL; lia
       |intros Hx; congruence]).
Qed.

Lemma import_record_ok c d :
  entry_in_range c = true -> import_record c = Ok d -> record_ok d = true.
Proof.
  unfold import_record, entry_in_range. intros H.
  destruct (import_timestamp (cd_last_review c)); simpl; [|discriminate].
  destruct (import_timestamp (cd_next_review c)); simpl; [|discriminate].
  destruct (import_history _); simpl; [|discriminate].
  intros [= <-]. exact H.
Qed.

Lemma run_ops_record_ok ops (E : engine) :
  imports_in_range ops = true ->
  (forall id d, E !! id = Some d -> record_ok d = true) ->
  forall id d, run_ops ops E !! id = Some d -> record_ok d = true.
Proof.
  revert E. induction ops as [|o ops IH]; intros E Hops HE; simpl.
  - exact HE.
  - simpl in Hops. apply andb_true_iff in Hops as [Ho Hops].
    apply IH; [exact Hops|]. intros id d. destruct o as [c|now ids|now ids| |data]; simpl.
    + rewrite do_review_lookup. destruct (decide _) as [<-|]; [|apply HE].
      intros [= <-]. apply review_record_ok.
      destruct (E !! rc_card_id c) as [d0|] eqn:Hd; simpl; [eapply HE; eassumption|reflexivity].
    + destruct (get_due_cards_engine now ids E) as (k & -> & _).
      intros H. apply with_defaults_record in H as [H| ->]; [eapply HE; eassumption|reflexivity].
    + destruct (get_study_stats_engine now ids E) as (k & -> & _).
      intros H. apply with_defaults_record in H as [H| ->]; [eapply HE; eassumption|reflexivity].
    + apply HE.
    + intros H. apply import_data_record in H as [H|(c & Hin & Hc)]; [eapply HE; eassumption|].
      eapply import_record_ok; [|exact Hc].
      unfold snapshot_in_range in Ho. rewrite forallb_forall in Ho.
      apply (Ho (id, c)). by apply list_elem_of_In.
Qed.

(** C3, as the code has it. After every sequence of [review_card] calls,
    queries, exports and [import_data] calls whose snapshots are in range
    (every entry has an ease factor within [1.3, 5.0] and, when it is
    graduated, an interval of one or more), on a fresh engine, every
    graduated record has an interval of one day or more. *)
Theorem graduated_interval_positive ops id d :
  imports_in_range ops = true ->
  run_ops ops new_engine !! id = Some d ->
  graduated d = true -> 1 <= interval d.
Proof.
  intros Hops H Hg.
  assert (Hok : record_ok d = true).
  { eapply run_ops_record_ok; [exact Hops| |exact H].
    intros id' d'. unfold new_engine. by rewrite lookup_empty. }
  apply record_ok_iff in Hok as [_ Hi]. by apply Hi.
Qed.

(** An instance: reviews, a query and an import in range; card c1 ends
    graduated. *)
Lemma graduated_interval_positive_witness :
  let ops := [Review (sample_call GOOD); Review (sample_call GOOD);
              GetDue sample_now ["c1"; "c2"]%string; Review (sample_call EASY);
              Import [("b"%string, sample_entry (Some true) (Some 3) None None None)];
              Review (sample_call EASY); Review (sample_call EASY);
              Review (sample_call HARD)] in
  exists d, (imports_in_range ops = true /\
             run_ops ops new_engine !! "c1"%string = Some d /\ graduated d = true) /\
            1 <= interval d.
Proof.
  eexists. split.
  - split; [vm_compute; reflexivity|]. split; vm_compute; reflexivity.
  - eapply (graduated_interval_positive
      [Review (sample_call GOOD); Review (sample_call GOOD);
       GetDue sample_now ["c1"; "c2"]%string; Review (sample_call EASY);
       Import [("b"%string, sample_entry (Some true) (Some 3) None None None)];
       Review (sample_call EASY); Review (sample_call EASY);
       Review (sample_call HARD)] "c1"%string); vm_compute; reflexivity.
Defined.

(** C3 as stated fails: [import_data] copies [graduated] and [interval]
    from the snapshot without a check, so importing an entry with
    [graduated = True] and [interval = 0] leaves a graduated record whose
    interval is 0. *)
Lemma import_breaks_interval_invariant :
  let E := run_ops [Import [("a"%string, sample_entry (Some true) (Some 0) None None None)]]
             new_engine in
  exists d, E !! "a"%string = Some d /\ graduated d = true /\ interval d = 0.
Proof. eexists. vm_compute. repeat split; reflexivity. Qed.

(** ** C7: the response times kept *)

Lemma process_learning_review_response_times r d :
  response_times (_process_learning_review r d) = response_times d.
Proof. destruct r; simpl; try reflexivity; destruct (_ <=? _); reflexivity. Qed.

Lemma review_record_response_times c r rt d :
  response_times (fst (review_record c r rt d)) =
  response_times (add_review (t_history c) r rt d).
Proof.
  destruct (graduated d) eqn:Hg.
  - destruct (decide (r = AGAIN)) as [->|Hr].
    + unfold review_record.
      replace (graduated (set_last_review _ (add_review _ AGAIN rt d))) with true
        by (symmetry; exact Hg).
      simpl negb. cbv iota. unfold _process_graduated_review. cbv zeta. simpl snd. cbv iota.
      match goal with |- context [_calculate_next_review ?t ?x] =>
        destruct (calculate_next_review_fields t x) as (_ & _ & _ & _ & _ & -> & _) end.
      reflexivity.
    + rewrite (review_record_graduated c r rt d Hg Hr).
      set (d0 := set_last_review _ _).
      destruct (update_ease_factor_fields r d0) as (_ & _ & _ & Et).
      destruct (graduated_interval _ _).
      * match goal with |- context [_calculate_next_review ?t ?x] =>
          destruct (calculate_next_review_fields t x) as (_ & _ & _ & _ & _ & -> & _) end.
        simpl. exact Et.
      * simpl. exact Et.
  - rewrite (review_record_learning c r rt d Hg).
    match goal with |- context [_calculate_next_review ?t ?x] =>
      destruct (calculate_next_review_fields t x) as (_ & _ & _ & _ & _ & -> & _) end.
    by rewrite process_learning_review_response_times.
Qed.

Lemma add_review_response_times_length now r rt d :
  (length (response_times (add_review now r rt d)) <= 50)%nat.
Proof.
  simpl. destruct (Z.ltb_spec 50 (Z.of_nat (length (response_times d ++ [rt])))) as [H|H].
  - unfold last_50. rewrite length_drop. lia.
  - lia.
Qed.

Lemma add_review_response_times_fifo now r rt d :
  ((length (response_times d) < 50)%nat ->
     response_times (add_review now r rt d) = response_times d ++ [rt]) /\
  (length (response_times d) = 50%nat ->
     response_times (add_review now r rt d) = drop 1 (response_times d) ++ [rt]).
Proof.
  simpl. rewrite length_app. simpl length. split; intros H.
  - destruct (Z.ltb_spec 50 (Z.of_nat (length (response_times d) + 1))); [lia|reflexivity].
  - destruct (Z.ltb_spec 50 (Z.of_nat (length (response_times d) + 1))); [|lia].
    unfold last_50. rewrite length_app. simpl length.
    replace (length (response_times d) + 1 - 50)%nat with 1%nat by lia.
    rewrite drop_app_le by lia. reflexivity.
Qed.

Lemma import_record_response_times c d :
  import_record c = Ok d -> response_times d = default [] (cd_response_times c).
Proof.
  unfold import_record.
  destruct (import_timestamp (cd_last_review c)); simpl; [|discriminate].
  destruct (import_timestamp (cd_next_review c)); simpl; [|discriminate].
  destruct (import_history _); simpl; [|discriminate].
  by intros [= <-].
Qed.

Lemma run_ops_response_times ops (E : engine) :
  import_free ops = true ->
  (forall id d, E !! id = Some d -> (length (response_times d) <= 50)%nat) ->
  forall id d, run_ops ops E !! id = Some d -> (length (response_times d) <= 50)%nat.
Proof.
  revert E. induction ops as [|o ops IH]; intros E Hops HE; simpl.
  - exact HE.
  - simpl in Hops. apply andb_true_iff in Hops as [Ho Hops].
    apply IH; [exact Hops|]. intros id d. destruct o as [c|now ids|now ids| |data]; simpl.
    + rewrite do_review_lookup. destruct (decide _) as [<-|]; [|apply HE].
      intros [= <-]. rewrite review_record_response_times.
      apply add_review_response_times_length.
    + destruct (get_due_cards_engine now ids E) as (k & -> & _).
      intros H. apply with_defaults_record in H as [H| ->]; [eapply HE; eassumption|simpl; lia].
    + destruct (get_study_stats_engine now ids E) as (k & -> & _).
      intros H. apply with_defaults_record in H as [H| ->]; [eapply HE; eassumption|simpl; lia].
    + apply HE.
    + discriminate.
Qed.

(** C7, as the code has it. After every sequence of [review_card] calls,
    queries and exports on a fresh engine, every record keeps at most 50
    response times; a review appends the new response time and, when the
    record already holds 50, drops the oldest one; whatever the record
    held before, it holds at most 50 after the review. [import_data]
    stores the list of the snapshot as it is. *)
Theorem response_times_bounded :
  (forall ops id d,
     import_free ops = true -> run_ops ops new_engine !! id = Some d ->
     (length (response_times d) <= 50)%nat) /\
  (forall c r rt d,
     let d' := fst (review_record c r rt d) in
     (length (response_times d') <= 50)%nat /\
     ((length (response_times d) < 50)%nat -> response_times d' = response_times d ++ [rt]) /\
     (length (response_times d) = 50%nat ->
        response_times d' = drop 1 (response_times d) ++ [rt])) /\
  (forall c d,
     import_record c = Ok d -> response_times d = default [] (cd_response_times c)).
Proof.
  split; [|split].
  - intros ops id d Hops H. eapply run_ops_response_times; [exact Hops| |exact H].
    intros id' d'. unfold new_engine. by rewrite lookup_empty.
  - intros c r rt d d'. subst d'. rewrite review_record_response_times.
    split; [apply add_review_response_times_length|apply add_review_response_times_fifo].
  - apply import_record_response_times.
Qed.

(** An instance: sixty reviews of card c1. *)
Lemma response_times_bounded_witness :
  let ops := Review <$> (sample_call <$> replicate 60 GOOD) in
  exists d, (import_free ops = true /\ run_ops ops new_engine !! "c1"%string = Some d) /\
            (length (response_times d) <= 50)%nat.
Proof.
  eexists. split.
  - split; vm_compute; reflexivity.
  - eapply (proj1 response_times_bounded
              (Review <$> (sample_call <$> replicate 60 GOOD)) "c1"%string);
      vm_compute; reflexivity.
Defined.

(** C7 as stated fails: [import_data] takes [response_times] from the
    snapshot without a check, so importing an entry that lists 51
    response times leaves a record with 51 of them. *)
Lemma import_breaks_response_times_bound :
  let E := run_ops [Import [("a"%string,
                      sample_entry None None None (Some (replicate 51 f_5_0)) None)]]
             new_engine in
  exists d, E !! "a"%string = Some d /\ length (response_times d) = 51%nat.
Proof. eexists. vm_compute. split; reflexivity. Qed.

(** ** C5: what the queries do to the dictionary *)

Lemma elem_of_take_elem {A} (x : A) k l : x ∈ take k l -> x ∈ l.
Proof.
  rewrite elem_of_take. intros (i & H & _). eapply list_elem_of_lookup_2; eassumption.
Qed.

Lemma with_defaults_present ids (E : engine) :
  (forall id, id ∈ ids -> is_Some (E !! id)) -> with_defaults ids E = E.
Proof.
  intros H. apply map_eq. intros id. rewrite with_defaults_lookup.
  destruct (E !! id) eqn:Hid; [done|].
  destruct (decide (id ∈ ids)) as [Hin|]; [|done].
  destruct (H id Hin) as [d Hd]. congruence.
Qed.

Lemma with_defaults_take_frame k ids (E : engine) :
  (forall id d, E !! id = Some d -> with_defaults (take k ids) E !! id = Some d) /\
  (forall id, E !! id = None ->
     with_defaults (take k ids) E !! id = None \/
     with_defaults (take k ids) E !! id = Some ReviewData0) /\
  (forall id, id ∉ ids -> with_defaults (take k ids) E !! id = E !! id) /\
  ((forall id, id ∈ ids -> is_Some (E !! id)) -> with_defaults (take k ids) E = E).
Proof.
  repeat split.
  - intros id d H. by rewrite with_defaults_lookup, H.
  - intros id H. rewrite with_defaults_lookup, H. destruct (decide _); auto.
  - intros id H. rewrite with_defaults_lookup. destruct (E !! id); [done|].
    destruct (decide _) as [Hin|]; [|done]. by apply elem_of_take_elem in Hin.
  - intros H. apply with_defaults_present. intros id Hin. apply H.
    by apply elem_of_take_elem in Hin.
Qed.

(** C5, as the code has it. [get_due_cards] and [get_study_stats] go
    through [get_review_data], which creates the record of an id it has
    not seen: a query never changes or removes a record the engine has,
    touches no id outside the requested ones, and gives each requested id
    that had no record a new default record (all of them when it returns
    normally). The dictionary is the same after the call when every
    requested id already had a record. *)
Theorem queries_only_add_defaults now ids (E : engine) :
  let query (E' : engine) (ok : bool) :=
    (forall id d, E !! id = Some d -> E' !! id = Some d) /\
    (forall id, E !! id = None -> E' !! id = None \/ E' !! id = Some ReviewData0) /\
    (forall id, id ∉ ids -> E' !! id = E !! id) /\
    ((forall id, id ∈ ids -> is_Some (E !! id)) -> E' = E) /\
    (ok = true -> E' = with_defaults ids E) in
  query (fst (get_due_cards now ids E)) (is_ok (snd (get_due_cards now ids E))) /\
  query (fst (get_study_stats now ids E)) (is_ok (snd (get_study_stats now ids E))).
Proof.
  intros query. split.
  - destruct (get_due_cards_engine now ids E) as (k & Hk & Hok). rewrite Hk.
    destruct (with_defaults_take_frame k ids E) as (H1 & H2 & H3 & H4).
    repeat split; try assumption. intros H. by rewrite (Hok H).
  - destruct (get_study_stats_engine now ids E) as (k & Hk & Hok). rewrite Hk.
    destruct (with_defaults_take_frame k ids E) as (H1 & H2 & H3 & H4).
    repeat split; try assumption. intros H. by rewrite (Hok H).
Qed.

(** C5 as stated fails: on a fresh engine, a query for the unseen id x
    leaves a record for x in the dictionary. *)
Lemma queries_create_records :
  new_engine !! "x"%string = None /\
  fst (get_due_cards sample_now ["x"%string] new_engine) !! "x"%string = Some ReviewData0 /\
  fst (get_study_stats sample_now ["x"%string] new_engine) !! "x"%string = Some ReviewData0.
Proof. vm_compute. repeat split; reflexivity. Qed.

(** ** C4: the cards that are due *)

Lemma is_due_insert_default now (E : engine) a id :
  is_due now (<[a := default ReviewData0 (E !! a)]> E) id = is_due now E id.
Proof.
  unfold is_due. destruct (decide (a = id)) as [->|Hne].
  - rewrite lookup_insert_eq. by destruct (E !! id).
  - by rewrite lookup_insert_ne.
Qed.

Lemma schedule_aware_insert_default (E : engine) a :
  schedule_aware E -> schedule_aware (<[a := default ReviewData0 (E !! a)]> E).
Proof.
  intros H id d t. destruct (decide (a = id)) as [->|Hne].
  - rewrite lookup_insert_eq. intros [= <-]. destruct (E !! id) eqn:Hid; simpl.
    + by apply (H id).
    + discriminate.
  - rewrite lookup_insert_ne by done. apply H.
Qed.

Lemma datetime_le_aware t now :
  tzinfo t <> None -> tzinfo now <> None ->
  datetime_le t now = Ok (instant t <=? instant now).
Proof.
  unfold datetime_le, instant.
  destruct (tzinfo t); [|done]. destruct (tzinfo now); [|done]. done.
Qed.

Lemma get_due_loop_due now ids due (E : engine) :
  tzinfo now <> None -> schedule_aware E ->
  snd (get_due_loop now ids due E) =
    Ok (due ++ filter (fun id => is_due now E id = true) ids).
Proof.
  intros Hnow. revert due E. induction ids as [|a ids IH]; intros due E HE.
  - simpl. by rewrite app_nil_r.
  - simpl get_due_loop. rewrite get_review_data_eq.
    pose proof (schedule_aware_insert_default E a HE) as HE1.
    assert (Hext : filter (fun id => is_due now (<[a := default ReviewData0 (E !! a)]> E) id = true) ids
                   = filter (fun id => is_due now E id = true) ids).
    { apply list_filter_iff. intros id. by rewrite is_due_insert_default. }
    assert (Hdue : is_due now E a =
              match next_review (default ReviewData0 (E !! a)) with
              | None => true
              | Some t => instant t <=? instant now
              end).
    { unfold is_due. by destruct (E !! a). }
    destruct (next_review (default ReviewData0 (E !! a))) as [t|] eqn:Hn.
    + assert (Ht : tzinfo t <> None).
      { destruct (E !! a) as [d|] eqn:Ha; simpl in Hn; [by apply (HE a d)|discriminate]. }
      rewrite (datetime_le_aware t now Ht Hnow).
      destruct (instant t <=? instant now) eqn:Hc.
      * rewrite IH, Hext by done. rewrite filter_cons_True by done.
        by rewrite <- app_assoc.
      * rewrite IH, Hext by done. rewrite filter_cons_False; [done|]. by rewrite Hdue.
    + rewrite IH, Hext by done. rewrite filter_cons_True by done.
      by rewrite <- app_assoc.
Qed.

Lemma datetime_add_tzinfo now delta t :
  datetime_add now delta = Ok t -> tzinfo t = tzinfo now.
Proof.
  unfold datetime_add. destruct (between _ _ _); [|discriminate].
  intros [= <-]. unfold of_micros. by destruct (ord2ymd _) as [[y m] dd].
Qed.

Lemma bind_datetime_add_tzinfo (r : result Z) now t :
  (r ≫= datetime_add now) = Ok t -> tzinfo t = tzinfo now.
Proof.
  destruct r as [delta|e]; unfold mbind, result_bind; [|discriminate].
  apply datetime_add_tzinfo.
Qed.

Lemma calculate_next_review_next now d :
  next_review (fst (_calculate_next_review now d)) = next_review d \/
  exists t, next_review (fst (_calculate_next_review now d)) = Some t /\
            tzinfo t = tzinfo now.
Proof.
  unfold _calculate_next_review.
  match goal with |- context [match ?x with Ok _ => _ | Raise _ => _ end] =>
    destruct x as [t|e] eqn:Hx end; [right|by left].
  exists t. split; [reflexivity|].
  destruct (negb (graduated d)); [destruct (_ <? _)|].
  - destruct (py_index LEARNING_STEPS (learning_step d)) as [mi|];
      unfold mbind at 1, result_bind at 1 in Hx; [|discriminate].
    by apply bind_datetime_add_tzinfo in Hx.
  - by apply bind_datetime_add_tzinfo in Hx.
  - by apply bind_datetime_add_tzinfo in Hx.
Qed.

(** The [next_review] a review leaves: the old one when the scheduling
    raised, else a value with the offset of the clock reading. *)
Lemma review_record_next_review c r rt d :
  let d' := fst (review_record c r rt d) in
  next_review d' = next_review d \/
  exists t, next_review d' = Some t /\ tzinfo t = tzinfo (t_next c).
Proof.
  cbv zeta. destruct (graduated d) eqn:Hg.
  - destruct (decide (r = AGAIN)) as [->|Hr].
    + unfold review_record.
      replace (graduated (set_last_review _ (add_review _ AGAIN rt d))) with true
        by (symmetry; exact Hg).
      unfold negb. unfold _process_graduated_review.
      match goal with |- context [_calculate_next_review ?t ?x] =>
        destruct (calculate_next_review_next t x) as [->|H] end; [by left|by right].
    + rewrite (review_record_graduated c r rt d Hg Hr).
      set (d0 := set_last_review _ _).
      assert (Hn : next_review (_update_ease_factor r d0) = next_review d) by (by destruct r).
      destruct (graduated_interval _ _).
      * match goal with |- context [_calculate_next_review ?t ?x] =>
          destruct (calculate_next_review_next t x) as [->|H] end; [by left|by right].
      * by left.
  - rewrite (review_record_learning c r rt d Hg).
    match goal with |- context [_calculate_next_review ?t ?x] =>
      destruct (calculate_next_review_next t x) as [->|H] end; [left|by right].
    destruct r; try reflexivity; unfold _process_learning_review;
      destruct (_ <=? _); reflexivity.
Qed.

Lemma utc_now_tzinfo t : utc_now t = true -> tzinfo t = Some 0.
Proof.
  unfold utc_now. intros H. apply andb_true_iff in H as [_ H].
  by apply bool_decide_eq_true in H.
Qed.

Lemma run_ops_schedule_aware ops (E : engine) :
  import_free ops = true -> forallb op_clock_ok ops = true ->
  schedule_aware E -> schedule_aware (run_ops ops E).
Proof.
  revert E. induction ops as [|o ops IH]; intros E Hops Hclk HE; simpl; [exact HE|].
  simpl in Hops, Hclk.
  apply andb_true_iff in Hops as [Ho Hops]. apply andb_true_iff in Hclk as [Hc Hclk].
  apply IH; [exact Hops|exact Hclk|]. intros id d t.
  destruct o as [c|now ids|now ids| |data]; simpl.
  - rewrite do_review_lookup. destruct (decide _) as [<-|]; [|apply HE].
    intros [= <-].
    destruct (review_record_next_review (rc_clock c) (rc_result c) (rc_response_time c)
                (default ReviewData0 (E !! rc_card_id c))) as [->|(t' & -> & Ht')].
    + destruct (E !! rc_card_id c) as [d0|] eqn:Hd; simpl;
        [apply (HE (rc_card_id c) d0 t Hd)|discriminate].
    + intros [= <-]. rewrite Ht'. simpl in Hc. unfold clock_ok in Hc.
      apply andb_true_iff in Hc as [_ Hc]. by rewrite (utc_now_tzinfo _ Hc).
  - destruct (get_due_cards_engine now ids E) as (k & -> & _).
    intros H. apply with_defaults_record in H as [H| ->]; [apply (HE id d t H)|discriminate].
  - destruct (get_study_stats_engine now ids E) as (k & -> & _).
    intros H. apply with_defaults_record in H as [H| ->]; [apply (HE id d t H)|discriminate].
  - apply HE.
  - discriminate.
Qed.

Lemma run_ops_unreviewed ops (E : engine) id :
  import_free ops = true -> id ∉ reviewed_ids ops ->
  (forall d, E !! id = Some d -> next_review d = None) ->
  forall d, run_ops ops E !! id = Some d -> next_review d = None.
Proof.
  revert E. induction ops as [|o ops IH]; intros E Hops Hid HE; simpl; [exact HE|].
  simpl in Hops. apply andb_true_iff in Hops as [Ho Hops].
  destruct o as [c|now ids|now ids| |data]; simpl in Hid |- *.
  - apply not_elem_of_cons in Hid as [Hne Hid].
    apply IH; [exact Hops|exact Hid|]. intros d. rewrite do_review_lookup.
    destruct (decide _) as [Heq|]; [congruence|apply HE].
  - apply IH; [exact Hops|exact Hid|]. intros d.
    destruct (get_due_cards_engine now ids E) as (k & -> & _).
    intros H. apply with_defaults_record in H as [H| ->]; [by apply HE|reflexivity].
  - apply IH; [exact Hops|exact Hid|]. intros d.
    destruct (get_study_stats_engine now ids E) as (k & -> & _).
    intros H. apply with_defaults_record in H as [H| ->]; [by apply HE|reflexivity].
  - by apply IH.
  - discriminate.
Qed.

Lemma get_due_cards_filter now ids (E : engine) :
  tzinfo now <> None -> schedule_aware E ->
  snd (get_due_cards now ids E) = Ok (filter (fun id => is_due now E id = true) ids).
Proof. intros Hnow HE. unfold get_due_cards. by rewrite get_due_loop_due. Qed.

(** C4, as the code has it. When every stored [next_review] is
    timezone-aware, [get_due_cards] returns without raising the requested
    ids, in their order, whose record is absent, or has no [next_review],
    or has a [next_review] not after now. After any sequence of reviews,
    queries and exports on a fresh engine (no [import_data]) this
    applies, and every requested id never passed to [review_card] is in
    the result. *)
Theorem get_due_cards_due :
  (forall now ids (E : engine),
     tzinfo now <> None -> schedule_aware E ->
     snd (get_due_cards now ids E) = Ok (filter (fun id => is_due now E id = true) ids)) /\
  (forall ops now ids id,
     import_free ops = true -> forallb op_clock_ok ops = true -> utc_now now = true ->
     id ∈ ids -> id ∉ reviewed_ids ops ->
     exists due, snd (get_due_cards now ids (run_ops ops new_engine)) = Ok due /\ id ∈ due).
Proof.
  split; [apply get_due_cards_filter|].
  intros ops now ids id Hops Hclk Hnow Hin Hid.
  eexists. split.
  - apply get_due_cards_filter.
    + by rewrite (utc_now_tzinfo _ Hnow).
    + apply run_ops_schedule_aware; [exact Hops|exact Hclk|].
      intros i d t. unfold new_engine. by rewrite lookup_empty.
  - apply list_elem_of_filter. split; [|exact Hin].
    unfold is_due. destruct (run_ops ops new_engine !! id) as [d|] eqn:Hd; [|reflexivity].
    rewrite (run_ops_unreviewed ops new_engine id Hops Hid) with (d := d); [reflexivity| |exact Hd].
    intros d'. unfold new_engine. by rewrite lookup_empty.
Qed.

(** An instance: card c2 is queried and was never reviewed. *)
Lemma get_due_cards_due_witness :
  let ops := [Review (sample_call GOOD); GetStats sample_now ["c1"; "c3"]%string;
              Review (sample_call GOOD)] in
  (import_free ops = true /\ forallb op_clock_ok ops = true /\ utc_now sample_now = true /\
   "c2"%string ∈ ["c1"; "c2"]%string /\ "c2"%string ∉ reviewed_ids ops) /\
  exists due, snd (get_due_cards sample_now ["c1"; "c2"]%string (run_ops ops new_engine)) = Ok due /\
              "c2"%string ∈ due.
Proof.
  assert (H1 : "c2"%string ∈ ["c1"; "c2"]%string) by (apply list_elem_of_In; simpl; auto).
  assert (H2 : "c2"%string ∉ reviewed_ids
                 [Review (sample_call GOOD); GetStats sample_now ["c1"; "c3"]%string;
                  Review (sample_call GOOD)]).
  { simpl. intros H. apply list_elem_of_In in H. simpl in H.
    destruct H as [H|[H|[]]]; discriminate. }
  split.
  - repeat split; try (vm_compute; reflexivity); assumption.
  - apply (proj2 get_due_cards_due
      [Review (sample_call GOOD); GetStats sample_now ["c1"; "c3"]%string;
       Review (sample_call GOOD)] sample_now ["c1"; "c2"]%string "c2"%string);
      try (vm_compute; reflexivity); assumption.
Defined.

(** C4 as stated fails: an id can have a schedule without ever being
    passed to [review_card]. Importing an entry for card a whose
    [next_review] is 2099-01-01 makes [get_due_cards] leave a out. *)
Lemma imported_card_not_due :
  let E := run_ops [Import [("a"%string,
                      sample_entry None None (Some "2099-01-01T00:00:00+00:00"%string) None None)]]
             new_engine in
  reviewed_ids [Import [("a"%string,
                  sample_entry None None (Some "2099-01-01T00:00:00+00:00"%string) None None)]] = [] /\
  snd (get_due_cards sample_now ["a"%string] E) = Ok [].
Proof. vm_compute. split; reflexivity. Qed.

(** ** C6: [import_data] on a unreadable snapshot *)















(** What counts as an invalid timestamp, and what does not: a bare date
    and a time without seconds are not of the format the model reads,
    but they are not invalid, and no property below speaks of them. *)
Example invalid_timestamp_scope :
  invalid_timestamp "next week" = true /\
  invalid_timestamp "" = true /\
  invalid_timestamp "2024-02-30T08:30:00" = true /\
  invalid_timestamp "2024-01-01" = false /\
  invalid_timestamp "2024-01-01T08:30" = false /\
  invalid_timestamp "2024-01-01T08:30:00Z" = false.
Proof. vm_compute. repeat split. Qed.




(** ** C9: naive timestamps in a snapshot *)

(** The code at the failing input of C9: a [next_review] without a UTC
    offset is stored as a naive value, and the next [get_due_cards]
    raises [TypeError] on it. *)
Lemma naive_timestamp_stored :
  let data := [("a"%string,
                sample_entry None None (Some "2024-01-01T00:00:00"%string) None None)] in
  let E := fst (import_data data new_engine) in
  snd (import_data data new_engine) = Ok tt /\
  (exists d t, E !! "a"%string = Some d /\ next_review d = Some t /\ tzinfo t = None) /\
  snd (get_due_cards sample_now ["a"%string] E) = Raise TypeError /\
  snd (get_study_stats sample_now ["a"%string]
         (fst (import_data
                 [("a"%string, sample_entry (Some true) None
                                 (Some "2024-01-01T00:00:00"%string) None None)]
                 new_engine))) = Raise TypeError.
Proof.
  vm_compute. split; [reflexivity|]. split; [|split; reflexivity].
  eexists _, _. repeat split; reflexivity.
Qed.

(** ** The ISO text of a timestamp reads back *)

Lemma digit_of_ascii_of_digit n :
  0 <= n <= 9 -> digit_of_ascii (ascii_of_digit n) = Some n.
Proof.
  intros H.
  assert (Hall : forallb (fun k => match digit_of_ascii (ascii_of_digit (Z.of_nat k)) with
                                   | Some v => v =? Z.of_nat k
                                   | None => false
                                   end) (seq 0 10) = true) by (vm_compute; reflexivity).
  rewrite forallb_forall in Hall. specialize (Hall (Z.to_nat n)).
  rewrite Z2Nat.id in Hall by lia.
  destruct (digit_of_ascii (ascii_of_digit n)) as [v|].
  - f_equal. apply Z.eqb_eq, Hall, in_seq. lia.
  - discriminate Hall. apply in_seq. lia.
Qed.

Lemma parse_digits_S k acc s :
  parse_digits (S k) acc s =
    match parse_digits k acc s with
    | Some (a, s') => parse_digits 1 a s'
    | None => None
    end.
Proof.
  revert acc s. induction k as [|k IH]; intros acc s.
  - reflexivity.
  - change (parse_digits (S (S k)) acc s) with
      (match s with
       | String c s' =>
           match digit_of_ascii c with
           | Some v => parse_digits (S k) (10 * acc + v) s'
           | None => None
           end
       | EmptyString => None
       end).
    destruct s as [|c s']; [reflexivity|].
    change (parse_digits (S k) acc (String c s')) with
      (match digit_of_ascii c with
       | Some v => parse_digits k (10 * acc + v) s'
       | None => None
       end).
    destruct (digit_of_ascii c); [apply IH|reflexivity].
Qed.

Lemma parse_digits_pad k n acc rest :
  0 <= n < 10 ^ Z.of_nat k ->
  parse_digits k acc (pad k n rest) = Some (acc * 10 ^ Z.of_nat k + n, rest).
Proof.
  revert n rest. induction k as [|k IH]; intros n rest Hn.
  - simpl in *. do 2 f_equal. lia.
  - rewrite parse_digits_S.
    change (pad (S k) n rest) with (pad k (n / 10) (String (ascii_of_digit (n mod 10)) rest)).
    rewrite Nat2Z.inj_succ, Z.pow_succ_r in * by lia.
    assert (Hq : 0 <= n / 10 < 10 ^ Z.of_nat k).
    { split; [apply Z.div_pos; lia|apply Z.div_lt_upper_bound; lia]. }
    rewrite (IH _ _ Hq).
    pose proof (Z.mod_pos_bound n 10 ltac:(lia)) as Hr.
    change (parse_digits 1 ?a (String ?c ?r)) with
      (match digit_of_ascii c with Some v => Some (10 * a + v, r) | None => None end).
    rewrite digit_of_ascii_of_digit by lia.
    pose proof (Z.div_mod n 10 ltac:(lia)). do 2 f_equal. lia.
Qed.

Lemma parse_digits_pad0 k n rest :
  0 <= n < 10 ^ Z.of_nat k -> parse_digits k 0 (pad k n rest) = Some (n, rest).
Proof. intros H. rewrite parse_digits_pad by exact H. do 2 f_equal. Qed.

Lemma pad_nonempty k n c rest : pad k n (String c rest) <> EmptyString.
Proof.
  revert n c rest. induction k as [|k IH]; intros n c rest; simpl; [discriminate|apply IH].
Qed.

Lemma isoformat_nonempty d : isoformat d <> EmptyString.
Proof. unfold isoformat. change (pad 4 ?n ?r) with (pad 3 (n / 10) (String (ascii_of_digit (n mod 10)) r)). apply pad_nonempty. Qed.

Lemma expect_head c rest : expect c (String c rest) = Some rest.
Proof. unfold expect. by rewrite Ascii.eqb_refl. Qed.

Lemma option_bind_Some {A B} (f : A -> option B) x : (Some x ≫= f) = f x.
Proof. reflexivity. Qed.

Lemma parse_fraction_offset tz :
  parse_fraction (format_offset tz) = Some (0, format_offset tz).
Proof. destruct tz as [off|]; [|reflexivity]. unfold format_offset. by destruct (off <? 0). Qed.

Lemma parse_offset_format tz :
  match tz with Some off => -86399 <= off <= 86399 | None => True end ->
  parse_offset (format_offset tz) = Some tz.
Proof.
  destruct tz as [off|]; [|reflexivity]. intros Hoff.
  unfold format_offset. set (a := Z.abs off).
  assert (Ha : 0 <= a <= 86399) by (unfold a; lia).
  pose proof (Z.div_mod a 3600 ltac:(lia)) as E1.
  pose proof (Z.mod_pos_bound a 3600 ltac:(lia)) as B1.
  pose proof (Z.div_mod (a mod 3600) 60 ltac:(lia)) as E2.
  pose proof (Z.mod_pos_bound (a mod 3600) 60 ltac:(lia)) as B2.
  assert (E3 : a mod 60 = (a mod 3600) mod 60).
  { rewrite E1 at 1. replace (3600 * (a / 3600)) with (60 * (a / 3600) * 60) by lia.
    rewrite Z.add_comm, Z.mod_add by lia. reflexivity. }
  assert (Hh : 0 <= a / 3600 < 10 ^ Z.of_nat 2).
  { split; [apply Z.div_pos; lia|apply Z.div_lt_upper_bound; simpl; lia]. }
  assert (Hm : 0 <= a mod 3600 / 60 < 10 ^ Z.of_nat 2).
  { split; [apply Z.div_pos; lia|apply Z.div_lt_upper_bound; simpl; lia]. }
  assert (Hs : 0 <= a mod 60 < 10 ^ Z.of_nat 2) by (rewrite E3; simpl; lia).
  assert (Hsign : (if off <? 0 then -1 else 1) * a = off).
  { destruct (Z.ltb_spec off 0); unfold a; lia. }
  assert (Hparse : forall sign c, (if off <? 0 then -1 else 1) = sign ->
    (if Ascii.eqb c "+" then Some 1 else if Ascii.eqb c "-" then Some (-1) else None) = Some sign ->
    parse_offset (String c (pad 2 (a / 3600) (String ":" (pad 2 (a mod 3600 / 60)
       (if a mod 60 =? 0 then EmptyString else String ":" (pad 2 (a mod 60) EmptyString))))))
    = Some (Some off)).
  { intros sign c Hsg Hc. unfold parse_offset. rewrite Hc, option_bind_Some.
    rewrite (parse_digits_pad0 2 _ _ Hh), option_bind_Some. cbv beta iota.
    rewrite expect_head, option_bind_Some.
    rewrite (parse_digits_pad0 2 _ _ Hm), option_bind_Some. cbv beta iota.
    destruct (Z.eqb_spec (a mod 60) 0) as [Hz|Hnz].
    - do 2 f_equal. rewrite <- Hsg. lia.
    - rewrite expect_head, option_bind_Some.
      rewrite (parse_digits_pad0 2 _ _ Hs), option_bind_Some. cbv beta iota.
      replace (between 0 (a mod 3600 / 60) 59 && between 0 (a mod 60) 59) with true.
      + do 2 f_equal. rewrite <- Hsg. lia.
      + symmetry. unfold between. rewrite !andb_true_iff, !Z.leb_le.
        assert (a mod 3600 / 60 < 60) by (apply Z.div_lt_upper_bound; lia). lia. }
  destruct (off <? 0) eqn:Hlt; apply (Hparse _ _ eq_refl); reflexivity.
Qed.

Lemma skip_one_head c rest : skip_one (String c rest) = Some rest.
Proof. reflexivity. Qed.

Lemma between_true lo x hi : between lo x hi = true -> lo <= x <= hi.
Proof. unfold between. rewrite andb_true_iff, !Z.leb_le. done. Qed.

Lemma days_in_month_le y m : days_in_month y m <= 31.
Proof.
  unfold days_in_month. destruct (m =? 2); [destruct (is_leap y); lia|].
  destruct (_ || _); lia.
Qed.

Lemma parse_iso_isoformat d :
  datetime_valid d = true -> parse_iso (isoformat d) = Some d.
Proof.
  destruct d as [y m dd hh mi ss us tz]. unfold datetime_valid. cbn [year month day hour minute second microsecond tzinfo].
  intros H. repeat (apply andb_true_iff in H as [H ?]).
  repeat match goal with Hb : between _ _ _ = true |- _ => apply between_true in Hb end.
  pose proof (days_in_month_le y m) as Hdim.
  assert (Htz : match tz with Some off => -86399 <= off <= 86399 | None => True end).
  { destruct tz as [off|]; [by apply between_true|done]. }
  unfold parse_iso, isoformat.
  cbn [year month day hour minute second microsecond tzinfo].
  rewrite (parse_digits_pad0 4) by (simpl; lia). rewrite option_bind_Some. cbv beta iota.
  rewrite expect_head, option_bind_Some.
  rewrite (parse_digits_pad0 2) by (simpl; lia). rewrite option_bind_Some. cbv beta iota.
  rewrite expect_head, option_bind_Some.
  rewrite (parse_digits_pad0 2) by (simpl; lia). rewrite option_bind_Some. cbv beta iota.
  rewrite skip_one_head, option_bind_Some.
  rewrite (parse_digits_pad0 2) by (simpl; lia). rewrite option_bind_Some. cbv beta iota.
  rewrite expect_head, option_bind_Some.
  rewrite (parse_digits_pad0 2) by (simpl; lia). rewrite option_bind_Some. cbv beta iota.
  rewrite expect_head, option_bind_Some.
  rewrite (parse_digits_pad0 2) by (simpl; lia). rewrite option_bind_Some. cbv beta iota.
  destruct (Z.eqb_spec us 0) as [->|Hus].
  - rewrite parse_fraction_offset, option_bind_Some. cbv beta iota.
    rewrite (parse_offset_format tz Htz), option_bind_Some. reflexivity.
  - change (parse_fraction (String "." ?r)) with (parse_digits 6 0 r).
    rewrite (parse_digits_pad0 6) by (simpl; lia). rewrite option_bind_Some. cbv beta iota.
    rewrite (parse_offset_format tz Htz), option_bind_Some. reflexivity.
Qed.

Lemma fromisoformat_isoformat d :
  datetime_valid d = true -> fromisoformat (isoformat d) = Ok d.
Proof.
  intros H. unfold fromisoformat. by rewrite (parse_iso_isoformat d H), H.
Qed.

Lemma fromisoformat_valid s d : fromisoformat s = Ok d -> datetime_valid d = true.
Proof.
  unfold fromisoformat. destruct (parse_iso s) as [d'|]; [|discriminate].
  destruct (datetime_valid d') eqn:H; [|discriminate]. by intros [= <-].
Qed.

(** ** C8: a snapshot reads back *)

Lemma import_timestamp_isoformat (o : option datetime) :
  from_option datetime_valid true o = true ->
  import_timestamp (isoformat <$> o) = Ok o.
Proof.
  destruct o as [t|]; [|done]. intros H.
  change (isoformat <$> Some t) with (Some (isoformat t)). unfold import_timestamp.
  rewrite bool_decide_eq_false_2 by apply isoformat_nonempty.
  by rewrite (fromisoformat_isoformat t H).
Qed.

Lemma ReviewResult_of_value_value r : ReviewResult_of_value (ReviewResult_value r) = Ok r.
Proof. by destruct r. Qed.

Lemma import_history_export h :
  forallb (fun x => datetime_valid (fst (fst x))) h = true ->
  import_history
    ((fun x => (isoformat (fst (fst x)), ReviewResult_value (snd (fst x)), snd x)) <$> h) = Ok h.
Proof.
  induction h as [|[[t r] time] h IH]; [done|].
  intros H. cbn [forallb fst] in H. apply andb_true_iff in H as [Ht Hh].
  rewrite fmap_cons. cbn [import_history fst snd].
  rewrite (fromisoformat_isoformat t Ht). cbn [mbind result_bind].
  rewrite ReviewResult_of_value_value. cbn [mbind result_bind].
  by rewrite (IH Hh).
Qed.

Lemma import_record_export d :
  record_valid d = true -> import_record (export_record d) = Ok d.
Proof.
  unfold record_valid. intros H.
  apply andb_true_iff in H as [H H3]. apply andb_true_iff in H as [H1 H2].
  unfold import_record, export_record. simpl.
  rewrite (import_timestamp_isoformat _ H1). simpl.
  rewrite (import_timestamp_isoformat _ H2). simpl.
  rewrite (import_history_export _ H3). simpl. by destruct d.
Qed.

Lemma import_data_export_list (l : list (string * ReviewData)) (E : engine) :
  Forall (fun kv => record_valid (snd kv) = true) l ->
  import_data ((fun kv => (fst kv, export_record (snd kv))) <$> l) E =
    (fold_left (fun E kv => <[fst kv := snd kv]> E) l E, Ok tt).
Proof.
  revert E. induction l as [|[k d] l IH]; intros E Hl; [done|].
  apply Forall_cons in Hl as [Hd Hl]. simpl.
  rewrite (import_record_export d Hd). by apply IH.
Qed.

Lemma fold_left_insert_list_to_map (l : list (string * ReviewData)) (E : engine) :
  NoDup l.*1 ->
  fold_left (fun E kv => <[fst kv := snd kv]> E) l E = list_to_map l ∪ E.
Proof.
  revert E. induction l as [|[k d] l IH]; intros E Hl; simpl.
  - by rewrite (left_id_L ∅ (∪)).
  - apply NoDup_cons in Hl as [Hk Hl]. rewrite (IH _ Hl).
    rewrite <- insert_union_l. symmetry. apply insert_union_r.
    by apply not_elem_of_list_to_map_1.
Qed.

Lemma import_data_export_data (E : engine) :
  engine_valid E -> import_data (export_data E) new_engine = (E, Ok tt).
Proof.
  intros HE. unfold export_data. rewrite import_data_export_list.
  - rewrite fold_left_insert_list_to_map by apply NoDup_fst_map_to_list.
    unfold new_engine. by rewrite (right_id_L ∅ (∪)), list_to_map_to_list.
  - apply Forall_forall. intros [k d] Hin. apply elem_of_map_to_list in Hin.
    simpl. by apply (HE k).
Qed.

(** ** Dates computed from ordinals are valid *)

Lemma month_day_ok_all leapyear n : 0 <= n <= 364 -> month_day_ok leapyear n = true.
Proof.
  intros Hn.
  assert (H : forallb (fun b => forallb (month_day_ok b) (Z.of_nat <$> seq 0 365))
                [true; false] = true) by (vm_compute; reflexivity).
  rewrite forallb_forall in H. specialize (H leapyear).
  rewrite forallb_forall in H. apply H.
  - destruct leapyear; simpl; auto.
  - apply list_elem_of_In, list_elem_of_fmap. exists (Z.to_nat n).
    split; [lia|]. apply list_elem_of_In, in_seq. lia.
Qed.

Lemma ord2ymd_valid n :
  1 <= n <= 3652059 ->
  let '(y, m, d) := ord2ymd n in
  1 <= y <= 9999 /\ 1 <= m <= 12 /\ 1 <= d <= days_in_month y m.
Proof.
  intros Hn. unfold ord2ymd, DI400Y, DI100Y, DI4Y.
  set (n0 := n - 1).
  set (n400 := n0 / 146097). set (r1 := n0 mod 146097).
  set (n100 := r1 / 36524). set (r2 := r1 mod 36524).
  set (n4 := r2 / 1461). set (r3 := r2 mod 1461).
  set (n1 := r3 / 365). set (r4 := r3 mod 365).
  assert (H1 : n0 = 146097 * n400 + r1 /\ 0 <= r1 < 146097)
    by (unfold n400, r1; split; [apply Z.div_mod; lia|apply Z.mod_pos_bound; lia]).
  assert (H2 : r1 = 36524 * n100 + r2 /\ 0 <= r2 < 36524)
    by (unfold n100, r2; split; [apply Z.div_mod; lia|apply Z.mod_pos_bound; lia]).
  assert (H3 : r2 = 1461 * n4 + r3 /\ 0 <= r3 < 1461)
    by (unfold n4, r3; split; [apply Z.div_mod; lia|apply Z.mod_pos_bound; lia]).
  assert (H4 : r3 = 365 * n1 + r4 /\ 0 <= r4 < 365)
    by (unfold n1, r4; split; [apply Z.div_mod; lia|apply Z.mod_pos_bound; lia]).
  assert (Hn0 : 0 <= n0 <= 3652058) by (unfold n0; lia).
  clearbody n0 n400 r1 n100 r2 n4 r3 n1 r4.
  destruct ((n1 =? 4) || (n100 =? 4)) eqn:Hlast.
  - apply orb_true_iff in Hlast. rewrite !Z.eqb_eq in Hlast.
    split; [lia|]. split; [lia|]. unfold days_in_month. simpl. lia.
  - apply orb_false_iff in Hlast as [Hn1 Hn100]. apply Z.eqb_neq in Hn1, Hn100.
    set (leapyear := (n1 =? 3) && (negb (n4 =? 24) || (n100 =? 3))).
    set (y := n400 * 400 + 1 + n100 * 100 + n4 * 4 + n1).
    pose proof (month_day_ok_all leapyear r4 ltac:(lia)) as Hmd.
    unfold month_day_ok in Hmd. destruct (month_day r4 leapyear) as [m d].
    apply andb_true_iff in Hmd as [Hm Hd].
    apply between_true in Hm. apply between_true in Hd.
    split; [unfold y; lia|]. split; [exact Hm|].
    assert (Hleap : is_leap y = leapyear).
    { unfold is_leap, leapyear, y.
      assert (0 <= n400 /\ 0 <= n100 <= 3 /\ 0 <= n4 <= 24 /\ 0 <= n1 <= 3) by lia.
      destruct (Z.eqb_spec n1 3), (Z.eqb_spec n4 24), (Z.eqb_spec n100 3);
        repeat match goal with
               | |- context [?a mod ?b =? 0] => destruct (Z.eqb_spec (a mod b) 0)
               end; simpl; try reflexivity; exfalso; Z.div_mod_to_equations; lia. }
    unfold days_in_month in *. rewrite Hleap. destruct (m =? 2); exact Hd.
Qed.

Lemma between_intro lo x hi : lo <= x <= hi -> between lo x hi = true.
Proof. unfold between. rewrite andb_true_iff, !Z.leb_le. done. Qed.

Lemma datetime_add_valid now delta t :
  datetime_valid now = true -> datetime_add now delta = Ok t -> datetime_valid t = true.
Proof.
  intros Hnow. unfold datetime_add.
  set (us := to_micros now + delta).
  destruct (between 0 us MAX_MICROS) eqn:Hb; [|discriminate].
  intros [= <-]. apply between_true in Hb.
  unfold MAX_MICROS, US_PER_DAY, US_PER_SECOND in Hb.
  assert (Htz : match tzinfo now with
                | Some off => between (-86399) off 86399
                | None => true
                end = true).
  { unfold datetime_valid in Hnow. by apply andb_true_iff in Hnow as [_ ?]. }
  unfold of_micros, US_PER_DAY, US_PER_SECOND.
  assert (Hord : 1 <= us / (86400 * 1000000) + 1 <= 3652059)
    by (Z.div_mod_to_equations; lia).
  pose proof (ord2ymd_valid _ Hord) as Hymd.
  destruct (ord2ymd (us / (86400 * 1000000) + 1)) as [[y m] d].
  destruct Hymd as (Hy & Hm & Hd).
  unfold datetime_valid. cbn [year month day hour minute second microsecond tzinfo].
  rewrite Htz, andb_true_r.
  set (r := us mod (86400 * 1000000)).
  assert (Hr : 0 <= r < 86400 * 1000000) by (unfold r; apply Z.mod_pos_bound; lia).
  clearbody r.
  rewrite !between_intro by (first [assumption | Z.div_mod_to_equations; lia]).
  reflexivity.
Qed.

Lemma calculate_next_review_valid now d :
  datetime_valid now = true ->
  from_option datetime_valid true (next_review d) = true ->
  from_option datetime_valid true (next_review (fst (_calculate_next_review now d))) = true.
Proof.
  intros Hnow Hd. unfold _calculate_next_review.
  match goal with |- context [match ?x with Ok _ => _ | Raise _ => _ end] =>
    destruct x as [t|e] eqn:Hx end; [|exact Hd].
  cbn [fst next_review set_next_review from_option].
  assert (Hbind : forall r : result Z, (r ≫= datetime_add now) = Ok t ->
                  datetime_valid t = true).
  { intros [delta|e]; unfold mbind, result_bind; [|discriminate].
    by apply datetime_add_valid. }
  destruct (negb (graduated d)); [destruct (_ <? _)|].
  - destruct (py_index LEARNING_STEPS (learning_step d)) as [mi|];
      unfold mbind at 1, result_bind at 1 in Hx; [|discriminate].
    by apply Hbind in Hx.
  - by apply Hbind in Hx.
  - by apply Hbind in Hx.
Qed.

(** ** Every timestamp the engine holds is valid *)

Lemma record_valid_ext d d' :
  last_review d' = last_review d -> next_review d' = next_review d ->
  review_history d' = review_history d -> record_valid d' = record_valid d.
Proof. unfold record_valid. by intros -> -> ->. Qed.

Lemma process_learning_review_valid r d :
  record_valid (_process_learning_review r d) = record_valid d.
Proof.
  apply record_valid_ext; destruct r; try reflexivity;
    unfold _process_learning_review; destruct (_ <=? _); reflexivity.
Qed.

Lemma process_graduated_review_valid r d :
  record_valid (fst (_process_graduated_review r d)) = record_valid d.
Proof.
  unfold _process_graduated_review.
  destruct r; try reflexivity;
    (destruct (graduated_interval _ _); apply record_valid_ext; reflexivity).
Qed.

Lemma calculate_next_review_record_valid now d :
  datetime_valid now = true -> record_valid d = true ->
  record_valid (fst (_calculate_next_review now d)) = true.
Proof.
  intros Hnow Hd. unfold record_valid in *.
  apply andb_true_iff in Hd as [Hd H3]. apply andb_true_iff in Hd as [H1 H2].
  destruct (calculate_next_review_fields now d)
    as (_ & _ & _ & _ & _ & _ & -> & -> & _).
  rewrite H1, H3, (calculate_next_review_valid now d Hnow H2). reflexivity.
Qed.

Lemma utc_now_valid t : utc_now t = true -> datetime_valid t = true.
Proof. unfold utc_now. intros H. by apply andb_true_iff in H as [? _]. Qed.

Lemma review_record_valid c r rt d :
  clock_ok c = true -> record_valid d = true ->
  record_valid (fst (review_record c r rt d)) = true.
Proof.
  intros Hc Hd. unfold clock_ok in Hc.
  apply andb_true_iff in Hc as [Hc Hn]. apply andb_true_iff in Hc as [Hh Hl].
  apply utc_now_valid in Hh, Hl, Hn.
  unfold review_record.
  set (d1 := set_last_review (Some (t_last c)) (add_review (t_history c) r rt d)).
  assert (H1 : record_valid d1 = true).
  { unfold record_valid in *. cbn [d1 last_review next_review review_history
                                   set_last_review add_review from_option].
    apply andb_true_iff in Hd as [Hd H3]. apply andb_true_iff in Hd as [_ H2].
    rewrite Hl, H2. cbn [andb]. rewrite forallb_app, H3. cbn [forallb fst andb].
    by rewrite Hh. }
  clearbody d1.
  assert (H2 : record_valid
                 (fst (if negb (graduated d1) then (_process_learning_review r d1, Ok tt)
                       else _process_graduated_review r d1)) = true).
  { destruct (negb (graduated d1)); cbn [fst].
    - by rewrite process_learning_review_valid.
    - by rewrite process_graduated_review_valid. }
  destruct (if negb (graduated d1) then _ else _) as [d2 res]. cbn [fst] in H2.
  destruct res; [|exact H2]. by apply calculate_next_review_record_valid.
Qed.

Lemma import_timestamp_valid o t :
  import_timestamp o = Ok t -> from_option datetime_valid true t = true.
Proof.
  destruct o as [s|]; unfold import_timestamp; [|by intros [= <-]].
  destruct (bool_decide _); [by intros [= <-]|].
  destruct (fromisoformat s) as [t'|] eqn:Hs; cbn [mbind result_bind mret result_ret];
    [|discriminate].
  intros [= <-]. cbn [from_option]. by apply (fromisoformat_valid s).
Qed.

Lemma import_history_valid h l :
  import_history h = Ok l -> forallb (fun x => datetime_valid (fst (fst x))) l = true.
Proof.
  revert l. induction h as [|[[ts v] time] h IH]; intros l; cbn [import_history].
  - by intros [= <-].
  - destruct (fromisoformat ts) as [t|] eqn:Hts; cbn [mbind result_bind]; [|discriminate].
    destruct (ReviewResult_of_value v) as [r|]; cbn [mbind result_bind]; [|discriminate].
    destruct (import_history h) as [tl|]; cbn [mbind result_bind mret result_ret];
      [|discriminate].
    intros [= <-]. cbn [forallb fst]. rewrite (fromisoformat_valid ts t Hts).
    by rewrite (IH tl eq_refl).
Qed.

Lemma import_record_valid c d : import_record c = Ok d -> record_valid d = true.
Proof.
  unfold import_record.
  destruct (import_timestamp (cd_last_review c)) as [lr|] eqn:H1;
    cbn [mbind result_bind]; [|discriminate].
  destruct (import_timestamp (cd_next_review c)) as [nr|] eqn:H2;
    cbn [mbind result_bind]; [|discriminate].
  destruct (import_history _) as [h|] eqn:H3;
    cbn [mbind result_bind mret result_ret]; [|discriminate].
  intros [= <-]. unfold record_valid. cbn [last_review next_review review_history].
  rewrite (import_timestamp_valid _ _ H1), (import_timestamp_valid _ _ H2).
  by rewrite (import_history_valid _ _ H3).
Qed.

Lemma run_ops_engine_valid ops (E : engine) :
  forallb op_clock_ok ops = true -> engine_valid E -> engine_valid (run_ops ops E).
Proof.
  revert E. induction ops as [|o ops IH]; intros E Hclk HE; simpl; [exact HE|].
  simpl in Hclk. apply andb_true_iff in Hclk as [Hc Hclk].
  apply IH; [exact Hclk|]. intros id d.
  destruct o as [c|now ids|now ids| |data]; simpl.
  - rewrite do_review_lookup. destruct (decide _) as [<-|]; [|apply HE].
    intros [= <-]. apply review_record_valid; [exact Hc|].
    destruct (E !! rc_card_id c) as [d0|] eqn:Hd; simpl;
      [exact (HE (rc_card_id c) d0 Hd)|reflexivity].
  - destruct (get_due_cards_engine now ids E) as (k & -> & _).
    intros H. apply with_defaults_record in H as [H| ->]; [exact (HE id d H)|reflexivity].
  - destruct (get_study_stats_engine now ids E) as (k & -> & _).
    intros H. apply with_defaults_record in H as [H| ->]; [exact (HE id d H)|reflexivity].
  - apply HE.
  - intros H. apply import_data_record in H as [H|(c & _ & Hc')]; [exact (HE id d H)|].
    by apply (import_record_valid c).
Qed.

(** C8. For every engine reached from a fresh one by reviews, queries,
    exports and imports (the clock readings being values of
    [datetime.now(timezone.utc)]), and every list of ids: importing the
    exported snapshot into a fresh engine succeeds and gives back the
    same dictionary, timestamps of the history and outcome tags
    included, so [get_study_stats] on it returns what it returns on the
    original at the same time. *)
Theorem export_import_roundtrip ops now ids :
  forallb op_clock_ok ops = true ->
  let E := run_ops ops new_engine in
  import_data (export_data E) new_engine = (E, Ok tt) /\
  snd (get_study_stats now ids (fst (import_data (export_data E) new_engine))) =
    snd (get_study_stats now ids E).
Proof.
  intros Hclk E.
  assert (HE : engine_valid E).
  { apply run_ops_engine_valid; [exact Hclk|].
    intros id d. unfold new_engine. by rewrite lookup_empty. }
  rewrite (import_data_export_data E HE). split; reflexivity.
Qed.

(** An instance: reviews, a query and an import with an offset and a
    naive timestamp. *)
Lemma export_import_roundtrip_witness :
  let ops := [Review (sample_call GOOD); Review (sample_call GOOD);
              Review (sample_call GOOD); Review (sample_call EASY);
              GetDue sample_now ["c2"%string];
              Import [("b"%string,
                       sample_entry (Some true) (Some 3)
                         (Some "2024-03-01T08:30:00.250000-05:00"%string) None
                         (Some [("2024-02-01T08:30:00"%string, 3, f_5_0)]))];
              Review (sample_call AGAIN)] in
  forallb op_clock_ok ops = true /\
  import_data (export_data (run_ops ops new_engine)) new_engine =
    (run_ops ops new_engine, Ok tt) /\
  snd (get_study_stats sample_now ["c1"; "b"; "zz"]%string
         (fst (import_data (export_data (run_ops ops new_engine)) new_engine))) =
    snd (get_study_stats sample_now ["c1"; "b"; "zz"]%string (run_ops ops new_engine)).
Proof.
  cbv zeta. split; [vm_compute; reflexivity|].
  apply (export_import_roundtrip
           [Review (sample_call GOOD); Review (sample_call GOOD);
            Review (sample_call GOOD); Review (sample_call EASY);
            GetDue sample_now ["c2"%string];
            Import [("b"%string,
                     sample_entry (Some true) (Some 3)
                       (Some "2024-03-01T08:30:00.250000-05:00"%string) None
                       (Some [("2024-02-01T08:30:00"%string, 3, f_5_0)]))];
            Review (sample_call AGAIN)]
           sample_now ["c1"; "b"; "zz"]%string).
  vm_compute; reflexivity.
Defined.

(** ** The scenarios of the specification *)

(** Three GOOD reviews of a new card: steps 1 and 2, then graduation with
    one repetition and an interval of one day. *)
Example scenario_graduation :
  (learning_step (card_after [GOOD]), graduated (card_after [GOOD])) = (1, false) /\
  (learning_step (card_after [GOOD; GOOD]), graduated (card_after [GOOD; GOOD])) = (2, false) /\
  (graduated (card_after [GOOD; GOOD; GOOD]), repetition (card_after [GOOD; GOOD; GOOD]),
   interval (card_after [GOOD; GOOD; GOOD])) = (true, 1, 1).
Proof. vm_compute. repeat split; reflexivity. Qed.

(** A fourth GOOD review: interval 6, two repetitions, ease factor 2.48;
    then AGAIN: back to learning with ease factor 2.28. *)
Example scenario_second_interval_and_lapse :
  let d4 := card_after [GOOD; GOOD; GOOD; GOOD] in
  let d5 := card_after [GOOD; GOOD; GOOD; GOOD; AGAIN] in
  (interval d4, repetition d4, ease_factor d4) = (6, 2, float_lit 248 100) /\
  (graduated d5, learning_step d5, repetition d5, interval d5, ease_factor d5) =
    (false, 0, 0, 1, float_lit 228 100).
Proof. vm_compute. split; reflexivity. Qed.

(** The statistics of a card never reviewed. *)
Example scenario_stats_of_new_card :
  snd (get_study_stats sample_now ["c1"%string] new_engine) =
    Ok (mk_stats 1 1 0 0 0 f_2_5 f_0_0 f_0_0 f_0_0).
Proof. vm_compute. reflexivity. Qed.

(** A card reviewed a minute ago is not due, a card never reviewed is. *)
Example scenario_due :
  snd (get_due_cards sample_now ["c1"; "b"]%string
         (run_reviews [sample_call GOOD; sample_call GOOD; sample_call GOOD] new_engine)) =
    Ok ["b"%string].
Proof. vm_compute. reflexivity. Qed.

(** * Further properties of the engine *)

(** ** What a review records *)

(** An invariant of the records holds after every sequence of reviews,
    queries and exports on a fresh engine when a new record has it and a
    review keeps it. *)
Lemma run_ops_invariant (P : ReviewData -> Prop) :
  P ReviewData0 ->
  (forall c r rt d, P d -> P (fst (review_record c r rt d))) ->
  forall ops (E : engine),
    import_free ops = true ->
    (forall id d, E !! id = Some d -> P d) ->
    forall id d, run_ops ops E !! id = Some d -> P d.
Proof.
  intros H0 Hstep ops. induction ops as [|o ops IH]; intros E Hops HE; simpl.
  - exact HE.
  - simpl in Hops. apply andb_true_iff in Hops as [Ho Hops].
    apply IH; [exact Hops|]. intros id d.
    destruct o as [c|now ids|now ids| |data]; simpl.
    + rewrite do_review_lookup. destruct (decide _) as [<-|]; [|apply HE].
      intros [= <-]. apply Hstep.
      destruct (E !! rc_card_id c) as [d0|] eqn:Hd; simpl;
        [exact (HE (rc_card_id c) d0 Hd)|exact H0].
    + destruct (get_due_cards_engine now ids E) as (k & -> & _).
      intros H. apply with_defaults_record in H as [H| ->]; [exact (HE id d H)|exact H0].
    + destruct (get_study_stats_engine now ids E) as (k & -> & _).
      intros H. apply with_defaults_record in H as [H| ->]; [exact (HE id d H)|exact H0].
    + apply HE.
    + discriminate.
Qed.

Lemma run_ops_invariant_fresh (P : ReviewData -> Prop) :
  P ReviewData0 ->
  (forall c r rt d, P d -> P (fst (review_record c r rt d))) ->
  forall ops id d,
    import_free ops = true -> run_ops ops new_engine !! id = Some d -> P d.
Proof.
  intros H0 Hstep ops id d Hops. apply (run_ops_invariant P H0 Hstep ops); try assumption.
  intros id' d'. unfold new_engine. by rewrite lookup_empty.
Qed.

(** What a review does to the fields, whatever its outcome and result. *)
Lemma review_record_log c r rt d :
  let d' := fst (review_record c r rt d) in
  review_history d' = review_history d ++ [(t_history c, r, rt)] /\
  total_reviews d' = total_reviews d + 1 /\
  total_time_spent d' = fadd (total_time_spent d) rt /\
  last_review d' = Some (t_last c).
Proof.
  cbv zeta. destruct (graduated d) eqn:Hg.
  - destruct (decide (r = AGAIN)) as [->|Hr].
    + unfold review_record.
      replace (graduated (set_last_review _ (add_review _ AGAIN rt d))) with true
        by (symmetry; exact Hg).
      unfold negb. unfold _process_graduated_review.
      match goal with |- context [_calculate_next_review ?t ?x] =>
        destruct (calculate_next_review_fields t x)
          as (_ & _ & _ & _ & _ & _ & -> & -> & -> & ->) end.
      repeat split; reflexivity.
    + rewrite (review_record_graduated c r rt d Hg Hr).
      destruct (graduated_interval _ _).
      * match goal with |- context [_calculate_next_review ?t ?x] =>
          destruct (calculate_next_review_fields t x)
            as (_ & _ & _ & _ & _ & _ & -> & -> & -> & ->) end.
        destruct r; repeat split; reflexivity.
      * destruct r; repeat split; reflexivity.
  - rewrite (review_record_learning c r rt d Hg).
    match goal with |- context [_calculate_next_review ?t ?x] =>
      destruct (calculate_next_review_fields t x)
        as (_ & _ & _ & _ & _ & _ & -> & -> & -> & ->) end.
    destruct r; unfold _process_learning_review; try (repeat split; reflexivity);
      destruct (_ <=? _); repeat split; reflexivity.
Qed.


(** ** The learning phase *)

(** The phase of a card after a review, from its phase before. *)
Lemma review_record_phase c r rt d :
  let d' := fst (review_record c r rt d) in
  (graduated d = false ->
     match r with
     | AGAIN => graduated d' = false /\ learning_step d' = 0
     | HARD => graduated d' = false /\ learning_step d' = learning_step d
     | _ => graduated d' = (3 <=? learning_step d + 1) /\
            learning_step d' = learning_step d + 1
     end) /\
  (graduated d = true ->
     match r with
     | AGAIN => graduated d' = false /\ learning_step d' = 0
     | _ => graduated d' = true /\ learning_step d' = learning_step d
     end).
Proof.
  cbv zeta. split; intros Hg.
  - rewrite (review_record_learning c r rt d Hg).
    match goal with |- context [_calculate_next_review ?t ?x] =>
      destruct (calculate_next_review_fields t x)
        as (_ & _ & _ & -> & -> & _) end.
    destruct r; unfold _process_learning_review; cbn [set_learning_step learning_step graduated
      add_review set_last_review];
      try (split; [exact Hg|reflexivity]);
      change (Z.of_nat (length LEARNING_STEPS)) with 3;
      destruct (3 <=? learning_step d + 1); split; try reflexivity; exact Hg.
  - destruct (decide (r = AGAIN)) as [->|Hr].
    + destruct (graduated_lapse_penalty c rt d Hg) as (_ & H1 & _ & _ & H2). by split.
    + rewrite (review_record_graduated c r rt d Hg Hr).
      destruct (graduated_interval _ _).
      * match goal with |- context [_calculate_next_review ?t ?x] =>
          destruct (calculate_next_review_fields t x)
            as (_ & _ & _ & -> & -> & _) end.
        destruct r; try congruence; split; try exact Hg; reflexivity.
      * destruct r; try congruence; split; try exact Hg; reflexivity.
Qed.

Lemma run_ops_learning_step ops id d :
  import_free ops = true ->
  run_ops ops new_engine !! id = Some d ->
  0 <= learning_step d /\ (graduated d = false -> learning_step d <= 2).
Proof.
  apply (run_ops_invariant_fresh
           (fun d => 0 <= learning_step d /\ (graduated d = false -> learning_step d <= 2))).
  - simpl. lia.
  - clear. intros c r rt d [H0 H].
    destruct (review_record_phase c r rt d) as [Hl Hgr].
    destruct (graduated d) eqn:Hg.
    + specialize (Hgr eq_refl). destruct r; destruct Hgr as [Hg' Hs]; rewrite Hs;
        split; try lia; intros; congruence.
    + specialize (Hl eq_refl). specialize (H eq_refl).
      destruct r; destruct Hl as [Hg' Hs]; rewrite Hs, ?Hg'; split; try lia;
        destruct (Z.leb_spec 3 (learning_step d + 1)); intros; try congruence; lia.
Qed.

Lemma py_index_LEARNING_STEPS i :
  0 <= i <= 2 ->
  exists minutes, py_index LEARNING_STEPS i = Ok minutes /\ minutes ∈ LEARNING_STEPS /\
                  1 <= minutes <= 1440.
Proof.
  intros Hi. assert (Hc : i = 0 \/ i = 1 \/ i = 2) by lia. clear Hi.
  destruct Hc as [-> | [-> | ->]]; eexists; (split; [reflexivity|]);
    (split; [unfold LEARNING_STEPS; set_solver by idtac|lia]).
Qed.

(** X2. On an engine that was never loaded from a snapshot, a card that
    has not graduated has a learning step that is an index of
    [LEARNING_STEPS]: computing its next review date never raises
    [IndexError] and never takes the one-day fallback branch. *)
Theorem learning_step_in_range ops id d :
  import_free ops = true ->
  run_ops ops new_engine !! id = Some d ->
  graduated d = false ->
  0 <= learning_step d < Z.of_nat (length LEARNING_STEPS) /\
  exists minutes, py_index LEARNING_STEPS (learning_step d) = Ok minutes /\
                  minutes ∈ LEARNING_STEPS.
Proof.
  intros Hops Hd Hg.
  destruct (run_ops_learning_step ops id d Hops Hd) as [H0 H]. specialize (H Hg).
  change (Z.of_nat (length LEARNING_STEPS)) with 3. split; [lia|].
  destruct (py_index_LEARNING_STEPS (learning_step d)) as (m & Hm & Hin & _); [lia|].
  exists m. by split.
Qed.

(** An instance: card c1 after GOOD, GOOD, AGAIN, GOOD. *)
Lemma learning_step_in_range_witness :
  let ops := Review <$> (sample_call <$> [GOOD; GOOD; AGAIN; GOOD]) in
  exists d, (import_free ops = true /\ run_ops ops new_engine !! "c1"%string = Some d /\
             graduated d = false) /\
            0 <= learning_step d < Z.of_nat (length LEARNING_STEPS) /\
            exists minutes, py_index LEARNING_STEPS (learning_step d) = Ok minutes /\
                            minutes ∈ LEARNING_STEPS.
Proof.
  eexists. split.
  - split; [|split]; vm_compute; reflexivity.
  - eapply (learning_step_in_range
              (Review <$> (sample_call <$> [GOOD; GOOD; AGAIN; GOOD])) "c1"%string);
      vm_compute; reflexivity.
Defined.

Lemma count_successful_app h x :
  count_successful (h ++ [x]) =
  count_successful h + (if is_success (snd (fst x)) then 1 else 0).
Proof.
  unfold count_successful. rewrite filter_app, length_app, Nat2Z.inj_add. f_equal.
  destruct (is_success (snd (fst x))) eqn:Hs.
  - rewrite filter_cons_True by exact Hs. reflexivity.
  - rewrite filter_cons_False by (rewrite Hs; discriminate). reflexivity.
Qed.

(** X3. On an engine that was never loaded from a snapshot, a card is
    graduated only after at least three successful reviews (GOOD or
    EASY): its history holds at least three of them, and while it is in
    the learning phase its learning step is at most their number. *)
Theorem graduation_needs_three_successes ops id d :
  import_free ops = true ->
  run_ops ops new_engine !! id = Some d ->
  (graduated d = true -> 3 <= count_successful (review_history d)) /\
  (graduated d = false -> learning_step d <= count_successful (review_history d)).
Proof.
  apply (run_ops_invariant_fresh
           (fun d => (graduated d = true -> 3 <= count_successful (review_history d)) /\
                     (graduated d = false ->
                      learning_step d <= count_successful (review_history d)))).
  - split; [discriminate|]. intros _. vm_compute. discriminate.
  - clear. intros c r rt d [Ht Hf].
    destruct (review_record_log c r rt d) as (Hh & _).
    destruct (review_record_phase c r rt d) as [Hl Hgr].
    rewrite Hh, count_successful_app. cbn [fst snd].
    assert (H0 : 0 <= count_successful (review_history d))
      by (unfold count_successful; lia).
    destruct (graduated d) eqn:Hg.
    + specialize (Hgr eq_refl). specialize (Ht eq_refl).
      destruct r; destruct Hgr as [-> ->]; cbn [is_success];
        (split; [intros; try discriminate; lia|intros; try discriminate; lia]).
    + specialize (Hl eq_refl). specialize (Hf eq_refl).
      destruct r; destruct Hl as [-> ->]; cbn [is_success];
        try (split; [intros; try discriminate; lia|intros; try discriminate; lia]);
        (split; [intros H%Z.leb_le; lia|intros; lia]).
Qed.

(** An instance: card c1 after three GOOD reviews. *)
Lemma graduation_needs_three_successes_witness :
  let ops := Review <$> (sample_call <$> [GOOD; GOOD; GOOD]) in
  exists d, (import_free ops = true /\ run_ops ops new_engine !! "c1"%string = Some d) /\
            (graduated d = true -> 3 <= count_successful (review_history d)) /\
            (graduated d = false -> learning_step d <= count_successful (review_history d)).
Proof.
  eexists. split.
  - split; vm_compute; reflexivity.
  - eapply (graduation_needs_three_successes
              (Review <$> (sample_call <$> [GOOD; GOOD; GOOD])) "c1"%string);
      vm_compute; reflexivity.
Defined.

(** ** The fields [add_review] maintains *)

(** [response_times] after one more review, in terms of the history. *)
Lemma last_50_snoc {A} (l : list A) (x : A) :
  (if 50 <? Z.of_nat (length (last_50 l ++ [x])) then last_50 (last_50 l ++ [x])
   else last_50 l ++ [x]) = last_50 (l ++ [x]).
Proof.
  unfold last_50. rewrite !length_app, !length_drop. cbn [length].
  destruct (le_lt_dec 50 (length l)) as [Hge|Hlt].
  - replace (length l - (length l - 50) + 1)%nat with 51%nat by lia.
    change (50 <? Z.of_nat 51) with true. cbn match.
    change (51 - 50)%nat with 1%nat.
    rewrite drop_app_le by (rewrite length_drop; lia).
    rewrite drop_drop.
    rewrite drop_app_le by lia. do 2 f_equal. lia.
  - replace (length l - 50)%nat with 0%nat by lia. rewrite drop_0.
    replace (length l - 0 + 1)%nat with (length l + 1)%nat by lia.
    destruct (Z.ltb_spec 50 (Z.of_nat (length l + 1))); [lia|].
    replace (length l + 1 - 50)%nat with 0%nat by lia. reflexivity.
Qed.

(** X4. On an engine that was never loaded from a snapshot the fields
    kept by [add_review] agree with the history of the card:
    [total_reviews] is the length of the history, [response_times] holds
    the response times of its last 50 entries in order, and
    [total_time_spent] is their sum over the whole history, added from
    left to right in floating point. *)
Theorem bookkeeping_follows_history ops id d :
  import_free ops = true ->
  run_ops ops new_engine !! id = Some d ->
  total_reviews d = Z.of_nat (length (review_history d)) /\
  response_times d = last_50 (snd <$> review_history d) /\
  total_time_spent d = fold_left fadd (snd <$> review_history d) f_0_0.
Proof.
  apply (run_ops_invariant_fresh
           (fun d => total_reviews d = Z.of_nat (length (review_history d)) /\
                     response_times d = last_50 (snd <$> review_history d) /\
                     total_time_spent d = fold_left fadd (snd <$> review_history d) f_0_0)).
  - repeat split.
  - clear. intros c r rt d (H1 & H2 & H3).
    destruct (review_record_log c r rt d) as (Hh & Hn & Ht & _).
    rewrite Hh, Hn, Ht, review_record_response_times.
    rewrite fmap_app, length_app, fold_left_app. cbn [fmap list_fmap snd length fold_left].
    split; [lia|]. split; [|by rewrite H3].
    unfold add_review. cbn [response_times]. rewrite H2. apply last_50_snoc.
Qed.

(** An instance: sixty reviews of card c1. *)
Lemma bookkeeping_follows_history_witness :
  let ops := Review <$> (sample_call <$> replicate 60 GOOD) in
  exists d, (import_free ops = true /\ run_ops ops new_engine !! "c1"%string = Some d) /\
            total_reviews d = Z.of_nat (length (review_history d)) /\
            response_times d = last_50 (snd <$> review_history d) /\
            total_time_spent d = fold_left fadd (snd <$> review_history d) f_0_0.
Proof.
  eexists. split.
  - split; vm_compute; reflexivity.
  - eapply (bookkeeping_follows_history
              (Review <$> (sample_call <$> replicate 60 GOOD)) "c1"%string);
      vm_compute; reflexivity.
Defined.

(** ** The direction in which a review moves the ease factor *)

Lemma lex_le_refl e m : lex_le e m e m.
Proof. unfold lex_le. lia. Qed.

Lemma ease_sub_le x mc ec :
  ease_ok x = true ->
  2 ^ 52 <= Zpos mc < 2 ^ 53 -> -1074 <= ec <= -55 ->
  SFleb (float_max MIN_EASE_FACTOR (fsub x (S754_finite false mc ec))) x = true.
Proof.
  intros Hx Hmc Hec.
  destruct (ease_ok_shape x Hx) as (m & e & -> & Hn & He & L & _).
  destruct (fsub_le m e mc ec) as (m3 & e3 & E & Hn3 & Hle); try assumption; try lia.
  rewrite E. unfold float_max.
  destruct (SFltb MIN_EASE_FACTOR (S754_finite false m3 e3)); [|exact L].
  apply SFleb_finite. exact Hle.
Qed.

Lemma ease_add_ge x :
  ease_ok x = true -> SFleb x (float_min MAX_EASE_FACTOR (fadd x f_0_1)) = true.
Proof.
  intros Hx.
  destruct (ease_ok_shape x Hx) as (m & e & -> & Hn & He & _ & U).
  unfold float_min, f_0_1.
  destruct (fadd_ge m e 7205759403792794 (-56)) as [E|(m3 & e3 & E & Hn3 & Hle)];
    try assumption; try lia; rewrite E.
  - exact U.
  - destruct (SFltb (S754_finite false m3 e3) MAX_EASE_FACTOR); [|exact U].
    apply SFleb_finite. exact Hle.
Qed.

Lemma SFleb_refl_ease x : ease_ok x = true -> SFleb x x = true.
Proof.
  intros Hx. destruct (ease_ok_shape x Hx) as (m & e & -> & _).
  apply SFleb_finite, lex_le_refl.
Qed.

(** The ease factor after a review. *)
Lemma review_record_ease c r rt d :
  ease_factor (fst (review_record c r rt d)) =
  if graduated d then
    match r with
    | AGAIN => float_max MIN_EASE_FACTOR (fsub (ease_factor d) f_0_2)
    | HARD => float_max MIN_EASE_FACTOR (fsub (ease_factor d) f_0_15)
    | GOOD => float_max MIN_EASE_FACTOR (fsub (ease_factor d) f_0_02)
    | EASY => float_min MAX_EASE_FACTOR (fadd (ease_factor d) f_0_1)
    end
  else ease_factor d.
Proof.
  destruct (graduated d) eqn:Hg.
  - destruct (decide (r = AGAIN)) as [->|Hr].
    + by destruct (graduated_lapse_penalty c rt d Hg) as (-> & _).
    + rewrite (review_record_graduated c r rt d Hg Hr).
      destruct (graduated_interval _ _).
      * match goal with |- context [_calculate_next_review ?t ?x] =>
          destruct (calculate_next_review_fields t x) as (-> & _) end.
        destruct r; try congruence; reflexivity.
      * destruct r; try congruence; reflexivity.
  - rewrite (review_record_learning c r rt d Hg).
    match goal with |- context [_calculate_next_review ?t ?x] =>
      destruct (calculate_next_review_fields t x) as (-> & _) end.
    destruct r; unfold _process_learning_review; try reflexivity;
      destruct (_ <=? _); reflexivity.
Qed.

(** X5. The direction of the ease factor: for an ease factor in its
    range, a review answered AGAIN, HARD or GOOD never raises it (GOOD
    lowers it by 0.02 down to the minimum), one answered EASY never
    lowers it, and a review in the learning phase leaves it as it is. *)
Theorem ease_factor_direction c r rt d :
  ease_ok (ease_factor d) = true ->
  let e := ease_factor d in
  let e' := ease_factor (fst (review_record c r rt d)) in
  match r with
  | EASY => SFleb e e' = true
  | _ => SFleb e' e = true
  end /\
  (graduated d = false -> e' = e) /\
  (graduated d = true -> r = GOOD ->
   e' = float_max MIN_EASE_FACTOR (fsub e f_0_02)).
Proof.
  intros Hx. cbv zeta. rewrite review_record_ease.
  destruct (graduated d).
  - split; [|split; [discriminate|intros _ ->; reflexivity]].
    destruct r.
    + apply ease_sub_le; [assumption|simpl; lia|lia].
    + apply ease_sub_le; [assumption|simpl; lia|lia].
    + apply ease_sub_le; [assumption|simpl; lia|lia].
    + apply ease_add_ge; assumption.
  - split; [|split; [reflexivity|discriminate]].
    destruct r; apply SFleb_refl_ease; assumption.
Qed.

(** An instance: a GOOD review of the graduated card c1. *)
Lemma ease_factor_direction_witness :
  let d := card_after [GOOD; GOOD; GOOD] in
  let e := ease_factor d in
  let e' := ease_factor (fst (review_record sample_clock GOOD f_5_0 d)) in
  ease_ok (ease_factor d) = true /\
  SFleb e' e = true /\
  (graduated d = false -> e' = e) /\
  (graduated d = true -> GOOD = GOOD ->
   e' = float_max MIN_EASE_FACTOR (fsub e f_0_02)).
Proof.
  split; [vm_compute; reflexivity|].
  apply (ease_factor_direction sample_clock GOOD f_5_0 (card_after [GOOD; GOOD; GOOD])).
  vm_compute; reflexivity.
Defined.

(** ** Growth of the interval of a graduated card *)

(** [float(n)] is exact for [1 <= n < 2 ^ 53]. *)
Lemma float_of_Z_exact n :
  1 <= n < 2 ^ 53 ->
  exists m e, float_of_Z n = S754_finite false m e /\ normal m e /\ -52 <= e <= 0 /\
              Zpos m = n * 2 ^ (- e).
Proof.
  intros Hn. destruct n as [|p|p]; try lia.
  unfold float_of_Z. simpl binary_normalize. unfold binary_round.
  pose proof (digits2_bounds p) as [Dl Du].
  set (d := Zpos (digits2_pos p)) in *.
  assert (Hd0 : 1 <= d) by (unfold d; lia).
  assert (Hd53 : d <= 53).
  { destruct (Z.le_gt_cases d 53) as [|Hgt]; [assumption|exfalso].
    assert (2 ^ 53 <= 2 ^ (d - 1)) by (apply Z.pow_le_mono_r; lia). lia. }
  rewrite Z.add_0_r, fexp_normal by lia.
  destruct (shl_align_le p 0 (d - 53) ltac:(lia)) as (m' & -> & Hm').
  replace (0 - (d - 53)) with (53 - d) in Hm' by lia.
  assert (Hp : 0 < 2 ^ (53 - d)) by (apply Z.pow_pos_nonneg; lia).
  assert (E1 : 2 ^ (d - 1) * 2 ^ (53 - d) = 2 ^ 52).
  { rewrite <- Z.pow_add_r by lia. f_equal. lia. }
  assert (E2 : 2 ^ d * 2 ^ (53 - d) = 2 ^ 53).
  { rewrite <- Z.pow_add_r by lia. f_equal. lia. }
  assert (Hm52 : 2 ^ 52 <= Zpos m' < 2 ^ 53) by nia.
  pose proof (digits2_unique m' 53 ltac:(simpl; lia)) as Ed.
  destruct (bra_normal m' (d - 53)) as (m3 & e3 & Hr & Hm3 & Hc).
  { rewrite Ed. lia. }
  { rewrite Ed. lia. }
  rewrite Ed in Hc. change (53 - 53) with 0 in Hc. change (2 ^ 0) with 1 in Hc.
  rewrite Z.div_1_r, Z.mod_1_r in Hc.
  destruct Hc as [[E3 E4]|[(_ & _ & N)|(_ & _ & _ & N)]]; try congruence.
  exists m3, e3. rewrite Hr.
  destruct (Z.leb_spec e3 971); [|lia].
  split; [reflexivity|]. split; [split; lia|]. split; [lia|].
  rewrite E4, Hm'. do 2 f_equal. lia.
Qed.

Lemma int_of_float_exact n m e :
  -52 <= e <= 0 -> Zpos m = n * 2 ^ (- e) ->
  int_of_float (S754_finite false m e) = Ok n.
Proof.
  intros He Hm. simpl. f_equal.
  destruct (Z.leb_spec 0 e).
  - replace e with 0 in * by lia. simpl in *. lia.
  - rewrite Hm. apply Z.div_mul.
    assert (0 < 2 ^ (- e)) by (apply Z.pow_pos_nonneg; lia). lia.
Qed.

(** [int] is monotone on the normal floats. *)
Lemma int_of_float_mono mb eb m3 e3 i n :
  normal mb eb -> normal m3 e3 -> lex_le eb mb e3 m3 ->
  int_of_float (S754_finite false mb eb) = Ok i ->
  int_of_float (S754_finite false m3 e3) = Ok n -> i <= n.
Proof.
  intros [Hmb _] [Hm3 _] Hle. simpl. intros [= <-] [= <-].
  destruct Hle as [Hlt|[-> Hm]].
  - destruct (Z.leb_spec 0 eb) as [Hb|Hb]; destruct (Z.leb_spec 0 e3) as [H3|H3]; try lia.
    + rewrite (pow2_split e3 eb) by lia.
      assert (0 < 2 ^ eb) by (apply Z.pow_pos_nonneg; lia).
      assert (2 ^ 1 <= 2 ^ (e3 - eb)) by (apply Z.pow_le_mono_r; lia).
      change (2 ^ 1) with 2 in *.
      assert (Z.pos mb <= Z.pos m3 * 2 ^ (e3 - eb)) by nia.
      rewrite Z.mul_assoc. apply Z.mul_le_mono_nonneg_r; lia.
    + assert (1 <= 2 ^ e3) by (change 1 with (2 ^ 0); apply Z.pow_le_mono_r; lia).
      assert (2 ^ 1 <= 2 ^ (- eb)) by (apply Z.pow_le_mono_r; lia).
      change (2 ^ 1) with 2 in *.
      assert (Z.pos mb / 2 ^ (- eb) < 2 ^ 52).
      { apply Z.div_lt_upper_bound; [lia|]. nia. }
      nia.
    + rewrite (pow2_split (- eb) (- e3)) by lia.
      assert (0 < 2 ^ (- e3)) by (apply Z.pow_pos_nonneg; lia).
      assert (2 ^ 1 <= 2 ^ (- eb - - e3)) by (apply Z.pow_le_mono_r; lia).
      change (2 ^ 1) with 2 in *.
      rewrite <- Z.div_div by lia.
      apply Z.div_le_mono; [lia|].
      assert (Z.pos mb / 2 ^ (- eb - - e3) < 2 ^ 52).
      { apply Z.div_lt_upper_bound; [lia|]. nia. }
      lia.
  - destruct (Z.leb_spec 0 e3).
    + assert (0 < 2 ^ e3) by (apply Z.pow_pos_nonneg; lia). nia.
    + assert (0 < 2 ^ (- e3)) by (apply Z.pow_pos_nonneg; lia).
      apply Z.div_le_mono; lia.
Qed.

(** A product with a factor that is at least 1.0 is not below the other
    factor. *)
Lemma fmul_ge_left mx ex y :
  normal mx ex -> -52 <= ex -> ge_one y ->
  fmul (S754_finite false mx ex) y = S754_infinity false \/
  exists m3 e3, fmul (S754_finite false mx ex) y = S754_finite false m3 e3 /\
                normal m3 e3 /\ lex_le ex mx e3 m3.
Proof.
  intros Hn Hex [->|(my & ey & -> & [Hmy Hey] & Hy)]; [left; reflexivity|].
  pose proof Hn as [Hmx Hex'].
  unfold fmul, SFmul. simpl xorb.
  assert (Hprod : 2 ^ 104 <= Zpos (mx * my)).
  { rewrite Pos2Z.inj_mul. change (2 ^ 104) with (2 ^ 52 * 2 ^ 52). nia. }
  assert (Hd : 105 <= Zpos (digits2_pos (mx * my))) by (apply digits2_ge; exact Hprod).
  apply round_ge; try lia; [exact Hn|].
  destruct (Z.le_gt_cases ey 0) as [H0|H0]; [left|right; lia].
  split; [lia|]. replace (ex - (ex + ey)) with (- ey) by lia.
  rewrite Pos2Z.inj_mul.
  assert (2 ^ (- ey) <= 2 ^ 52) by (apply Z.pow_le_mono_r; lia). nia.
Qed.

Lemma graduated_interval_grows r d n :
  2 <= repetition d -> r <> AGAIN ->
  ease_ok (ease_factor d) = true -> 1 <= interval d < 2 ^ 53 ->
  graduated_interval r d = Ok n -> interval d <= n.
Proof.
  intros Hrep Hr He Hi. unfold graduated_interval.
  destruct (Z.eqb_spec (repetition d) 0); [lia|].
  destruct (Z.eqb_spec (repetition d) 1); [lia|].
  destruct (float_of_Z_exact (interval d) Hi) as (mi & ei & Ef & Hni & Hei & Hmi).
  pose proof (int_of_float_exact _ _ _ Hei Hmi) as Hint.
  assert (Hfi : float_of_int (interval d) = Ok (S754_finite false mi ei))
    by (unfold float_of_int; rewrite Ef; reflexivity).
  unfold int_mul_float. rewrite Hfi. cbn [mbind result_bind mret result_ret].
  assert (Hstep : forall y k, ge_one y ->
            int_of_float (fmul (S754_finite false mi ei) y) = Ok k -> interval d <= k).
  { intros y k Hy.
    destruct (fmul_ge_left mi ei y Hni ltac:(lia) Hy) as [->|(m3 & e3 & -> & Hn3 & Hl)];
      [discriminate|].
    intros Hk. eapply int_of_float_mono; [exact Hni|exact Hn3|exact Hl|exact Hint|exact Hk]. }
  destruct r; [congruence| | |].
  - destruct (int_of_float (fmul _ _)) as [k|] eqn:Hk; [|discriminate].
    simpl. intros [= <-].
    pose proof (Hstep HARD_INTERVAL_FACTOR k) as H.
    assert (interval d <= k); [|lia]. apply H; [|exact Hk].
    right. eexists _, _. split; [reflexivity|]. split; [split; simpl; lia|lia].
  - apply Hstep. by apply ease_ok_ge_one.
  - destruct (fmul_ge_left mi ei (ease_factor d) Hni ltac:(lia) (ease_ok_ge_one _ He))
      as [->|(m3 & e3 & -> & Hn3 & Hl)]; [discriminate|].
    destruct (fmul_ge_left m3 e3 EASY_INTERVAL_FACTOR Hn3) as [->|(m4 & e4 & -> & Hn4 & Hl4)].
    + unfold lex_le in Hl. lia.
    + apply EASY_INTERVAL_FACTOR_ge_one.
    + discriminate.
    + intros Hk. eapply int_of_float_mono; [exact Hni|exact Hn4| |exact Hint|exact Hk].
      eapply lex_le_trans; eassumption.
Qed.

(** The interval and the repetition count after a review. *)
Lemma review_record_interval_graduated c r rt d :
  graduated d = true -> r <> AGAIN ->
  let d' := fst (review_record c r rt d) in
  match graduated_interval r (_update_ease_factor r d) with
  | Ok n => interval d' = n /\ repetition d' = repetition d + 1
  | Raise _ => interval d' = interval d /\ repetition d' = repetition d
  end.
Proof.
  intros Hg Hr. cbv zeta. rewrite (review_record_graduated c r rt d Hg Hr).
  assert (E : graduated_interval r
                (_update_ease_factor r
                   (set_last_review (Some (t_last c)) (add_review (t_history c) r rt d))) =
              graduated_interval r (_update_ease_factor r d))
    by (destruct r; reflexivity).
  rewrite E.
  destruct (graduated_interval r (_update_ease_factor r d)).
  - match goal with |- context [_calculate_next_review ?t ?x] =>
      destruct (calculate_next_review_fields t x) as (_ & -> & -> & _) end.
    destruct r; try congruence; split; reflexivity.
  - destruct r; try congruence; split; reflexivity.
Qed.

Lemma review_record_interval_graduating c r rt d :
  graduated d = false ->
  let d' := fst (review_record c r rt d) in
  graduated d' = true ->
  repetition d' = 1 /\ interval d' = (if decide (r = EASY) then EASY_INTERVAL
                                      else GRADUATING_INTERVAL).
Proof.
  intros Hg. cbv zeta. rewrite (review_record_learning c r rt d Hg).
  match goal with |- context [_calculate_next_review ?t ?x] =>
    destruct (calculate_next_review_fields t x) as (_ & -> & -> & -> & _) end.
  destruct r; unfold _process_learning_review;
    cbn [set_learning_step learning_step graduated add_review set_last_review];
    try (intros; congruence);
    destruct (_ <=? _); cbn; intros; try congruence; split; reflexivity.
Qed.

(** X6. On an engine that was never loaded from a snapshot, a review of a
    graduated card that is answered HARD, GOOD or EASY never shortens its
    interval (for intervals below 2^53 days): the product with the ease
    factor or with 1.2 is rounded and then truncated, and neither step
    takes it below the old interval. *)
Theorem graduated_interval_never_shrinks ops id d c r rt :
  import_free ops = true ->
  run_ops ops new_engine !! id = Some d ->
  graduated d = true -> r <> AGAIN -> interval d < 2 ^ 53 ->
  1 <= interval d <= interval (fst (review_record c r rt d)).
Proof.
  intros Hops Hd Hg Hr Hi.
  assert (H : record_ok d = true /\
              (graduated d = true -> 1 <= repetition d /\ (repetition d = 1 -> interval d <= 6))).
  { revert Hops Hd. clear. revert ops id d.
    apply (run_ops_invariant_fresh
             (fun d => record_ok d = true /\
                (graduated d = true ->
                 1 <= repetition d /\ (repetition d = 1 -> interval d <= 6)))).
    - split; [vm_compute; reflexivity|discriminate].
    - intros c r rt d [Hok H]. split; [by apply review_record_ok|].
      intros Hg'. destruct (graduated d) eqn:Hg.
      + destruct (decide (r = AGAIN)) as [->|Hr].
        * destruct (graduated_lapse_penalty c rt d Hg) as (_ & Hf & _). congruence.
        * pose proof (review_record_interval_graduated c r rt d Hg Hr) as Hs.
          cbv zeta in Hs. specialize (H eq_refl).
          destruct (graduated_interval _ _); destruct Hs as [-> ->]; lia.
      + destruct (review_record_interval_graduating c r rt d Hg Hg') as [-> ->].
        destruct (decide _); unfold EASY_INTERVAL, GRADUATING_INTERVAL; lia. }
  destruct H as [Hok H]. specialize (H Hg). destruct H as [Hrep H1].
  apply record_ok_iff in Hok as [He Hint]. specialize (Hint Hg). split; [exact Hint|].
  pose proof (review_record_interval_graduated c r rt d Hg Hr) as Hs. cbv zeta in Hs.
  destruct (graduated_interval r (_update_ease_factor r d)) as [n|] eqn:Hn;
    destruct Hs as [-> _]; [|lia].
  destruct (Z.eq_dec (repetition d) 1) as [E1|N1].
  - unfold graduated_interval in Hn.
    replace (repetition (_update_ease_factor r d)) with (repetition d) in Hn
      by (destruct r; reflexivity).
    rewrite E1 in Hn. simpl in Hn. injection Hn as <-. lia.
  - destruct (update_ease_factor_fields r d) as (Ei & Er & _).
    cbv zeta in Ei, Er.
    rewrite <- Ei. apply (graduated_interval_grows r); rewrite ?Ei, ?Er; try lia; try assumption.
    by apply ease_ok_update.
Qed.

(** An instance: EASY on card c1 after five GOOD reviews (interval 6). *)
Lemma graduated_interval_never_shrinks_witness :
  let ops := Review <$> (sample_call <$> replicate 5 GOOD) in
  exists d, (import_free ops = true /\ run_ops ops new_engine !! "c1"%string = Some d /\
             graduated d = true /\ EASY <> AGAIN /\ interval d < 2 ^ 53) /\
            1 <= interval d <= interval (fst (review_record sample_clock EASY f_5_0 d)).
Proof.
  eexists. split.
  - split; [|split; [|split; [|split]]];
      [vm_compute; reflexivity|vm_compute; reflexivity|vm_compute; reflexivity
      |discriminate|vm_compute; reflexivity].
  - eapply (graduated_interval_never_shrinks
              (Review <$> (sample_call <$> replicate 5 GOOD)) "c1"%string);
      [vm_compute; reflexivity|vm_compute; reflexivity|vm_compute; reflexivity
      |discriminate|vm_compute; reflexivity].
Defined.

(** ** The calendar arithmetic of the schedule *)

Lemma month_day_inv_all leapyear n : 0 <= n <= 364 -> month_day_inv leapyear n = true.
Proof.
  intros Hn.
  assert (H : forallb (fun b => forallb (month_day_inv b) (Z.of_nat <$> seq 0 365))
                [true; false] = true) by (vm_compute; reflexivity).
  rewrite forallb_forall in H. specialize (H leapyear).
  rewrite forallb_forall in H. apply H.
  - destruct leapyear; simpl; auto.
  - apply list_elem_of_In, list_elem_of_fmap. exists (Z.to_nat n).
    split; [lia|]. apply list_elem_of_In, in_seq. lia.
Qed.

(** The ordinal of the date of an ordinal. *)
Lemma ymd2ord_ord2ymd n :
  1 <= n <= 3652059 ->
  let '(y, m, d) := ord2ymd n in ymd2ord y m d = n.
Proof.
  intros Hn. unfold ord2ymd, DI400Y, DI100Y, DI4Y.
  set (n0 := n - 1).
  set (n400 := n0 / 146097). set (r1 := n0 mod 146097).
  set (n100 := r1 / 36524). set (r2 := r1 mod 36524).
  set (n4 := r2 / 1461). set (r3 := r2 mod 1461).
  set (n1 := r3 / 365). set (r4 := r3 mod 365).
  assert (H1 : n0 = 146097 * n400 + r1 /\ 0 <= r1 < 146097)
    by (unfold n400, r1; split; [apply Z.div_mod; lia|apply Z.mod_pos_bound; lia]).
  assert (H2 : r1 = 36524 * n100 + r2 /\ 0 <= r2 < 36524)
    by (unfold n100, r2; split; [apply Z.div_mod; lia|apply Z.mod_pos_bound; lia]).
  assert (H3 : r2 = 1461 * n4 + r3 /\ 0 <= r3 < 1461)
    by (unfold n4, r3; split; [apply Z.div_mod; lia|apply Z.mod_pos_bound; lia]).
  assert (H4 : r3 = 365 * n1 + r4 /\ 0 <= r4 < 365)
    by (unfold n1, r4; split; [apply Z.div_mod; lia|apply Z.mod_pos_bound; lia]).
  assert (Hn0 : 0 <= n0 <= 3652058 /\ n = n0 + 1) by (unfold n0; lia).
  clearbody n0 n400 r1 n100 r2 n4 r3 n1 r4.
  assert (Hb : 0 <= n400 /\ 0 <= n100 <= 4 /\ 0 <= n4 <= 24 /\ 0 <= n1 <= 4) by lia.
  destruct ((n1 =? 4) || (n100 =? 4)) eqn:Hlast.
  - apply orb_true_iff in Hlast. rewrite !Z.eqb_eq in Hlast.
    set (y := n400 * 400 + 1 + n100 * 100 + n4 * 4 + n1 - 1).
    assert (Hleap : is_leap y = true).
    { unfold is_leap, y.
      repeat match goal with
             | |- context [?a mod ?b =? 0] => destruct (Z.eqb_spec (a mod b) 0)
             end; simpl; try reflexivity; exfalso; Z.div_mod_to_equations; lia. }
    unfold ymd2ord, days_before_month. rewrite Hleap. simpl.
    unfold days_before_year, y. Z.div_mod_to_equations. lia.
  - apply orb_false_iff in Hlast as [Hn1 Hn100]. apply Z.eqb_neq in Hn1, Hn100.
    set (leapyear := (n1 =? 3) && (negb (n4 =? 24) || (n100 =? 3))).
    set (y := n400 * 400 + 1 + n100 * 100 + n4 * 4 + n1).
    pose proof (month_day_inv_all leapyear r4 ltac:(lia)) as Hmd.
    unfold month_day_inv in Hmd. destruct (month_day r4 leapyear) as [m d].
    apply Z.eqb_eq in Hmd.
    assert (Hleap : is_leap y = leapyear).
    { unfold is_leap, leapyear, y.
      destruct (Z.eqb_spec n1 3), (Z.eqb_spec n4 24), (Z.eqb_spec n100 3);
        repeat match goal with
               | |- context [?a mod ?b =? 0] => destruct (Z.eqb_spec (a mod b) 0)
               end; simpl; try reflexivity; exfalso; Z.div_mod_to_equations; lia. }
    unfold ymd2ord, days_before_month. rewrite Hleap.
    assert (Hy : days_before_year y = n0 - r4).
    { unfold days_before_year, y. Z.div_mod_to_equations. lia. }
    lia.
Qed.

(** Reading back the microseconds of a date built from them. *)
Lemma to_micros_of_micros us tz :
  0 <= us <= MAX_MICROS -> to_micros (of_micros us tz) = us.
Proof.
  unfold MAX_MICROS, US_PER_DAY, US_PER_SECOND. intros Hus.
  unfold of_micros, to_micros, US_PER_DAY, US_PER_SECOND.
  assert (Hord : 1 <= us / (86400 * 1000000) + 1 <= 3652059)
    by (Z.div_mod_to_equations; lia).
  pose proof (ymd2ord_ord2ymd _ Hord) as Hymd.
  destruct (ord2ymd (us / (86400 * 1000000) + 1)) as [[y m] d].
  cbn [year month day hour minute second microsecond]. rewrite Hymd.
  Z.div_mod_to_equations. lia.
Qed.

Lemma datetime_add_micros now delta t :
  datetime_add now delta = Ok t ->
  to_micros t = to_micros now + delta /\ tzinfo t = tzinfo now.
Proof.
  unfold datetime_add. destruct (between 0 _ MAX_MICROS) eqn:Hb; [|discriminate].
  intros [= <-]. apply between_true in Hb. split.
  - by apply to_micros_of_micros.
  - unfold of_micros. by destruct (ord2ymd _) as [[? ?] ?].
Qed.

Lemma datetime_add_instant now delta t :
  datetime_add now delta = Ok t -> instant t = instant now + delta.
Proof.
  intros H. destruct (datetime_add_micros _ _ _ H) as [Hm Htz].
  unfold instant. rewrite Hm, Htz. lia.
Qed.

(** ** When the next review falls, and when a review raises *)

Lemma review_record_unfold c r rt d :
  review_record c r rt d =
  let d0 := set_last_review (Some (t_last c)) (add_review (t_history c) r rt d) in
  if graduated d then
    match _process_graduated_review r d0 with
    | (d1, Ok _) => _calculate_next_review (t_next c) d1
    | (d1, Raise e) => (d1, Raise e)
    end
  else _calculate_next_review (t_next c) (_process_learning_review r d0).
Proof.
  unfold review_record. cbv zeta.
  change (graduated (set_last_review (Some (t_last c)) (add_review (t_history c) r rt d)))
    with (graduated d).
  destruct (graduated d); simpl negb; cbv iota; [|reflexivity].
  destruct (_process_graduated_review r _) as [d1 [[]|e]]; reflexivity.
Qed.

Lemma review_record_via_calculate c r rt d :
  snd (review_record c r rt d) = Ok tt ->
  exists dm, review_record c r rt d = _calculate_next_review (t_next c) dm.
Proof.
  rewrite review_record_unfold. cbv zeta. destruct (graduated d).
  - destruct (_process_graduated_review r _) as [d1 [[]|e]]; [|discriminate].
    intros _. by exists d1.
  - intros _. by eexists.
Qed.

Lemma learning_branch (f : Z -> result datetime) k :
  0 <= k <= 2 ->
  (k <? Z.of_nat (length LEARNING_STEPS)) = true /\
  (minutes ← py_index LEARNING_STEPS k; delta ← timedelta_minutes minutes; f delta) =
    f (default 0 (LEARNING_STEPS !! Z.to_nat k) * 60 * US_PER_SECOND) /\
  between (-999999999)
    ((default 0 (LEARNING_STEPS !! Z.to_nat k) * 60 * US_PER_SECOND) / US_PER_DAY)
    999999999 = true /\
  0 < default 0 (LEARNING_STEPS !! Z.to_nat k) * 60 * US_PER_SECOND <= US_PER_DAY.
Proof.
  intros Hk. assert (Hc : k = 0 \/ k = 1 \/ k = 2) by lia. clear Hk.
  destruct Hc as [-> | [-> | ->]]; (split; [|split; [|split]]);
    try (vm_compute; reflexivity); vm_compute; split; congruence.
Qed.

(** [_calculate_next_review] for a learning step that is an index of
    [LEARNING_STEPS]. *)
Lemma calculate_next_review_delay now d :
  (graduated d = false -> 0 <= learning_step d <= 2) ->
  _calculate_next_review now d =
  if between (-999999999) (scheduled_delay d / US_PER_DAY) 999999999 &&
     between 0 (to_micros now + scheduled_delay d) MAX_MICROS
  then (set_next_review (Some (of_micros (to_micros now + scheduled_delay d) (tzinfo now))) d,
        Ok tt)
  else (d, Raise OverflowError).
Proof.
  intros Hs. unfold _calculate_next_review, scheduled_delay.
  destruct (graduated d); simpl negb; cbv iota.
  - unfold timedelta_days, timedelta.
    destruct (between (-999999999) _ 999999999); [|reflexivity].
    cbn [andb]. unfold mbind, result_bind, datetime_add.
    destruct (between 0 _ MAX_MICROS); reflexivity.
  - specialize (Hs eq_refl).
    destruct (learning_branch (datetime_add now) _ Hs) as (-> & -> & -> & _).
    cbn [andb]. unfold datetime_add. destruct (between 0 _ MAX_MICROS); reflexivity.
Qed.

Lemma scheduled_delay_set_next_review t d :
  scheduled_delay (set_next_review t d) = scheduled_delay d.
Proof. reflexivity. Qed.

(** The outcome of a review at the level of one record whose learning
    step and interval are in range. *)
Lemma review_record_scheduled c r rt d :
  snd (review_record c r rt d) = Ok tt ->
  let d' := fst (review_record c r rt d) in
  (graduated d' = false -> 0 <= learning_step d' <= 2) ->
  next_review d' =
    Some (of_micros (to_micros (t_next c) + scheduled_delay d') (tzinfo (t_next c))) /\
  0 <= to_micros (t_next c) + scheduled_delay d' <= MAX_MICROS.
Proof.
  intros Hok. destruct (review_record_via_calculate c r rt d Hok) as [dm Hdm].
  cbv zeta. rewrite Hdm in *. clear Hdm. intros Hs.
  destruct (calculate_next_review_fields (t_next c) dm) as (_ & _ & _ & Eg & El & _).
  cbv zeta in Eg, El. rewrite Eg, El in Hs.
  rewrite (calculate_next_review_delay _ _ Hs) in *.
  destruct (between (-999999999) _ 999999999 && between 0 _ MAX_MICROS) eqn:Hb;
    [|discriminate].
  cbn [fst]. rewrite scheduled_delay_set_next_review. split; [reflexivity|].
  apply andb_true_iff in Hb as [_ Hb]. by apply between_true in Hb.
Qed.

Lemma import_free_in_range ops : import_free ops = true -> imports_in_range ops = true.
Proof.
  unfold import_free, imports_in_range. induction ops as [|o ops IH]; [done|].
  cbn [forallb]. intros [Ho H]%andb_true_iff. rewrite (IH H), andb_true_r.
  by destruct o.
Qed.

Lemma review_record_learning_step c r rt d :
  0 <= learning_step d /\ (graduated d = false -> learning_step d <= 2) ->
  let d' := fst (review_record c r rt d) in
  0 <= learning_step d' /\ (graduated d' = false -> learning_step d' <= 2).
Proof.
  intros [H0 H]. cbv zeta.
  destruct (review_record_phase c r rt d) as [Hl Hgr].
  destruct (graduated d) eqn:Hg.
  - specialize (Hgr eq_refl). destruct r; destruct Hgr as [Hg' Hs]; rewrite Hs;
      split; try lia; intros; congruence.
  - specialize (Hl eq_refl). specialize (H eq_refl).
    destruct r; destruct Hl as [Hg' Hs]; rewrite Hs, ?Hg'; split; try lia;
      destruct (Z.leb_spec 3 (learning_step d + 1)); intros; try congruence; lia.
Qed.

(** The record a review starts from, on an engine never loaded from a
    snapshot, is in range. *)
Lemma run_ops_start_record ops id :
  import_free ops = true ->
  let d := default ReviewData0 (run_ops ops new_engine !! id) in
  record_ok d = true /\ 0 <= learning_step d /\ (graduated d = false -> learning_step d <= 2).
Proof.
  intros Hops. cbv zeta. destruct (run_ops ops new_engine !! id) as [d|] eqn:Hd; cbn [default].
  - split; [|exact (run_ops_learning_step ops id d Hops Hd)].
    eapply (run_ops_record_ok ops new_engine); [by apply import_free_in_range| |exact Hd].
    intros id' d'. unfold new_engine. by rewrite lookup_empty.
  - split; [vm_compute; reflexivity|]. simpl. lia.
Qed.

Lemma scheduled_delay_pos d :
  record_ok d = true -> (graduated d = false -> 0 <= learning_step d <= 2) ->
  0 < scheduled_delay d.
Proof.
  intros [_ Hi]%record_ok_iff Hs. unfold scheduled_delay.
  destruct (graduated d).
  - specialize (Hi eq_refl). unfold US_PER_DAY, US_PER_SECOND. lia.
  - by destruct (learning_branch (fun _ => Raise OverflowError) _ (Hs eq_refl))
      as (_ & _ & _ & ? & _).
Qed.

(** X7. On an engine never loaded from a snapshot, a call of
    [review_card] that returns schedules the card strictly after the
    clock reading: at that reading plus the minutes of the learning step
    the card is left on, or plus its interval in days once it has
    graduated. [get_due_cards] then lists the card from that instant on
    and not before; in particular not at the time of the review. *)
Theorem review_schedules_next_review ops c id r rt :
  import_free ops = true -> utc_now (t_next c) = true ->
  let E := run_ops ops new_engine in
  let E' := fst (review_card c id r rt E) in
  snd (review_card c id r rt E) = Ok tt ->
  exists d' t,
    E' !! id = Some d' /\ next_review d' = Some t /\
    0 < scheduled_delay d' /\
    instant t = instant (t_next c) + scheduled_delay d' /\
    forall now, utc_now now = true ->
      snd (get_due_cards now [id] E') =
        Ok (if instant (t_next c) + scheduled_delay d' <=? instant now then [id] else []).
Proof.
  intros Hops Hc E E'. subst E'. rewrite review_card_eq. cbn [fst snd]. intros Hok.
  destruct (run_ops_start_record ops id Hops) as (Hr0 & Hs0). fold E in Hr0, Hs0.
  set (d0 := default ReviewData0 (E !! id)) in *.
  pose proof (review_record_ok c r rt d0 Hr0) as Hr.
  pose proof (review_record_learning_step c r rt d0 Hs0) as Hs. cbv zeta in Hs.
  set (d' := fst (review_record c r rt d0)) in *.
  assert (Hs' : graduated d' = false -> 0 <= learning_step d' <= 2).
  { intros Hg. destruct Hs as [? Hs]. specialize (Hs Hg). lia. }
  destruct (review_record_scheduled c r rt d0 Hok Hs') as [Hn Hrange]. fold d' in Hn, Hrange.
  set (t := of_micros (to_micros (t_next c) + scheduled_delay d') (tzinfo (t_next c))) in *.
  assert (Htz : tzinfo t = tzinfo (t_next c))
    by (unfold t, of_micros; by destruct (ord2ymd _) as [[? ?] ?]).
  assert (Hi : instant t = instant (t_next c) + scheduled_delay d').
  { unfold instant. rewrite Htz. unfold t. rewrite to_micros_of_micros by exact Hrange. lia. }
  exists d', t. split; [by rewrite lookup_insert_eq|]. split; [exact Hn|].
  split; [by apply scheduled_delay_pos|]. split; [exact Hi|].
  intros now Hnow. unfold get_due_cards. cbn [get_due_loop].
  rewrite get_review_data_eq, lookup_insert_eq. change (default ReviewData0 (Some d')) with d'. cbv beta iota. rewrite Hn.
  rewrite datetime_le_aware.
  - rewrite Hi. by destruct (_ <=? _).
  - rewrite Htz, (utc_now_tzinfo _ Hc). discriminate.
  - rewrite (utc_now_tzinfo _ Hnow). discriminate.
Qed.

(** An instance: the third GOOD review of card c1, which graduates it. *)
Lemma review_schedules_next_review_witness :
  let ops := Review <$> (sample_call <$> [GOOD; GOOD]) in
  let E := run_ops ops new_engine in
  let E' := fst (review_card sample_clock "c1" GOOD f_5_0 E) in
  (import_free ops = true /\ utc_now (t_next sample_clock) = true /\
   snd (review_card sample_clock "c1" GOOD f_5_0 E) = Ok tt) /\
  exists d' t,
    E' !! "c1"%string = Some d' /\ next_review d' = Some t /\
    0 < scheduled_delay d' /\
    instant t = instant (t_next sample_clock) + scheduled_delay d' /\
    forall now, utc_now now = true ->
      snd (get_due_cards now ["c1"%string] E') =
        Ok (if instant (t_next sample_clock) + scheduled_delay d' <=? instant now
            then ["c1"%string] else []).
Proof.
  split.
  - split; [|split]; vm_compute; reflexivity.
  - apply (review_schedules_next_review
             (Review <$> (sample_call <$> [GOOD; GOOD])) sample_clock "c1"%string GOOD f_5_0);
      vm_compute; reflexivity.
Defined.

(** ** The exceptions of [review_card] *)

Lemma int_of_float_ge_one_result x :
  ge_one x -> (exists n, int_of_float x = Ok n) \/ int_of_float x = Raise OverflowError.
Proof.
  intros [->|(m & e & -> & _)]; [right; reflexivity|left; eexists; reflexivity].
Qed.

Lemma float_of_int_result i :
  (exists x, float_of_int i = Ok x) \/ float_of_int i = Raise OverflowError.
Proof. unfold float_of_int. destruct (float_of_Z i); eauto. Qed.

Lemma graduated_interval_result r d :
  ease_ok (ease_factor d) = true -> 1 <= interval d ->
  (exists n, graduated_interval r d = Ok n) \/ graduated_interval r d = Raise OverflowError.
Proof.
  intros He Hi. unfold graduated_interval.
  destruct (repetition d =? 0); [left; by eexists|].
  destruct (repetition d =? 1); [left; by eexists|].
  assert (Hx : forall y, ge_one y ->
            (exists x, int_mul_float (interval d) y = Ok x /\ ge_one x) \/
            int_mul_float (interval d) y = Raise OverflowError).
  { intros y Hy. unfold int_mul_float.
    destruct (float_of_int (interval d)) as [fi|e] eqn:Hf.
    - left. eexists. split; [reflexivity|]. apply fmul_ge_one; [|exact Hy].
      eapply float_of_int_ge_one; eassumption.
    - right. destruct (float_of_int_result (interval d)) as [[x Hx]|Hx]; [congruence|].
      rewrite Hx in Hf. injection Hf as <-. reflexivity. }
  pose proof (ease_ok_ge_one _ He) as Hge.
  destruct r.
  - destruct (Hx _ Hge) as [(x & -> & Hgx)| ->]; [|by right].
    apply (int_of_float_ge_one_result x Hgx).
  - destruct (Hx HARD_INTERVAL_FACTOR) as [(x & -> & Hgx)| ->]; [| |by right].
    + right. eexists _, _. split; [reflexivity|]. split; [split; simpl; lia|lia].
    + destruct (int_of_float_ge_one_result x Hgx) as [[n Hn]|Hn]; simpl; rewrite Hn;
        [left; by eexists|by right].
  - destruct (Hx _ Hge) as [(x & -> & Hgx)| ->]; [|by right].
    apply (int_of_float_ge_one_result x Hgx).
  - destruct (Hx _ Hge) as [(x & -> & Hgx)| ->]; [|by right].
    apply int_of_float_ge_one_result, fmul_ge_one;
      [exact Hgx|apply EASY_INTERVAL_FACTOR_ge_one].
Qed.

Lemma calculate_next_review_result now dm :
  let d' := fst (_calculate_next_review now dm) in
  (graduated d' = false -> 0 <= learning_step d' <= 2) ->
  snd (_calculate_next_review now dm) =
  if between (-999999999) (scheduled_delay d' / US_PER_DAY) 999999999 &&
     between 0 (to_micros now + scheduled_delay d') MAX_MICROS
  then Ok tt else Raise OverflowError.
Proof.
  cbv zeta. intros Hs.
  destruct (calculate_next_review_fields now dm) as (_ & _ & _ & Eg & El & _).
  cbv zeta in Eg, El. rewrite Eg, El in Hs.
  rewrite (calculate_next_review_delay _ _ Hs).
  destruct (between (-999999999) _ 999999999 && between 0 _ MAX_MICROS) eqn:Hb; cbn [fst snd].
  - by rewrite scheduled_delay_set_next_review, Hb.
  - by rewrite Hb.
Qed.

(** A review either reaches [_calculate_next_review], or the interval of
    a graduated card could not be computed. *)
Lemma review_record_calculate_or_raise c r rt d :
  (exists dm, review_record c r rt d = _calculate_next_review (t_next c) dm) \/
  (graduated d = true /\ r <> AGAIN /\
   exists e, graduated_interval r (_update_ease_factor r d) = Raise e /\
             snd (review_record c r rt d) = Raise e).
Proof.
  destruct (graduated d) eqn:Hg.
  - destruct (decide (r = AGAIN)) as [->|Hr].
    + left. rewrite review_record_unfold, Hg. cbv zeta. by eexists.
    + rewrite (review_record_graduated c r rt d Hg Hr). cbv zeta.
      assert (E : graduated_interval r
                    (_update_ease_factor r
                       (set_last_review (Some (t_last c)) (add_review (t_history c) r rt d))) =
                  graduated_interval r (_update_ease_factor r d))
        by (destruct r; reflexivity).
      rewrite E. destruct (graduated_interval r (_update_ease_factor r d)) as [n|e].
      * left. by eexists.
      * right. split; [reflexivity|]. split; [exact Hr|]. by exists e.
  - left. rewrite review_record_unfold, Hg. by eexists.
Qed.

Lemma days_before_month_common_nonneg m : 0 <= days_before_month_common m.
Proof.
  destruct m as [|p|p]; simpl; try lia.
  do 4 (try destruct p as [p|p|]; simpl; try lia).
Qed.

Lemma to_micros_nonneg t : datetime_valid t = true -> 0 <= to_micros t.
Proof.
  unfold datetime_valid. rewrite !andb_true_iff.
  intros (((((((Hy & Hm) & Hd) & Hh) & Hmi) & Hs) & Hus) & _).
  apply between_true in Hy, Hm, Hd, Hh, Hmi, Hs, Hus.
  unfold to_micros, ymd2ord, days_before_year, days_before_month, US_PER_SECOND.
  pose proof (days_before_month_common_nonneg (month t)).
  destruct ((2 <? month t) && is_leap (year t)); Z.div_mod_to_equations; nia.
Qed.

Lemma review_record_result c r rt d :
  record_ok d = true ->
  0 <= learning_step d /\ (graduated d = false -> learning_step d <= 2) ->
  let d' := fst (review_record c r rt d) in
  (snd (review_record c r rt d) =
     (if between (-999999999) (scheduled_delay d' / US_PER_DAY) 999999999 &&
         between 0 (to_micros (t_next c) + scheduled_delay d') MAX_MICROS
      then Ok tt else Raise OverflowError)) \/
  (graduated d = true /\ snd (review_record c r rt d) = Raise OverflowError).
Proof.
  intros Hr Hs. cbv zeta.
  pose proof (review_record_learning_step c r rt d Hs) as Hs'. cbv zeta in Hs'.
  destruct (review_record_calculate_or_raise c r rt d) as [[dm E]|(Hg & Hne & e & Hi & He)].
  - left. rewrite E in *. apply calculate_next_review_result.
    intros Hg. destruct Hs' as [? Hs']. specialize (Hs' Hg). lia.
  - right. split; [exact Hg|]. rewrite He. f_equal.
    apply record_ok_iff in Hr as [Hease Hint].
    destruct (graduated_interval_result r (_update_ease_factor r d)) as [[n Hn]|Hn].
    + by apply ease_ok_update.
    + destruct (update_ease_factor_fields r d) as (-> & _). by apply Hint.
    + congruence.
    + congruence.
Qed.

(** X8. On an engine never loaded from a snapshot, [review_card] raises
    nothing but [OverflowError] (no [IndexError] from the learning
    steps, no [ValueError] from [int] of a NaN, no [TypeError]), and a
    review of a card that has not graduated returns whenever the clock
    is at least four days before the end of the year 9999. *)
Theorem review_card_raises_only_overflow ops c id r rt :
  import_free ops = true ->
  let E := run_ops ops new_engine in
  let res := snd (review_card c id r rt E) in
  (res = Ok tt \/ res = Raise OverflowError) /\
  (graduated (default ReviewData0 (E !! id)) = false ->
   datetime_valid (t_next c) = true ->
   to_micros (t_next c) + 4 * US_PER_DAY <= MAX_MICROS ->
   res = Ok tt).
Proof.
  intros Hops E res. subst res. rewrite review_card_eq. cbn [snd].
  destruct (run_ops_start_record ops id Hops) as (Hr0 & Hs0). fold E in Hr0, Hs0.
  set (d0 := default ReviewData0 (E !! id)) in *.
  pose proof (review_record_result c r rt d0 Hr0 Hs0) as H. cbv zeta in H.
  split.
  - destruct H as [-> | [_ ->]]; [|by right]. destruct (_ && _); [by left|by right].
  - intros Hg Hv Hroom. destruct H as [-> | [Hg' _]]; [|congruence].
    pose proof (to_micros_nonneg _ Hv) as Hnn.
    pose proof (review_record_ok c r rt d0 Hr0) as Hok.
    pose proof (review_record_learning_step c r rt d0 Hs0) as Hs. cbv zeta in Hs.
    pose proof (review_record_interval_graduating c r rt d0 Hg) as Hi. cbv zeta in Hi.
    set (d' := fst (review_record c r rt d0)) in *.
    assert (Hd : 0 < scheduled_delay d' <= 4 * US_PER_DAY).
    { split; [apply scheduled_delay_pos; [exact Hok|]; intros Hg'; destruct Hs as [? Hs];
              specialize (Hs Hg'); lia|].
      unfold scheduled_delay. destruct (graduated d') eqn:Hg'.
      - destruct (Hi eq_refl) as [_ ->].
        destruct (decide _); unfold EASY_INTERVAL, GRADUATING_INTERVAL, US_PER_DAY,
          US_PER_SECOND; lia.
      - destruct Hs as [? Hs]. specialize (Hs eq_refl).
        destruct (learning_branch (fun _ => Raise OverflowError) (learning_step d'))
          as (_ & _ & _ & ? & ?); [lia|].
        unfold US_PER_DAY, US_PER_SECOND in *. lia. }
    rewrite !between_intro; [reflexivity|lia|].
    unfold US_PER_DAY, US_PER_SECOND in *. Z.div_mod_to_equations. lia.
Qed.

(** An instance: a review of card c1 after GOOD and AGAIN. *)
Lemma review_card_raises_only_overflow_witness :
  let ops := Review <$> (sample_call <$> [GOOD; AGAIN]) in
  let E := run_ops ops new_engine in
  let res := snd (review_card sample_clock "c1" GOOD f_5_0 E) in
  import_free ops = true /\
  (res = Ok tt \/ res = Raise OverflowError) /\
  (graduated (default ReviewData0 (E !! "c1"%string)) = false ->
   datetime_valid (t_next sample_clock) = true ->
   to_micros (t_next sample_clock) + 4 * US_PER_DAY <= MAX_MICROS ->
   res = Ok tt).
Proof.
  split; [reflexivity|].
  apply (review_card_raises_only_overflow
           (Review <$> (sample_call <$> [GOOD; AGAIN])) sample_clock "c1"%string GOOD f_5_0).
  reflexivity.
Defined.

(** X9. When the new interval of a graduated card reaches past the end
    of the year 9999, [review_card] raises [OverflowError] after it has
    stored the new interval, ease factor and repetition count: the record
    keeps its old [next_review] beside the new interval. *)
Theorem overflow_keeps_old_schedule c r rt d n :
  graduated d = true -> r <> AGAIN ->
  graduated_interval r (_update_ease_factor r d) = Ok n ->
  MAX_MICROS < to_micros (t_next c) + n * US_PER_DAY ->
  let d' := fst (review_record c r rt d) in
  snd (review_record c r rt d) = Raise OverflowError /\
  interval d' = n /\ repetition d' = repetition d + 1 /\
  ease_factor d' = ease_factor (_update_ease_factor r d) /\
  next_review d' = next_review d.
Proof.
  intros Hg Hr Hn Hmax. cbv zeta.
  rewrite (review_record_graduated c r rt d Hg Hr). cbv zeta.
  assert (E : graduated_interval r
                (_update_ease_factor r
                   (set_last_review (Some (t_last c)) (add_review (t_history c) r rt d))) =
              graduated_interval r (_update_ease_factor r d))
    by (destruct r; reflexivity).
  rewrite E, Hn.
  rewrite calculate_next_review_delay
    by (destruct r; try congruence; cbn; rewrite Hg; discriminate).
  replace (scheduled_delay _) with (n * US_PER_DAY)
    by (destruct r; try congruence; unfold scheduled_delay; cbn; rewrite Hg; reflexivity).
  replace (between 0 (to_micros (t_next c) + n * US_PER_DAY) MAX_MICROS) with false.
  - rewrite andb_false_r. cbn [fst snd].
    destruct r; try congruence; repeat split; reflexivity.
  - symmetry. unfold between. apply andb_false_iff. right. apply Z.leb_gt. exact Hmax.
Qed.

(** An instance: the eleventh EASY review in a row of the graduated card
    c1, whose interval goes from 1612497 to 7546485 days. *)
Lemma overflow_keeps_old_schedule_witness :
  let d := card_after ([GOOD; GOOD; GOOD] ++ replicate 10 EASY) in
  let d' := fst (review_record sample_clock EASY f_5_0 d) in
  (graduated d = true /\ EASY <> AGAIN /\
   graduated_interval EASY (_update_ease_factor EASY d) = Ok 7546485 /\
   MAX_MICROS < to_micros (t_next sample_clock) + 7546485 * US_PER_DAY) /\
  snd (review_record sample_clock EASY f_5_0 d) = Raise OverflowError /\
  interval d' = 7546485 /\ repetition d' = repetition d + 1 /\
  ease_factor d' = ease_factor (_update_ease_factor EASY d) /\
  next_review d' = next_review d.
Proof.
  split.
  - split; [|split; [|split]]; [vm_compute; reflexivity|discriminate|
      vm_compute; reflexivity|vm_compute; reflexivity].
  - apply (overflow_keeps_old_schedule sample_clock EASY f_5_0
             (card_after ([GOOD; GOOD; GOOD] ++ replicate 10 EASY)) 7546485);
      [vm_compute; reflexivity|discriminate|vm_compute; reflexivity|vm_compute; reflexivity].
Defined.

(** ** The counts of [get_study_stats] *)

Lemma record_of_insert_default (E : engine) i id :
  record_of (<[i := record_of E i]> E) id = record_of E id.
Proof.
  unfold record_of. destruct (decide (i = id)) as [->|Hne].
  - by rewrite lookup_insert_eq.
  - by rewrite lookup_insert_ne.
Qed.

Lemma count_cards_cons P (E : engine) i ids :
  count_cards P E (i :: ids) = (if P (record_of E i) then 1 else 0) + count_cards P E ids.
Proof.
  unfold count_cards. destruct (P (record_of E i)) eqn:HP.
  - rewrite filter_cons_True by exact HP. cbn [length]. lia.
  - rewrite filter_cons_False by (rewrite HP; discriminate). lia.
Qed.

Lemma count_cards_insert_default P (E : engine) i ids :
  count_cards P (<[i := record_of E i]> E) ids = count_cards P E ids.
Proof.
  unfold count_cards. do 2 f_equal. apply list_filter_iff. intros id.
  by rewrite record_of_insert_default.
Qed.

Lemma sum_cards_insert_default f (E : engine) i ids :
  sum_cards f (<[i := record_of E i]> E) ids = sum_cards f E ids.
Proof.
  unfold sum_cards. induction ids as [|id ids IH]; [done|].
  cbn [foldr]. by rewrite IH, record_of_insert_default.
Qed.

Lemma count_cards_bounds P (E : engine) ids :
  0 <= count_cards P E ids <= Z.of_nat (length ids).
Proof.
  unfold count_cards. pose proof (length_filter (fun id => P (record_of E id) = true) ids). lia.
Qed.

(** One iteration of the loop, when it does not raise. *)
Lemma stats_step_counts now d a a1 :
  stats_step now d a = Ok a1 ->
  new_cards a1 = new_cards a + (if is_new d then 1 else 0) /\
  learning_cards a1 = learning_cards a + (if is_learning d then 1 else 0) /\
  due_cards a1 = due_cards a + (if is_review_due now d then 1 else 0) /\
  sum_reviews a1 = sum_reviews a + total_reviews d /\
  successful_reviews a1 = successful_reviews a + count_successful (review_history d) /\
  graduated_count a1 = graduated_count a + (if graduated d then 1 else 0).
Proof.
  unfold stats_step, is_new, is_learning, is_review_due.
  destruct (next_review d) as [t|]; destruct (graduated d); cbn [negb andb].
  - destruct (datetime_le t now) as [[]|e]; [| |discriminate];
      cbn [mbind result_bind mret result_ret]; unfold mbind, result_bind;
      destruct (float_add_int _ _); [|discriminate| |discriminate];
      intros [= <-]; cbn; repeat split; lia.
  - cbn. intros [= <-]. cbn. repeat split; lia.
  - cbn [mbind result_bind mret result_ret]. unfold mbind, result_bind.
    destruct (float_add_int _ _); [|discriminate].
    intros [= <-]; cbn; repeat split; lia.
  - cbn. intros [= <-]. cbn. repeat split; lia.
Qed.

Lemma get_stats_loop_counts now ids a (E E' : engine) a' :
  get_stats_loop now ids a E = (E', Ok a') ->
  new_cards a' = new_cards a + count_cards is_new E ids /\
  learning_cards a' = learning_cards a + count_cards is_learning E ids /\
  due_cards a' = due_cards a + count_cards (is_review_due now) E ids /\
  sum_reviews a' = sum_reviews a + sum_cards total_reviews E ids /\
  successful_reviews a' =
    successful_reviews a + sum_cards (fun d => count_successful (review_history d)) E ids /\
  graduated_count a' = graduated_count a + count_cards graduated E ids.
Proof.
  revert a E. induction ids as [|i ids IH]; intros a E.
  - cbn. intros [= <- <-]. unfold count_cards. cbn. repeat split; lia.
  - cbn [get_stats_loop]. rewrite get_review_data_eq. fold (record_of E i).
    destruct (stats_step now (record_of E i) a) as [a1|e] eqn:Hstep; [|discriminate].
    intros H. apply IH in H.
    rewrite !count_cards_insert_default, !sum_cards_insert_default in H.
    destruct (stats_step_counts _ _ _ _ Hstep) as (E1 & E2 & E3 & E4 & E5 & E6).
    rewrite !count_cards_cons. cbn [sum_cards foldr]. fold (sum_cards total_reviews E ids).
    fold (sum_cards (fun d => count_successful (review_history d)) E ids).
    destruct H as (H1 & H2 & H3 & H4 & H5 & H6).
    rewrite H1, H2, H3, H4, H5, H6, E1, E2, E3, E4, E5, E6.
    rewrite <- !Z.add_assoc. by repeat split.
Qed.

Lemma class_counts_le now (E : engine) ids :
  count_cards is_new E ids + count_cards is_learning E ids +
  count_cards (is_review_due now) E ids <= Z.of_nat (length ids).
Proof.
  induction ids as [|i ids IH]; [unfold count_cards; cbn; lia|].
  rewrite !count_cards_cons. cbn [length].
  assert (H : (if is_new (record_of E i) then 1 else 0) +
              (if is_learning (record_of E i) then 1 else 0) +
              (if is_review_due now (record_of E i) then 1 else 0) <= 1); [|lia].
  unfold is_new, is_learning, is_review_due.
  destruct (next_review (record_of E i)); destruct (graduated (record_of E i));
    cbn [negb andb]; try lia.
  destruct (datetime_le _ _) as [[]|]; lia.
Qed.

(** X10. When [get_study_stats] returns, [total_cards] is the length of
    the list it was given and the other counts are taken entry by entry
    (an id listed twice is counted twice): [new_cards] counts the
    records never scheduled, [learning_cards] the scheduled ones that
    have not graduated, [due_cards] the graduated ones whose next review
    is not after [now], and [total_reviews] adds up the review counters.
    The three classes exclude each other, so their sum is at most
    [total_cards]; a graduated card that is not yet due is in none. *)
Theorem get_study_stats_counts now ids (E E' : engine) s :
  get_study_stats now ids E = (E', Ok s) ->
  st_total_cards s = Z.of_nat (length ids) /\
  st_new_cards s = count_cards is_new E ids /\
  st_learning_cards s = count_cards is_learning E ids /\
  st_due_cards s = count_cards (is_review_due now) E ids /\
  st_total_reviews s = sum_cards total_reviews E ids /\
  st_new_cards s + st_learning_cards s + st_due_cards s <= st_total_cards s.
Proof.
  unfold get_study_stats. destruct ids as [|i ids].
  - intros [= <- <-]. unfold count_cards. cbn. repeat split; lia.
  - destruct (get_stats_loop now (i :: ids) counters0 E) as [E1 [a|e]] eqn:Hloop;
      [|discriminate].
    apply get_stats_loop_counts in Hloop as (H1 & H2 & H3 & H4 & _).
    intros [= <- Hs]. revert Hs.
    unfold mbind, result_bind, stats_of_counters.
    destruct (if 0 <? graduated_count a then float_div_int (total_ease a) _ else _)
      as [ae|]; [|discriminate].
    destruct (if 0 <? graduated_count a then float_div_int (total_interval a) _ else _)
      as [ai|]; [|discriminate].
    destruct (if 0 <? sum_reviews a then _ else _) as [sr|]; [|discriminate].
    intros [= <-]. cbn [st_total_cards st_new_cards st_learning_cards st_due_cards
      st_total_reviews].
    rewrite H1, H2, H3, H4. cbn [counters0 new_cards learning_cards due_cards sum_reviews].
    pose proof (class_counts_le now E (i :: ids)) as H. cbn [length] in H.
    repeat split; lia.
Qed.

(** An instance: a reviewed card, listed twice, and an unknown card. *)
Lemma get_study_stats_counts_witness :
  let E := run_ops (Review <$> (sample_call <$> [GOOD])) new_engine in
  let ids := ["c1"; "c1"; "c2"]%string in
  exists E' s,
    get_study_stats sample_now ids E = (E', Ok s) /\
    st_total_cards s = Z.of_nat (length ids) /\
    st_new_cards s = count_cards is_new E ids /\
    st_learning_cards s = count_cards is_learning E ids /\
    st_due_cards s = count_cards (is_review_due sample_now) E ids /\
    st_total_reviews s = sum_cards total_reviews E ids /\
    st_new_cards s + st_learning_cards s + st_due_cards s <= st_total_cards s.
Proof.
  eexists _, _. split; [vm_compute; reflexivity|].
  eapply (get_study_stats_counts sample_now ["c1"; "c1"; "c2"]%string
            (run_ops (Review <$> (sample_call <$> [GOOD])) new_engine)).
  vm_compute; reflexivity.
Defined.

Lemma result_bind_Ok {A B} (x : result A) (f : A -> result B) y :
  x ≫= f = Ok y -> exists a, x = Ok a /\ f a = Ok y.
Proof. destruct x as [a|e]; [by exists a|discriminate]. Qed.

(** The counters [get_study_stats] builds its dictionary from, for a
    non-empty list. *)
Lemma get_study_stats_cons now i ids (E E' : engine) s :
  get_study_stats now (i :: ids) E = (E', Ok s) ->
  exists a,
    sum_reviews a = sum_cards total_reviews E (i :: ids) /\
    successful_reviews a =
      sum_cards (fun d => count_successful (review_history d)) E (i :: ids) /\
    graduated_count a = count_cards graduated E (i :: ids) /\
    stats_of_counters (Z.of_nat (length (i :: ids))) a = Ok s.
Proof.
  unfold get_study_stats.
  destruct (get_stats_loop now (i :: ids) counters0 E) as [E1 [a|e]] eqn:Hloop;
    [|discriminate].
  apply get_stats_loop_counts in Hloop as (_ & _ & _ & H4 & H5 & H6).
  cbn [counters0 sum_reviews successful_reviews graduated_count] in H4, H5, H6.
  rewrite Z.add_0_l in H4, H5, H6.
  intros [= <- Hs]. exists a. by repeat split.
Qed.

(** X11. The averages of [get_study_stats] at their edges: for the empty
    list every figure is zero, [average_ease] included; for a list none
    of whose cards has graduated [average_ease] is the default 2.5 and
    [average_interval] is 0.0; [success_rate] is 0.0 when the cards have
    no review, and otherwise the quotient of the successful reviews by
    all reviews of the listed cards, rounded once. *)
Theorem get_study_stats_averages now ids (E E' : engine) s :
  get_study_stats now ids E = (E', Ok s) ->
  (ids = [] -> s = mk_stats 0 0 0 0 0 f_0_0 f_0_0 f_0_0 f_0_0 /\ E' = E) /\
  (ids <> [] -> count_cards graduated E ids = 0 ->
   st_average_ease s = f_2_5 /\ st_average_interval s = f_0_0) /\
  (sum_cards total_reviews E ids <= 0 -> st_success_rate s = f_0_0) /\
  (0 < sum_cards total_reviews E ids ->
   int_truediv (sum_cards (fun d => count_successful (review_history d)) E ids)
               (sum_cards total_reviews E ids) = Ok (st_success_rate s)).
Proof.
  destruct ids as [|i ids].
  - intros [= <- <-]. split; [done|]. split; [done|]. split; [done|]. cbn. lia.
  - intros (a & H4 & H5 & H6 & Hs)%get_study_stats_cons.
    unfold stats_of_counters in Hs. rewrite H4, H5, H6 in Hs.
    apply result_bind_Ok in Hs as (ae & Hae & Hs).
    apply result_bind_Ok in Hs as (ai & Hai & Hs).
    apply result_bind_Ok in Hs as (sr & Hsr & Hs).
    injection Hs as <-. cbn [st_average_ease st_average_interval st_success_rate].
    split; [discriminate|]. split; [|split].
    + intros _ H0. rewrite H0 in Hae, Hai. cbn in Hae, Hai. split; congruence.
    + intros Hle. destruct (Z.ltb_spec 0 (sum_cards total_reviews E (i :: ids))); [lia|].
      congruence.
    + intros Hlt. destruct (Z.ltb_spec 0 (sum_cards total_reviews E (i :: ids))); [|lia].
      exact Hsr.
Qed.

(** An instance: two cards still in the learning phase. *)
Lemma get_study_stats_averages_witness :
  let E := run_ops (Review <$> (sample_call <$> [GOOD; AGAIN])) new_engine in
  let ids := ["c1"; "c2"]%string in
  exists E' s,
    get_study_stats sample_now ids E = (E', Ok s) /\
    (ids = [] -> s = mk_stats 0 0 0 0 0 f_0_0 f_0_0 f_0_0 f_0_0 /\ E' = E) /\
    (ids <> [] -> count_cards graduated E ids = 0 ->
     st_average_ease s = f_2_5 /\ st_average_interval s = f_0_0) /\
    (sum_cards total_reviews E ids <= 0 -> st_success_rate s = f_0_0) /\
    (0 < sum_cards total_reviews E ids ->
     int_truediv (sum_cards (fun d => count_successful (review_history d)) E ids)
                 (sum_cards total_reviews E ids) = Ok (st_success_rate s)).
Proof.
  eexists _, _. split; [vm_compute; reflexivity|].
  eapply (get_study_stats_averages sample_now ["c1"; "c2"]%string
            (run_ops (Review <$> (sample_call <$> [GOOD; AGAIN])) new_engine)).
  vm_compute; reflexivity.
Defined.

(** ** Importing an exported snapshot into an engine that holds records *)

(** X12. [import_data] merges: importing the export of an engine [E]
    (built by any operations with clock readings of
    [datetime.now(timezone.utc)]) into an engine [E0] returns without an
    exception, gives every card of [E] the record it has in [E], and
    keeps the records [E0] holds for all other cards. In particular,
    importing an engine's own export leaves it as it is. *)
Theorem import_export_merges ops (E0 : engine) :
  forallb op_clock_ok ops = true ->
  let E := run_ops ops new_engine in
  import_data (export_data E) E0 = (E ∪ E0, Ok tt) /\
  (forall id, (E ∪ E0) !! id = match E !! id with Some d => Some d | None => E0 !! id end) /\
  import_data (export_data E) E = (E, Ok tt).
Proof.
  intros Hclk E.
  assert (HE : engine_valid E).
  { apply run_ops_engine_valid; [exact Hclk|].
    intros id d. unfold new_engine. by rewrite lookup_empty. }
  assert (H : forall E1 : engine, import_data (export_data E) E1 = (E ∪ E1, Ok tt)).
  { intros E1. unfold export_data. rewrite import_data_export_list.
    - rewrite fold_left_insert_list_to_map by apply NoDup_fst_map_to_list.
      by rewrite list_to_map_to_list.
    - apply Forall_forall. intros [k d] Hin. apply elem_of_map_to_list in Hin.
      simpl. by apply (HE k). }
  split; [apply H|]. split.
  - intros id. rewrite lookup_union. destruct (E !! id), (E0 !! id); reflexivity.
  - rewrite H. by rewrite (idemp_L (∪) E).
Qed.

(** An instance: the export of an engine with card c1 imported into an
    engine that holds cards c1 and c2. *)
Lemma import_export_merges_witness :
  let ops := Review <$> (sample_call <$> [GOOD; GOOD; GOOD; EASY]) in
  let E := run_ops ops new_engine in
  let E0 := run_ops [Review (sample_call AGAIN);
                     Review (mk_review_call sample_clock "c2" GOOD f_5_0)] new_engine in
  forallb op_clock_ok ops = true /\
  import_data (export_data E) E0 = (E ∪ E0, Ok tt) /\
  (forall id, (E ∪ E0) !! id = match E !! id with Some d => Some d | None => E0 !! id end) /\
  import_data (export_data E) E = (E, Ok tt).
Proof.
  cbv zeta. split; [vm_compute; reflexivity|].
  apply (import_export_merges (Review <$> (sample_call <$> [GOOD; GOOD; GOOD; EASY]))).
  vm_compute; reflexivity.
Defined.

(** ** Due cards as time passes *)

Lemma is_due_mono now now' (E : engine) id :
  instant now <= instant now' -> is_due now E id = true -> is_due now' E id = true.
Proof.
  intros Hle. unfold is_due. destruct (E !! id) as [d|]; [|done].
  destruct (next_review d) as [t|]; [|done].
  rewrite !Z.leb_le. lia.
Qed.

(** X13. On an engine never loaded from a snapshot, [get_due_cards]
    returns without an exception, and a card that is due stays due: a
    card it lists at one clock reading is listed at every later one, as
    long as no operation comes between. *)
Theorem due_cards_stay_due ops now now' ids :
  import_free ops = true -> forallb op_clock_ok ops = true ->
  utc_now now = true -> utc_now now' = true -> instant now <= instant now' ->
  let E := run_ops ops new_engine in
  exists due due',
    snd (get_due_cards now ids E) = Ok due /\
    snd (get_due_cards now' ids E) = Ok due' /\
    forall id, id ∈ due -> id ∈ due'.
Proof.
  intros Hops Hclk Hnow Hnow' Hle E.
  assert (HE : schedule_aware E).
  { apply run_ops_schedule_aware; [exact Hops|exact Hclk|].
    intros id d t. unfold new_engine. by rewrite lookup_empty. }
  eexists _, _. split; [|split].
  - apply get_due_cards_filter; [|exact HE]. rewrite (utc_now_tzinfo _ Hnow). discriminate.
  - apply get_due_cards_filter; [|exact HE]. rewrite (utc_now_tzinfo _ Hnow'). discriminate.
  - intros id [Hd Hin]%list_elem_of_filter. apply list_elem_of_filter.
    split; [|exact Hin]. eapply is_due_mono; eassumption.
Qed.

(** An instance: cards c1 and c2 at the time of the first GOOD review of
    c1 and half an hour later. *)
Lemma due_cards_stay_due_witness :
  let ops := [Review (sample_call GOOD)] in
  let later := mk_datetime 2024 1 1 12 30 0 0 (Some 0) in
  let E := run_ops ops new_engine in
  (import_free ops = true /\ forallb op_clock_ok ops = true /\
   utc_now sample_now = true /\ utc_now later = true /\
   instant sample_now <= instant later) /\
  exists due due',
    snd (get_due_cards sample_now ["c1"; "c2"]%string E) = Ok due /\
    snd (get_due_cards later ["c1"; "c2"]%string E) = Ok due' /\
    forall id, id ∈ due -> id ∈ due'.
Proof.
  split.
  - split; [|split; [|split; [|split]]]; try (vm_compute; reflexivity).
    vm_compute. discriminate.
  - apply (due_cards_stay_due [Review (sample_call GOOD)] sample_now
             (mk_datetime 2024 1 1 12 30 0 0 (Some 0)) ["c1"; "c2"]%string);
      try (vm_compute; reflexivity).
    vm_compute. discriminate.
Defined.

(** ** [ReviewData.success_rate] *)

Lemma SFdiv_self p :
  fdiv (S754_finite false p 0) (S754_finite false p 0) = f_1_0.
Proof.
  unfold fdiv, SFdiv, SFdiv_core_binary.
  replace (Zdigits2 (Zpos p) + 0 - (Zdigits2 (Zpos p) + 0)) with 0 by lia.
  change (Z.min (fexp prec emax 0) (0 - 0)) with (-53).
  change (0 - 0 - -53) with 53. cbv iota.
  rewrite Z.shiftl_mul_pow2 by lia.
  destruct (Z.div_eucl (Zpos p * 2 ^ 53) (Zpos p)) as [q r] eqn:E.
  assert (Hq : q = Zpos p * 2 ^ 53 / Zpos p) by (unfold Z.div; by rewrite E).
  assert (Hr : r = (Zpos p * 2 ^ 53) mod Zpos p) by (unfold Z.modulo; by rewrite E).
  rewrite Z.mul_comm, Z.div_mul in Hq by lia.
  rewrite Z.mul_comm, Z.mod_mul in Hr by lia.
  subst q r.
  replace (new_location (Zpos p) 0) with loc_Exact
    by (unfold new_location, new_location_even, new_location_odd;
        destruct (Z.even _); reflexivity).
  vm_compute. reflexivity.
Qed.

Lemma int_truediv_self n : 0 < n -> int_truediv n n = Ok f_1_0.
Proof.
  intros Hn. unfold int_truediv.
  destruct (Z.eqb_spec n 0); [lia|].
  destruct (Z.ltb_spec n 0); [lia|].
  by rewrite SFdiv_self.
Qed.

Lemma count_successful_all h :
  Forall (fun x => is_success (snd (fst x)) = true) h ->
  count_successful h = Z.of_nat (length h).
Proof.
  unfold count_successful. induction 1 as [|x h Hx _ IH]; [done|].
  rewrite filter_cons_True by exact Hx. cbn [length]. lia.
Qed.

Lemma count_successful_none h :
  Forall (fun x => is_success (snd (fst x)) = false) h -> count_successful h = 0.
Proof.
  unfold count_successful. induction 1 as [|x h Hx _ IH]; [done|].
  rewrite filter_cons_False by (rewrite Hx; discriminate). exact IH.
Qed.

(** X15. The edges of [success_rate]: it is 0.0 for a record without
    reviews and for one whose reviews were all AGAIN or HARD, and exactly
    1.0 when every review of a non-empty history was GOOD or EASY,
    whatever the length of the history. *)
Theorem success_rate_edges d :
  (review_history d = [] -> success_rate d = Ok f_0_0) /\
  (Forall (fun x => is_success (snd (fst x)) = false) (review_history d) ->
   success_rate d = Ok f_0_0) /\
  (review_history d <> [] ->
   Forall (fun x => is_success (snd (fst x)) = true) (review_history d) ->
   success_rate d = Ok f_1_0).
Proof.
  unfold success_rate. split; [by intros ->|]. split.
  - intros H. rewrite (count_successful_none _ H).
    destruct (review_history d) as [|x h]; [done|]. unfold int_truediv.
    cbn [length]. destruct (Z.eqb_spec (Z.of_nat (S (length h))) 0); [lia|].
    cbn [Z.eqb]. destruct (Z.ltb_spec (Z.of_nat (S (length h))) 0); [lia|done].
  - intros Hne H. rewrite (count_successful_all _ H).
    destruct (review_history d) as [|x h]; [done|].
    apply int_truediv_self. cbn [length]. lia.
Qed.

Lemma run_ops_total_reviews ops id :
  import_free ops = true ->
  let d := record_of (run_ops ops new_engine) id in
  total_reviews d = Z.of_nat (length (review_history d)).
Proof.
  intros Hops. cbv zeta. unfold record_of.
  destruct (run_ops ops new_engine !! id) as [d|] eqn:Hd; [|reflexivity].
  cbn [default from_option]. revert ops id d Hops Hd.
  apply (run_ops_invariant_fresh
           (fun d => total_reviews d = Z.of_nat (length (review_history d)))); [reflexivity|].
  intros c r rt d H. destruct (review_record_log c r rt d) as (-> & -> & _).
  rewrite length_app. cbn [length]. lia.
Qed.

(** X14. On an engine never loaded from a snapshot the success rate
    [get_study_stats] reports for a single card is the card's own
    [success_rate]: the review counter the one divides by is the length
    of the history the other divides by. *)
Theorem success_rate_matches_stats ops now id (E' : engine) s :
  import_free ops = true ->
  let E := run_ops ops new_engine in
  get_study_stats now [id] E = (E', Ok s) ->
  success_rate (record_of E id) = Ok (st_success_rate s).
Proof.
  intros Hops E (a & H4 & H5 & _ & Hs)%get_study_stats_cons.
  pose proof (run_ops_total_reviews ops id Hops) as Ht. cbv zeta in Ht. fold E in Ht.
  cbn [sum_cards foldr] in H4, H5. cbv beta in H5. rewrite Z.add_0_r, Ht in H4.
  rewrite Z.add_0_r in H5.
  unfold stats_of_counters in Hs. rewrite H4, H5 in Hs.
  apply result_bind_Ok in Hs as (ae & _ & Hs).
  apply result_bind_Ok in Hs as (ai & _ & Hs).
  apply result_bind_Ok in Hs as (sr & Hsr & Hs).
  injection Hs as <-. cbn [st_success_rate]. unfold success_rate.
  destruct (review_history (record_of E id)) as [|x h]; [exact Hsr|].
  destruct (Z.ltb_spec 0 (Z.of_nat (length (x :: h)))) as [_|Hle]; [exact Hsr|].
  cbn [length] in Hle. lia.
Qed.

(** An instance: card c1 after GOOD, AGAIN, GOOD. *)
Lemma success_rate_matches_stats_witness :
  let ops := Review <$> (sample_call <$> [GOOD; AGAIN; GOOD]) in
  let E := run_ops ops new_engine in
  exists E' s,
    (import_free ops = true /\ get_study_stats sample_now ["c1"%string] E = (E', Ok s)) /\
    success_rate (record_of E "c1") = Ok (st_success_rate s).
Proof.
  eexists _, _. split.
  - split; vm_compute; reflexivity.
  - eapply (success_rate_matches_stats
              (Review <$> (sample_call <$> [GOOD; AGAIN; GOOD])) sample_now "c1"%string);
      vm_compute; reflexivity.
Defined.

(** ** Recent reviews *)

Lemma run_ops_invariant_clock (P : ReviewData -> Prop) :
  P ReviewData0 ->
  (forall c r rt d, clock_ok c = true -> P d -> P (fst (review_record c r rt d))) ->
  forall ops (E : engine),
    import_free ops = true -> forallb op_clock_ok ops = true ->
    (forall id d, E !! id = Some d -> P d) ->
    forall id d, run_ops ops E !! id = Some d -> P d.
Proof.
  intros H0 Hstep ops. induction ops as [|o ops IH]; intros E Hops Hclk HE; simpl.
  - exact HE.
  - simpl in Hops, Hclk.
    apply andb_true_iff in Hops as [Ho Hops]. apply andb_true_iff in Hclk as [Hc Hclk].
    apply IH; [exact Hops|exact Hclk|]. intros id d.
    destruct o as [c|now ids|now ids| |data]; simpl.
    + rewrite do_review_lookup. destruct (decide _) as [<-|]; [|apply HE].
      intros [= <-]. apply Hstep; [exact Hc|].
      destruct (E !! rc_card_id c) as [d0|] eqn:Hd; simpl;
        [exact (HE (rc_card_id c) d0 Hd)|exact H0].
    + destruct (get_due_cards_engine now ids E) as (k & -> & _).
      intros H. apply with_defaults_record in H as [H| ->]; [exact (HE id d H)|exact H0].
    + destruct (get_study_stats_engine now ids E) as (k & -> & _).
      intros H. apply with_defaults_record in H as [H| ->]; [exact (HE id d H)|exact H0].
    + apply HE.
    + discriminate.
Qed.

Lemma run_ops_history_aware ops id :
  import_free ops = true -> forallb op_clock_ok ops = true ->
  history_aware (record_of (run_ops ops new_engine) id).
Proof.
  intros Hops Hclk. unfold record_of.
  destruct (run_ops ops new_engine !! id) as [d|] eqn:Hd;
    [|intros x Hx; by apply not_elem_of_nil in Hx].
  cbn [default from_option]. revert Hd.
  apply (run_ops_invariant_clock history_aware) with (ops := ops) (E := new_engine);
    try assumption.
  - intros x Hx. by apply not_elem_of_nil in Hx.
  - intros c r rt d0 Hc H x. destruct (review_record_log c r rt d0) as (-> & _).
    rewrite elem_of_app, list_elem_of_singleton. intros [Hx| ->]; [by apply H|].
    cbn [fst]. unfold clock_ok in Hc. apply andb_true_iff in Hc as [Hc _].
    apply andb_true_iff in Hc as [Hc _]. rewrite (utc_now_tzinfo _ Hc). discriminate.
  - intros id' d'. unfold new_engine. by rewrite lookup_empty.
Qed.

Lemma recent_of_history_aware cutoff id h acc :
  tzinfo cutoff <> None ->
  (forall x, x ∈ h -> tzinfo (fst (fst x)) <> None) ->
  recent_of_history cutoff id h acc =
    Ok (acc ++ filter (fun x => (instant cutoff <=? instant (entry_time x)) = true)
                 ((fun x => (id, fst (fst x), snd (fst x), snd x)) <$> h)).
Proof.
  intros Hc. revert acc. induction h as [|[[t r] rt] h IH]; intros acc Hh.
  - cbn. by rewrite app_nil_r.
  - cbn [recent_of_history]. rewrite datetime_le_aware; [|exact Hc|].
    + cbn [mbind result_bind]. unfold mbind, result_bind.
      rewrite IH by (intros x Hx; apply Hh; by apply list_elem_of_further).
      rewrite fmap_cons. cbn [fst snd].
      destruct (instant cutoff <=? instant t) eqn:Hle.
      * rewrite filter_cons_True by exact Hle. by rewrite <- app_assoc.
      * rewrite filter_cons_False by (unfold entry_time; cbn; rewrite Hle; discriminate).
        reflexivity.
    + apply (Hh (t, r, rt)). apply list_elem_of_here.
Qed.

Lemma recent_candidates_insert_default (E : engine) i ids :
  recent_candidates (<[i := record_of E i]> E) ids = recent_candidates E ids.
Proof.
  unfold recent_candidates. induction ids as [|id ids IH]; [done|].
  rewrite !bind_cons. by rewrite IH, record_of_insert_default.
Qed.

Lemma recent_loop_aware cutoff ids acc (E : engine) :
  tzinfo cutoff <> None ->
  (forall id, id ∈ ids -> history_aware (record_of E id)) ->
  snd (recent_loop cutoff ids acc E) =
    Ok (acc ++ filter (fun x => (instant cutoff <=? instant (entry_time x)) = true)
                 (recent_candidates E ids)).
Proof.
  intros Hc. revert acc E. induction ids as [|i ids IH]; intros acc E HE.
  - cbn. by rewrite app_nil_r.
  - cbn [recent_loop]. rewrite get_review_data_eq. fold (record_of E i).
    rewrite recent_of_history_aware; [|exact Hc|apply HE, list_elem_of_here].
    rewrite IH.
    + rewrite recent_candidates_insert_default. unfold recent_candidates.
      rewrite bind_cons, filter_app. by rewrite <- app_assoc.
    + intros id Hid. rewrite record_of_insert_default. by apply HE, list_elem_of_further.
Qed.

Lemma insert_newest_perm x l : insert_newest x l ≡ₚ x :: l.
Proof.
  induction l as [|y l IH]; [done|]. cbn [insert_newest].
  destruct (_ <=? _); [done|]. rewrite IH. apply Permutation_swap.
Qed.

Lemma sort_newest_first_perm l : sort_newest_first l ≡ₚ l.
Proof.
  induction l as [|x l IH]; [done|]. cbn [sort_newest_first foldr].
  fold (sort_newest_first l). by rewrite insert_newest_perm, IH.
Qed.

Lemma insert_newest_sorted x l : newest_first l -> newest_first (insert_newest x l).
Proof.
  induction l as [|y l IH]; cbn [insert_newest newest_first].
  - intros _. split; [constructor|exact I].
  - intros [Hy Hs].
    destruct (Z.leb_spec (instant (entry_time y)) (instant (entry_time x))) as [Hle|Hgt];
      cbn [newest_first].
    + split; [|by split]. constructor; [exact Hle|].
      eapply Forall_impl; [exact Hy|]. cbv beta. intros z Hz. lia.
    + split; [|by apply IH].
      rewrite insert_newest_perm. constructor; [lia|exact Hy].
Qed.

Lemma sort_newest_first_sorted l : newest_first (sort_newest_first l).
Proof.
  induction l as [|x l IH]; [exact I|]. by apply insert_newest_sorted.
Qed.

Lemma ymd2ord_le_max y m d :
  1 <= y <= 9999 -> 1 <= m <= 12 -> 1 <= d <= days_in_month y m ->
  ymd2ord y m d <= 3652059.
Proof.
  intros Hy Hm Hd.
  assert (H1 : days_before_month y m + d <= 365 + (if is_leap y then 1 else 0)).
  { unfold days_before_month, days_in_month in *.
    destruct (is_leap y); destruct m as [|p|p]; try lia;
      do 4 (try destruct p as [p|p|]; try lia); cbn in *; lia. }
  assert (H2 : days_before_year y + 365 + (if is_leap y then 1 else 0)
               = days_before_year (y + 1)).
  { unfold days_before_year, is_leap.
    replace (y + 1 - 1) with y by lia.
    repeat match goal with
           | |- context [?a mod ?b =? 0] => destruct (Z.eqb_spec (a mod b) 0)
           end; cbn [andb orb negb]; Z.div_mod_to_equations; lia. }
  assert (H3 : days_before_year (y + 1) <= 3652059).
  { unfold days_before_year. replace (y + 1 - 1) with y by lia.
    Z.div_mod_to_equations. lia. }
  unfold ymd2ord. lia.
Qed.

Lemma to_micros_le_max t : datetime_valid t = true -> to_micros t <= MAX_MICROS.
Proof.
  unfold datetime_valid. rewrite !andb_true_iff.
  intros (((((((Hy & Hm) & Hd) & Hh) & Hmi) & Hs) & Hus) & _).
  apply between_true in Hy, Hm, Hd, Hh, Hmi, Hs, Hus.
  pose proof (ymd2ord_le_max _ _ _ Hy Hm Hd) as Ho.
  unfold to_micros, MAX_MICROS, US_PER_DAY, US_PER_SECOND. lia.
Qed.

Lemma timedelta_days_ok n :
  -999999999 <= n <= 999999999 -> timedelta_days n = Ok (n * US_PER_DAY).
Proof.
  intros Hn. unfold timedelta_days, timedelta.
  rewrite Z.div_mul by (unfold US_PER_DAY, US_PER_SECOND; lia).
  by rewrite between_intro.
Qed.

Lemma datetime_add_ok d delta :
  0 <= to_micros d + delta <= MAX_MICROS ->
  datetime_add d delta = Ok (of_micros (to_micros d + delta) (tzinfo d)).
Proof. intros H. unfold datetime_add. by rewrite between_intro. Qed.

Lemma cutoff_date_ok now days :
  utc_now now = true -> 0 <= days -> days * US_PER_DAY <= to_micros now ->
  exists cutoff, (delta ← timedelta_days days; datetime_add now (- delta)) = Ok cutoff /\
                 tzinfo cutoff <> None /\ instant cutoff = instant now - days * US_PER_DAY.
Proof.
  intros Hnow H0 Hd.
  pose proof (to_micros_le_max _ (utc_now_valid _ Hnow)) as Hmax.
  assert (Hdays : days <= 999999999 /\ 0 <= days * US_PER_DAY).
  { unfold MAX_MICROS, US_PER_DAY, US_PER_SECOND in *. lia. }
  rewrite timedelta_days_ok by lia.
  change (Ok (days * US_PER_DAY) ≫= (fun delta => datetime_add now (- delta)))
    with (datetime_add now (- (days * US_PER_DAY))).
  assert (Hadd : datetime_add now (- (days * US_PER_DAY)) =
                 Ok (of_micros (to_micros now + - (days * US_PER_DAY)) (tzinfo now)))
    by (apply datetime_add_ok; lia).
  eexists. split; [exact Hadd|].
  destruct (datetime_add_micros _ _ _ Hadd) as [_ Htz].
  split; [rewrite Htz, (utc_now_tzinfo _ Hnow); discriminate|].
  rewrite (datetime_add_instant _ _ _ Hadd). lia.
Qed.

(** X16. [_get_recent_reviews], the list behind "Recent Activity": on an
    engine never loaded from a snapshot it returns without an exception
    (for a number of days that does not reach before the year 1); the
    list holds, with their multiplicity, exactly the history entries of
    the listed cards that are not older than [days] days, and no entry
    in it is older than one after it (newest first). *)
Theorem recent_reviews_newest_first ops now ids days :
  import_free ops = true -> forallb op_clock_ok ops = true -> utc_now now = true ->
  0 <= days -> days * US_PER_DAY <= to_micros now ->
  let E := run_ops ops new_engine in
  exists l,
    snd (_get_recent_reviews now ids days E) = Ok l /\
    l ≡ₚ filter (fun x => is_recent now days x = true) (recent_candidates E ids) /\
    newest_first l.
Proof.
  intros Hops Hclk Hnow H0 Hd E.
  destruct (cutoff_date_ok now days Hnow H0 Hd) as (cutoff & Hc & Htz & Hi).
  unfold _get_recent_reviews. rewrite Hc.
  pose proof (recent_loop_aware cutoff ids [] E Htz) as Hloop.
  destruct (recent_loop cutoff ids [] E) as [E1 r]. cbn [snd] in *.
  rewrite Hloop by (intros id _; by apply run_ops_history_aware).
  cbn [mbind result_bind mret result_ret app].
  eexists. split; [reflexivity|]. split; [|apply sort_newest_first_sorted].
  rewrite sort_newest_first_perm.
  erewrite list_filter_iff; [reflexivity|].
  intros x. unfold is_recent. by rewrite Hi.
Qed.

(** An instance: the last seven days of cards c1 and c2 after three
    reviews of c1. *)
Lemma recent_reviews_newest_first_witness :
  let ops := Review <$> (sample_call <$> [GOOD; AGAIN; GOOD]) in
  let ids := ["c1"; "c2"]%string in
  let E := run_ops ops new_engine in
  (import_free ops = true /\ forallb op_clock_ok ops = true /\ utc_now sample_now = true /\
   0 <= 7 /\ 7 * US_PER_DAY <= to_micros sample_now) /\
  exists l,
    snd (_get_recent_reviews sample_now ids 7 E) = Ok l /\
    l ≡ₚ filter (fun x => is_recent sample_now 7 x = true) (recent_candidates E ids) /\
    newest_first l.
Proof.
  cbv zeta. split.
  - split; [|split; [|split; [|split]]]; try (vm_compute; reflexivity);
      vm_compute; discriminate.
  - apply (recent_reviews_newest_first (Review <$> (sample_call <$> [GOOD; AGAIN; GOOD]))
             sample_now ["c1"; "c2"]%string 7); try (vm_compute; reflexivity);
      vm_compute; discriminate.
Defined.

Lemma recent_of_history_result cutoff id h acc :
  (exists l, recent_of_history cutoff id h acc = Ok l) \/
  recent_of_history cutoff id h acc = Raise TypeError.
Proof.
  revert acc. induction h as [|[[t r] rt] h IH]; intros acc; [left; by eexists|].
  cbn [recent_of_history]. unfold datetime_le.
  destruct (tzinfo cutoff), (tzinfo t); try (by right); apply IH.
Qed.

Lemma recent_of_history_naive cutoff id h acc x :
  tzinfo cutoff <> None -> x ∈ h -> tzinfo (fst (fst x)) = None ->
  recent_of_history cutoff id h acc = Raise TypeError.
Proof.
  intros Hc Hx Hn. revert acc. induction h as [|[[t r] rt] h IH]; intros acc.
  - by apply not_elem_of_nil in Hx.
  - cbn [recent_of_history]. apply elem_of_cons in Hx as [->|Hx].
    + cbn [fst] in Hn. unfold datetime_le. rewrite Hn.
      by destruct (tzinfo cutoff).
    + destruct (datetime_le cutoff t) as [b|e] eqn:Hle.
      * apply (IH Hx).
      * unfold datetime_le in Hle.
        destruct (tzinfo cutoff), (tzinfo t); try discriminate;
          injection Hle as <-; reflexivity.
Qed.

Lemma recent_loop_naive cutoff ids acc (E : engine) id x :
  tzinfo cutoff <> None -> id ∈ ids ->
  x ∈ review_history (record_of E id) -> tzinfo (fst (fst x)) = None ->
  snd (recent_loop cutoff ids acc E) = Raise TypeError.
Proof.
  intros Hc Hid Hx Hn. revert acc E Hx. induction ids as [|i ids IH]; intros acc E Hx.
  - by apply not_elem_of_nil in Hid.
  - cbn [recent_loop]. rewrite get_review_data_eq. fold (record_of E i).
    destruct (decide (i = id)) as [->|Hne].
    + by rewrite (recent_of_history_naive cutoff id _ acc x Hc Hx Hn).
    + apply elem_of_cons in Hid as [->|Hid]; [done|].
      destruct (recent_of_history_result cutoff i (review_history (record_of E i)) acc)
        as [[l ->]| ->]; [|reflexivity].
      apply IH; [exact Hid|]. by rewrite record_of_insert_default.
Qed.

(** X17. A history entry with a naive timestamp, which [import_data]
    accepts, makes [_get_recent_reviews] raise [TypeError] for every
    list that names the card: the comparison with the aware cutoff date
    fails, whatever the other cards and entries are. *)
Theorem recent_reviews_naive_raises now ids days (E : engine) id x :
  utc_now now = true -> 0 <= days -> days * US_PER_DAY <= to_micros now ->
  id ∈ ids -> x ∈ review_history (record_of E id) -> tzinfo (fst (fst x)) = None ->
  snd (_get_recent_reviews now ids days E) = Raise TypeError.
Proof.
  intros Hnow H0 Hd Hid Hx Hn.
  destruct (cutoff_date_ok now days Hnow H0 Hd) as (cutoff & Hc & Htz & _).
  unfold _get_recent_reviews. rewrite Hc.
  pose proof (recent_loop_naive cutoff ids [] E id x Htz Hid Hx Hn) as Hloop.
  destruct (recent_loop cutoff ids [] E) as [E1 r]. cbn [snd] in *. by rewrite Hloop.
Qed.

(** An instance: card b imported with one history entry whose timestamp
    has no offset. *)
Lemma recent_reviews_naive_raises_witness :
  let E := run_ops [Import [("b"%string,
                      sample_entry None None None None
                        (Some [("2024-02-01T08:30:00"%string, 3, f_5_0)]))]]
             new_engine in
  let x := (mk_datetime 2024 2 1 8 30 0 0 None, EASY, f_5_0) in
  (utc_now sample_now = true /\ 0 <= 7 /\ 7 * US_PER_DAY <= to_micros sample_now /\
   "b"%string ∈ ["c1"; "b"]%string /\ x ∈ review_history (record_of E "b") /\
   tzinfo (fst (fst x)) = None) /\
  snd (_get_recent_reviews sample_now ["c1"; "b"]%string 7 E) = Raise TypeError.
Proof.
  cbv zeta.
  assert (H1 : utc_now sample_now = true) by (vm_compute; reflexivity).
  assert (H2 : 0 <= 7) by lia.
  assert (H3 : 7 * US_PER_DAY <= to_micros sample_now) by (vm_compute; discriminate).
  assert (H4 : "b"%string ∈ ["c1"; "b"]%string) by set_solver.
  assert (H5 : (mk_datetime 2024 2 1 8 30 0 0 None, EASY, f_5_0) ∈
               review_history
                 (record_of
                    (run_ops [Import [("b"%string,
                                sample_entry None None None None
                                  (Some [("2024-02-01T08:30:00"%string, 3, f_5_0)]))]]
                       new_engine) "b"))
    by (vm_compute; apply list_elem_of_here).
  split; [by repeat split|].
  exact (recent_reviews_naive_raises sample_now ["c1"; "b"]%string 7 _ "b"%string _
           H1 H2 H3 H4 H5 eq_refl).
Defined.

(** ** The age of a review as the window shows it *)

Lemma datetime_sub_aware a b :
  tzinfo a <> None -> tzinfo b <> None -> datetime_sub a b = Ok (instant a - instant b).
Proof.
  unfold datetime_sub, instant. destruct (tzinfo a), (tzinfo b); done.
Qed.

(** X18. [_format_time_ago] by the time elapsed between two aware
    values: from one day on it shows whole days, above 3600 whole
    seconds whole hours, above 60 whole minutes, else "Just now" (so
    exactly one hour is shown as 60 minutes and exactly one minute as
    "Just now"). A timestamp ahead of the clock by less than 82799
    seconds is not shown as "Just now" but as 1 to 23 hours ago, since
    the negative difference is normalized to minus one day plus
    seconds. *)
Theorem format_time_ago_cases now timestamp :
  tzinfo now <> None -> tzinfo timestamp <> None ->
  let e := instant now - instant timestamp in
  let s := e / US_PER_SECOND in
  (0 <= e ->
   _format_time_ago now timestamp =
     Ok (if 86400 <=? s then DaysAgo (s / 86400)
         else if 3600 <? s then HoursAgo (s / 3600)
         else if 60 <? s then MinutesAgo (s / 60)
         else JustNow)) /\
  (- 82799 * US_PER_SECOND <= e < 0 ->
   exists h, _format_time_ago now timestamp = Ok (HoursAgo h) /\ 1 <= h <= 23).
Proof.
  intros Hnow Ht e s. unfold _format_time_ago.
  rewrite (datetime_sub_aware _ _ Hnow Ht). fold e.
  change (Ok e ≫= ?f) with (f e). cbv beta.
  unfold td_days, td_seconds, US_PER_DAY, US_PER_SECOND in *. split.
  - intros He.
    assert (Hdiv : e / (86400 * 1000000) = s / 86400).
    { unfold s. rewrite Z.div_div by lia. f_equal. }
    rewrite Hdiv.
    destruct (Z.ltb_spec 0 (s / 86400)) as [Hd|Hd];
      destruct (Z.leb_spec 86400 s) as [Hs|Hs]; try reflexivity;
      try (exfalso; Z.div_mod_to_equations; lia).
    assert (Hs' : e mod (86400 * 1000000) / 1000000 = s).
    { unfold s. rewrite Z.mod_small; [reflexivity|]. Z.div_mod_to_equations. lia. }
    rewrite Hs'. destruct (3600 <? s); [reflexivity|]. by destruct (60 <? s).
  - intros He.
    destruct (Z.ltb_spec 0 (e / (86400 * 1000000))) as [Hd|Hd];
      [exfalso; Z.div_mod_to_equations; lia|].
    set (secs := e mod (86400 * 1000000) / 1000000).
    assert (Hsecs : 3601 <= secs <= 86399)
      by (unfold secs; Z.div_mod_to_equations; lia).
    destruct (Z.ltb_spec 3600 secs); [|lia].
    eexists. split; [reflexivity|]. Z.div_mod_to_equations. lia.
Qed.

(** An instance: a review of exactly one hour ago. *)
Lemma format_time_ago_cases_witness :
  let now := sample_now in
  let timestamp := mk_datetime 2024 1 1 11 0 0 0 (Some 0) in
  let e := instant now - instant timestamp in
  let s := e / US_PER_SECOND in
  (tzinfo now <> None /\ tzinfo timestamp <> None) /\
  (0 <= e ->
   _format_time_ago now timestamp =
     Ok (if 86400 <=? s then DaysAgo (s / 86400)
         else if 3600 <? s then HoursAgo (s / 3600)
         else if 60 <? s then MinutesAgo (s / 60)
         else JustNow)) /\
  (- 82799 * US_PER_SECOND <= e < 0 ->
   exists h, _format_time_ago now timestamp = Ok (HoursAgo h) /\ 1 <= h <= 23).
Proof.
  cbv zeta. split; [split; discriminate|].
  apply (format_time_ago_cases sample_now (mk_datetime 2024 1 1 11 0 0 0 (Some 0)));
    discriminate.
Defined.
